(** * sysprobe-llm: the probe execution pipeline

    A shallow embedding of the Go sources of sysprobe-llm
    (internal/platform, internal/probe, internal/report, internal/ui
    and the command with its two schedulers) together with the
    properties its specification states about them and further
    properties of the code.

    Go strings are byte sequences: they are modelled by [string], whose
    characters are the bytes.  Go's [int] is modelled by [Z]. *)

From Stdlib Require Import ZArith Lia Ascii.
From stdpp Require Import gmap strings list sorting pretty.

(** ** Bytes and strings of the Go runtime *)

Definition byte_of_Z (z : Z) : ascii := ascii_of_N (Z.to_N z).
Definition Z_of_byte (c : ascii) : Z := Z.of_N (N_of_ascii c).

Definition nl : string := String "010"%char "".

(** [len(s)]: the number of bytes. *)
Definition len (s : string) : Z := Z.of_nat (String.length s).

(** [s[:n]] and [s[n:]] for [0 <= n <= len(s)]. *)
Fixpoint slice_to (n : nat) (s : string) : string :=
  match n, s with
  | S n', String c s' => String c (slice_to n' s')
  | _, _ => ""
  end.

Fixpoint slice_from (n : nat) (s : string) : string :=
  match n, s with
  | S n', String _ s' => slice_from n' s'
  | _, _ => s
  end.

Definition HasPrefix (s p : string) : bool := String.prefix p s.

Definition HasSuffix (s suffix : string) : bool :=
  String.prefix (String.rev suffix) (String.rev s).

Definition TrimSuffix (s suffix : string) : string :=
  if HasSuffix s suffix
  then slice_to (String.length s - String.length suffix) s
  else s.

(** [strings.Contains(s, substr)]. *)
Fixpoint Contains (s substr : string) : bool :=
  String.prefix substr s ||
  match s with
  | "" => false
  | String _ s' => Contains s' substr
  end.

(** [strings.Split(s, sep)] for a separator of one byte, which is the
    only way the program calls it. *)
Fixpoint Split_go (s : string) (sep : ascii) : string * list string :=
  match s with
  | "" => ("", [])
  | String c s' =>
      let '(cur, rest) := Split_go s' sep in
      if Ascii.eqb c sep then ("", cur :: rest) else (String c cur, rest)
  end.

Definition Split (s : string) (sep : ascii) : list string :=
  let '(cur, rest) := Split_go s sep in cur :: rest.

(** [strings.Join(elems, sep)]. *)
Definition Join (elems : list string) (sep : string) : string :=
  String.concat sep elems.

(** *** Runes *)

(** The conversion [rune(x)] of an [int]: the low 32 bits, signed. *)
Definition rune (x : Z) : Z :=
  let u := (x mod 2 ^ 32)%Z in
  if (u <? 2 ^ 31)%Z then u else (u - 2 ^ 32)%Z.

Definition utf8_cont (r : Z) : ascii :=
  byte_of_Z (Z.lor 128 (Z.land r 63)).

Definition utf8_encode (r : Z) : string :=
  if (r <? 128)%Z then String (byte_of_Z r) ""
  else if (r <? 2048)%Z then
    String (byte_of_Z (Z.lor 192 (Z.shiftr r 6))) (String (utf8_cont r) "")
  else if (r <? 65536)%Z then
    String (byte_of_Z (Z.lor 224 (Z.shiftr r 12)))
      (String (utf8_cont (Z.shiftr r 6)) (String (utf8_cont r) ""))
  else
    String (byte_of_Z (Z.lor 240 (Z.shiftr r 18)))
      (String (utf8_cont (Z.shiftr r 12))
         (String (utf8_cont (Z.shiftr r 6)) (String (utf8_cont r) ""))).

Definition RuneError : Z := 65533.

Definition valid_rune (r : Z) : bool :=
  ((0 <=? r) && (r <? 55296) || (57343 <? r) && (r <=? 1114111))%Z.

(** The conversion [string(r)] of a rune: its UTF-8 encoding, and the
    encoding of U+FFFD for a value that is no code point. *)
Definition string_of_rune (r : Z) : string :=
  if valid_rune r then utf8_encode r else utf8_encode RuneError.

(** *** [strings.TrimSpace]

    The white space of [unicode.IsSpace].  A rune decoded at the start
    (or at the end) of a string is one of these exactly when the string
    starts (ends) with its encoding, since only a well-formed encoding
    decodes to a rune other than U+FFFD. *)
Definition asciiSpace (c : ascii) : bool :=
  let n := Z_of_byte c in
  ((9 <=? n) && (n <=? 13) || (n =? 32))%Z.

Definition space2 (c1 c2 : ascii) : bool :=
  (Z_of_byte c1 =? 194)%Z && ((Z_of_byte c2 =? 133) || (Z_of_byte c2 =? 160))%Z.

Definition space3 (c1 c2 c3 : ascii) : bool :=
  let '(a, b, c) := (Z_of_byte c1, Z_of_byte c2, Z_of_byte c3) in
  ((a =? 225) && (b =? 154) && (c =? 128)
   || (a =? 226) && (b =? 128)
      && ((128 <=? c) && (c <=? 138) || (c =? 168) || (c =? 169) || (c =? 175))
   || (a =? 226) && (b =? 129) && (c =? 159)
   || (a =? 227) && (b =? 128) && (c =? 128))%Z.

Fixpoint TrimLeftSpace (s : string) : string :=
  match s with
  | "" => ""
  | String c1 s1 =>
      if asciiSpace c1 then TrimLeftSpace s1 else
      match s1 with
      | "" => s
      | String c2 s2 =>
          if space2 c1 c2 then TrimLeftSpace s2 else
          match s2 with
          | "" => s
          | String c3 s3 => if space3 c1 c2 c3 then TrimLeftSpace s3 else s
          end
      end
  end.

(** The same from the end, on the reversed string. *)
Fixpoint TrimLeftSpace_rev (s : string) : string :=
  match s with
  | "" => ""
  | String c1 s1 =>
      if asciiSpace c1 then TrimLeftSpace_rev s1 else
      match s1 with
      | "" => s
      | String c2 s2 =>
          if space2 c2 c1 then TrimLeftSpace_rev s2 else
          match s2 with
          | "" => s
          | String c3 s3 => if space3 c3 c2 c1 then TrimLeftSpace_rev s3 else s
          end
      end
  end.

Definition TrimRightSpace (s : string) : string :=
  String.rev (TrimLeftSpace_rev (String.rev s)).

Definition TrimSpace (s : string) : string :=
  TrimRightSpace (TrimLeftSpace s).

(** Whether a string starts, or ends, with white space. *)
Definition startsWithSpace (s : string) : bool :=
  match s with
  | "" => false
  | String c1 s1 =>
      asciiSpace c1 ||
      match s1 with
      | "" => false
      | String c2 s2 =>
          space2 c1 c2 ||
          match s2 with
          | "" => false
          | String c3 _ => space3 c1 c2 c3
          end
      end
  end.

Definition startsWithSpace_rev (s : string) : bool :=
  match s with
  | "" => false
  | String c1 s1 =>
      asciiSpace c1 ||
      match s1 with
      | "" => false
      | String c2 s2 =>
          space2 c2 c1 ||
          match s2 with
          | "" => false
          | String c3 _ => space3 c3 c2 c1
          end
      end
  end.

Definition endsWithSpace (s : string) : bool :=
  startsWithSpace_rev (String.rev s).

(** The number of lines [strings.Split] on a line feed counts. *)
Definition lineCount (s : string) : Z :=
  Z.of_nat (length (Split s "010"%char)).

(** ** internal/probe: truncation *)

Definition DefaultMaxLines : Z := 500.
Definition DefaultMaxBytes : Z := 64 * 1024.

(** The loop of [formatBytes]: [for n := b / unit; n >= unit; n /= unit].
    An [int] is below [2 ^ 63], so the body runs at most five times. *)
Fixpoint formatBytes_loop (fuel : nat) (n div exp : Z) : Z * Z :=
  match fuel with
  | O => (div, exp)
  | S fuel' =>
      if (n >=? 1024)%Z
      then formatBytes_loop fuel' (n / 1024)%Z (div * 1024)%Z (exp + 1)%Z
      else (div, exp)
  end.

Definition formatBytes (b : Z) : string :=
  if (b <? 1024)%Z then string_of_rune (rune (b + 48)) +:+ "B"
  else
    let '(div, exp) := formatBytes_loop 6 (b / 1024)%Z 1024%Z 0%Z in
    string_of_rune (rune (b / div + 48))
    +:+ match String.get (Z.to_nat exp) "KMGTPE" with
        | Some c => String c ""
        | None => ""
        end
    +:+ "B".

Definition effective (override default : Z) : Z :=
  if (override <=? 0)%Z then default else override.

Definition byteMarker (maxBytes : Z) : string :=
  nl +:+ "... [truncated: exceeded " +:+ formatBytes maxBytes +:+ "]".

Definition lineMarker (maxLines : Z) : string :=
  nl +:+ "... [truncated: exceeded " +:+ string_of_rune (rune (maxLines + 48))
  +:+ " lines]".

(** The two stages of [truncateOutput], on the effective bounds. *)
Definition truncateBytes (output : string) (maxBytes : Z) : string :=
  if (len output >? maxBytes)%Z
  then slice_to (Z.to_nat maxBytes) output +:+ byteMarker maxBytes
  else output.

Definition truncateLines (output : string) (maxLines : Z) : string :=
  let lines := Split output "010"%char in
  if (Z.of_nat (length lines) >? maxLines)%Z
  then Join (take (Z.to_nat maxLines) lines) nl +:+ lineMarker maxLines
  else output.

Definition truncateOutput (output : string) (maxLines maxBytes : Z) : string :=
  let maxLines := effective maxLines DefaultMaxLines in
  let maxBytes := effective maxBytes DefaultMaxBytes in
  let output := truncateBytes output maxBytes in
  let output := truncateLines output maxLines in
  TrimSpace output.

(** ** What the program takes from its surroundings *)

(** Functions of the Go standard library whose Unicode tables and number
    formatting are not reproduced here.  The definitions below use them
    as they are; the theorems hold for every instance. *)
Class GoLib := {
  (** [strings.ToLower] *)
  ToLower : string -> string;
  (** [strings.Title] *)
  Title : string -> string;
  (** [time.Duration.String], on a number of nanoseconds *)
  Duration_String : Z -> string;
  (** [time.Time.Format], on a layout and an instant *)
  Time_Format : string -> Z -> string;
}.

(** The outcome of [cmd.Run()] under the deadline context: what was
    captured on both streams, the error [cmd.Run] returned, whether
    [ctx.Err()] is [context.DeadlineExceeded], and the time it took. *)
Record ExecOutcome := {
  out_stdout : string;
  out_stderr : string;
  out_err : option string;
  out_deadline : bool;
  out_elapsed : Z;
}.

(** What a fallible call returns: a value, or the message of an error. *)
Inductive result (A : Type) :=
| Ok (a : A)
| Err (msg : string).
Arguments Ok {A} a.
Arguments Err {A} msg.

(** The machine the program runs on. *)
Class Host := {
  (** [exec.LookPath name] returns no error *)
  LookPath : string -> bool;
  (** [sh -c command] run under a deadline of the given duration *)
  sh : string -> Z -> ExecOutcome;
  (** [tokenizer.Get(tokenizer.Cl100kBase)]: the encoder, from a text
      to its tokens *)
  tokenizer_Get : result (string -> list Z);
}.

(** The calls a function makes to the host, in order. *)
Inductive Event :=
| EvLookPath (name : string)
| EvSpawn (command : string).

Definition M (A : Type) : Type := list Event -> A * list Event.

Definition ret {A} (a : A) : M A := fun tr => (a, tr).

Definition bind {A B} (m : M A) (k : A -> M B) : M B :=
  fun tr => let '(a, tr') := m tr in k a tr'.

Notation "'do' x <- m ; k" := (bind m (fun x => k))
  (at level 10, x name, m at level 100, k at level 200).

Definition lookPath `{Host} (name : string) : M bool :=
  fun tr => (LookPath name, tr ++ [EvLookPath name]).

Definition spawn `{Host} (command : string) (timeout : Z) : M ExecOutcome :=
  fun tr => (sh command timeout, tr ++ [EvSpawn command]).

Definition spawned (tr : list Event) : list string :=
  omap (fun e => match e with EvSpawn c => Some c | _ => None end) tr.

(** ** internal/platform *)

Record Platform := {
  OS : string;
  Distro : string;
  DistroID : string;
  WM : string;
  IsRoot : bool;
  IsWayland : bool;
}.

(** One iteration of the loop of [MatchesTags]: whether the [switch]
    returns [true] for this tag. *)
Definition tagMatches `{GoLib} (p : Platform) (tag : string) : bool :=
  let tag := ToLower tag in
  if String.eqb tag "wayland" then IsWayland p
  else if String.eqb tag "x11" then negb (IsWayland p) && negb (String.eqb (WM p) "")
  else if String.eqb tag "hyprland" then Contains (WM p) "hyprland"
  else if String.eqb tag "sway" then Contains (WM p) "sway"
  else if String.eqb tag "gnome" then Contains (WM p) "gnome"
  else if String.eqb tag "kde" || String.eqb tag "plasma"
       then Contains (WM p) "kde" || Contains (WM p) "plasma"
  else Contains (Distro p) tag || Contains (WM p) tag.

Fixpoint MatchesTags_loop `{GoLib} (p : Platform) (tags : list string) : bool :=
  match tags with
  | [] => false
  | tag :: rest => if tagMatches p tag then true else MatchesTags_loop p rest
  end.

Definition MatchesTags `{GoLib} (p : Platform) (tags : list string) : bool :=
  if (Z.of_nat (length tags) =? 0)%Z then true else MatchesTags_loop p tags.

(** ** internal/probe: types *)

Inductive Status :=
| StatusPending
| StatusRunning
| StatusSuccess
| StatusSkipped
| StatusFailed.

Global Instance Status_eq_dec : EqDecision Status.
Proof. solve_decision. Defined.

Record Task := {
  Task_Name : string;
  Task_Command : string;
  Task_Privilege : string;
  Task_MaxLines : Z;
  Task_MaxBytes : Z;
  Task_Requires : list string;
  Task_Tags : list string;
  Task_Category : string;
}.

Record Profile := {
  Profile_Name : string;
  Profile_Description : string;
  Profile_Platform : string;
  Profile_Tasks : list Task;
}.

Record TaskResult := {
  Name : string;
  Command : string;
  Category : string;
  Status_ : Status;
  Output : string;
  Error : string;
  Duration : Z;
  SkipReason : string;
}.

(** The zero value of [TaskResult]. *)
Definition TaskResult_zero : TaskResult :=
  {| Name := ""; Command := ""; Category := ""; Status_ := StatusPending;
     Output := ""; Error := ""; Duration := 0; SkipReason := "" |}.

(** ** internal/probe: the runner *)

Definition DefaultTimeout : Z := 30 * 1000000000.

Record Runner := {
  Runner_Platform : Platform;
  Timeout : Z;
}.

Definition NewRunner (p : Platform) : Runner :=
  {| Runner_Platform := p; Timeout := DefaultTimeout |}.

(** The loop over [task.Requires]: the first name [exec.LookPath] does
    not find, looking up no name after it. *)
Fixpoint firstMissing `{Host} (requires : list string) : M (option string) :=
  match requires with
  | [] => ret None
  | req :: rest =>
      do found <- lookPath req;
      if found then firstMissing rest else ret (Some req)
  end.

Definition CanRun `{GoLib} `{Host} (r : Runner) (task : Task) : M (bool * string) :=
  if String.eqb (Task_Privilege task) "sudo" && negb (IsRoot (Runner_Platform r))
  then ret (false, "Requires sudo privileges")
  else
    do missing <- firstMissing (Task_Requires task);
    match missing with
    | Some req => ret (false, "Missing dependency: " +:+ req)
    | None =>
        if (Z.of_nat (length (Task_Tags task)) >? 0)%Z
           && negb (MatchesTags (Runner_Platform r) (Task_Tags task))
        then ret (false, "Environment mismatch: requires "
                         +:+ Join (Task_Tags task) " or ")
        else ret (true, "")
    end.

Definition Run `{GoLib} `{Host} (r : Runner) (task : Task) : M TaskResult :=
  let result :=
    {| Name := Task_Name task; Command := Task_Command task;
       Category := Task_Category task; Status_ := StatusPending;
       Output := ""; Error := ""; Duration := 0; SkipReason := "" |} in
  do verdict <- CanRun r task;
  let '(canRun, reason) := verdict in
  if negb canRun then
    ret {| Name := Name result; Command := Command result;
           Category := Category result; Status_ := StatusSkipped;
           Output := Output result; Error := Error result;
           Duration := Duration result; SkipReason := reason |}
  else
    do o <- spawn (Task_Command task) (Timeout r);
    let output := truncateOutput (out_stdout o) (Task_MaxLines task) (Task_MaxBytes task) in
    let error := truncateOutput (out_stderr o) (Task_MaxLines task) (Task_MaxBytes task) in
    let '(status, error) :=
      if out_deadline o then
        (StatusFailed, "Command timed out after " +:+ Duration_String (Timeout r))
      else
        match out_err o with
        | Some msg => (StatusFailed, if String.eqb error "" then msg else error)
        | None => (StatusSuccess, error)
        end in
    ret {| Name := Name result; Command := Command result;
           Category := Category result; Status_ := status;
           Output := output; Error := error;
           Duration := out_elapsed o; SkipReason := SkipReason result |}.

(** The result of [Run] for a task that cannot run. *)
Definition skipped_result (task : Task) (reason : string) : TaskResult :=
  {| Name := Task_Name task; Command := Task_Command task;
     Category := Task_Category task; Status_ := StatusSkipped;
     Output := ""; Error := ""; Duration := 0; SkipReason := reason |}.

(** ** internal/probe: the loader *)

(** One call of the function [LoadAll] hands to [fs.WalkDir]: the path,
    the error of the walk, whether the entry is a directory, and what
    [ReadFile] followed by [yaml.Unmarshal] gives for it. *)
Record WalkEntry := {
  we_path : string;
  we_err : option string;
  we_isDir : bool;
  we_parsed : result Profile;
}.

(** The embedded file system is the enumeration [fs.WalkDir] makes of
    its "probes" tree. *)
Record Loader := {
  Loader_fs : list WalkEntry;
  Loader_platform : Platform;
}.

Definition NewLoader (probeFS : list WalkEntry) (p : Platform) : Loader :=
  {| Loader_fs := probeFS; Loader_platform := p |}.

Fixpoint dropSlashes (s : string) : string :=
  match s with
  | String c s' => if Ascii.eqb c "/" then dropSlashes s' else s
  | "" => ""
  end.

Fixpoint untilSlash (s : string) : string :=
  match s with
  | String c s' => if Ascii.eqb c "/" then "" else String c (untilSlash s')
  | "" => ""
  end.

(** [filepath.Base] with the separator [/]. *)
Definition filepath_Base (path : string) : string :=
  if String.eqb path "" then "."
  else
    let last := String.rev (untilSlash (dropSlashes (String.rev path))) in
    if String.eqb last "" then "/" else last.

Definition setCategory (category : string) (t : Task) : Task :=
  if String.eqb (Task_Category t) ""
  then {| Task_Name := Task_Name t; Task_Command := Task_Command t;
          Task_Privilege := Task_Privilege t; Task_MaxLines := Task_MaxLines t;
          Task_MaxBytes := Task_MaxBytes t; Task_Requires := Task_Requires t;
          Task_Tags := Task_Tags t; Task_Category := category |}
  else t.

Definition loadProfile (e : WalkEntry) : result Profile :=
  match we_parsed e with
  | Err msg => Err msg
  | Ok profile =>
      let category := TrimSuffix (filepath_Base (we_path e)) ".yaml" in
      Ok {| Profile_Name := Profile_Name profile;
            Profile_Description := Profile_Description profile;
            Profile_Platform := Profile_Platform profile;
            Profile_Tasks := setCategory category <$> Profile_Tasks profile |}
  end.

Definition matchesPlatform `{GoLib} (l : Loader) (profile : Profile) : bool :=
  if String.eqb (Profile_Platform profile) "" then true
  else
    let profilePlatform := ToLower (Profile_Platform profile) in
    let currentPlatform := ToLower (DistroID (Loader_platform l)) in
    if String.eqb profilePlatform currentPlatform then true
    else if Contains currentPlatform profilePlatform then true
    else if String.eqb profilePlatform "linux"
            && String.eqb (OS (Loader_platform l)) "linux" then true
    else false.

(** The walk of [LoadAll]: the profiles appended so far and the error
    that stopped the walk, if one did. *)
Fixpoint LoadAll_walk `{GoLib} (l : Loader) (entries : list WalkEntry)
    (profiles : list Profile) : list Profile * option string :=
  match entries with
  | [] => (profiles, None)
  | e :: rest =>
      match we_err e with
      | Some err => (profiles, Some err)
      | None =>
          if we_isDir e || negb (HasSuffix (we_path e) ".yaml")
          then LoadAll_walk l rest profiles
          else
            match loadProfile e with
            | Err err => (profiles, Some ("loading " +:+ we_path e +:+ ": " +:+ err))
            | Ok profile =>
                LoadAll_walk l rest
                  (if matchesPlatform l profile then profiles ++ [profile]
                   else profiles)
            end
      end
  end.

Definition LoadAll `{GoLib} (l : Loader) : list Profile * option string :=
  LoadAll_walk l (Loader_fs l) [].

Definition FilterTasks (profiles : list Profile) : list Task :=
  foldl (fun tasks profile => foldl (fun tasks task => tasks ++ [task]) tasks
                                (Profile_Tasks profile)) [] profiles.

Definition GetAllTasks `{GoLib} (l : Loader) : result (list Task) :=
  match LoadAll l with
  | (_, Some err) => Err err
  | (profiles, None) => Ok (FilterTasks profiles)
  end.

(** ** internal/report *)

Record TokenCounter := {
  enc : string -> list Z;
}.

Definition NewTokenCounter `{Host} : result TokenCounter :=
  match tokenizer_Get with
  | Err err => Err err
  | Ok enc => Ok {| enc := enc |}
  end.

Definition Count (tc : TokenCounter) (text : string) : Z :=
  Z.of_nat (length (enc tc text)).

Record MarkdownReport := {
  Report_Platform : Platform;
  Results : list TaskResult;
  Generated : Z;
}.

Record categoryGroup := {
  group_name : string;
  group_results : list TaskResult;
}.

(** [fmt.Sprintf("%d", n)]. *)
Definition Itoa (n : Z) : string := pretty n.

Definition RFC3339 : string := "2006-01-02T15:04:05Z07:00".

(** The label a result is filed under. *)
Definition categoryLabel `{GoLib} (result : TaskResult) : string :=
  let cat := Category result in
  let cat := if String.eqb cat "" then "General" else cat in
  Title cat.

(** One iteration of the first loop of [groupByCategory], on
    [categoryMap] and [categoryOrder]. *)
Definition groupByCategory_step `{GoLib}
    (acc : gmap string (list TaskResult) * list string) (result : TaskResult)
    : gmap string (list TaskResult) * list string :=
  let '(categoryMap, categoryOrder) := acc in
  let cat := categoryLabel result in
  let categoryOrder :=
    match categoryMap !! cat with
    | None => categoryOrder ++ [cat]
    | Some _ => categoryOrder
    end in
  (<[cat := default [] (categoryMap !! cat) ++ [result]]> categoryMap, categoryOrder).

(** [sort.Strings]: the order of Go's strings is the order of their
    bytes, and a list has one sorted arrangement. *)
Definition sort_Strings (l : list string) : list string :=
  merge_sort String.le l.

Definition groupByCategory `{GoLib} (r : MarkdownReport) : list categoryGroup :=
  let '(categoryMap, categoryOrder) :=
    foldl groupByCategory_step (∅, []) (Results r) in
  (fun name => {| group_name := name;
                  group_results := default [] (categoryMap !! name) |})
    <$> sort_Strings categoryOrder.

(** The functions that write to a [strings.Builder] take what it holds
    and return what it holds afterwards. *)
Definition writeTaskResult (b : string) (result : TaskResult) : string :=
  if bool_decide (Status_ result = StatusFailed)
     || bool_decide (Status_ result = StatusSkipped)
  then b
  else
    let b := b +:+ (nl +:+ "### " +:+ Name result +:+ nl) in
    let b := b +:+ ("```" +:+ nl +:+ "$ " +:+ Command result +:+ nl) in
    let b :=
      if negb (String.eqb (Output result) "") then
        let b := b +:+ Output result in
        if negb (HasSuffix (Output result) nl) then b +:+ nl else b
      else b +:+ ("[no output]" +:+ nl) in
    b +:+ ("```" +:+ nl).

Definition collectErrors (acc : list TaskResult * list TaskResult)
    (result : TaskResult) : list TaskResult * list TaskResult :=
  let '(errors, skipped) := acc in
  match Status_ result with
  | StatusFailed => (errors ++ [result], skipped)
  | StatusSkipped => (errors, skipped ++ [result])
  | _ => (errors, skipped)
  end.

Definition errorLine (result : TaskResult) : string :=
  let errMsg := Error result in
  let errMsg := if String.eqb errMsg "" then "Unknown error" else errMsg in
  "- **" +:+ Name result +:+ "**: Failed (" +:+ errMsg +:+ ")" +:+ nl.

Definition skippedLine (result : TaskResult) : string :=
  let reason := SkipReason result in
  let reason := if String.eqb reason "" then "Unknown reason" else reason in
  "- **" +:+ Name result +:+ "**: Skipped (" +:+ reason +:+ ")" +:+ nl.

Definition errorsHeading : string :=
  nl +:+ "## Errors & Skipped" +:+ nl +:+ nl.

Definition writeErrorsSection (r : MarkdownReport) (b : string) : string :=
  let '(errors, skipped) := foldl collectErrors ([], []) (Results r) in
  if (Z.of_nat (length errors) =? 0)%Z && (Z.of_nat (length skipped) =? 0)%Z
  then b
  else
    let b := b +:+ errorsHeading in
    let b := foldl (fun b result => b +:+ errorLine result) b errors in
    foldl (fun b result => b +:+ skippedLine result) b skipped.

Definition writeCategory (b : string) (cat : categoryGroup) : string :=
  let b := b +:+ (nl +:+ "## " +:+ group_name cat +:+ nl) in
  foldl writeTaskResult b (group_results cat).

Definition generateContent `{GoLib} (r : MarkdownReport) : string :=
  let b := foldl writeCategory "" (groupByCategory r) in
  writeErrorsSection r b.

Definition reportHeader `{GoLib} (r : MarkdownReport) (tokenCount : Z) : string :=
  let b := "# SysProbe Diagnostic Report" +:+ nl +:+ nl in
  let b := b +:+ ("Generated: " +:+ Time_Format RFC3339 (Generated r) +:+ nl) in
  let b := b +:+ ("Platform: " +:+ DistroID (Report_Platform r)) in
  let b := if negb (String.eqb (WM (Report_Platform r)) "")
           then b +:+ (" (" +:+ WM (Report_Platform r) +:+ ")") else b in
  let b := b +:+ nl in
  b +:+ ("Token Count: " +:+ Itoa tokenCount +:+ nl).

Definition generateWithTokenCount `{GoLib} (r : MarkdownReport) (tokenCount : Z)
    : string :=
  reportHeader r tokenCount +:+ generateContent r.

(** The three generators return [(text, token count, error)]. *)
Definition Generate `{GoLib} `{Host} (r : MarkdownReport)
    : string * Z * option string :=
  let content := generateContent r in
  match NewTokenCounter with
  | Err _ =>
      let tokenCount := (len content / 4)%Z in
      (generateWithTokenCount r tokenCount, tokenCount, None)
  | Ok tc =>
      let tokenCount := Count tc content in
      let report := generateWithTokenCount r tokenCount in
      let finalTokenCount := Count tc report in
      (report, finalTokenCount, None)
  end.

Definition minifiedEntry (b : string) (result : TaskResult) : string :=
  if bool_decide (Status_ result = StatusSuccess)
     && negb (String.eqb (Output result) "")
  then b +:+ (nl +:+ "## " +:+ Name result +:+ nl +:+ "```" +:+ nl
              +:+ TrimSpace (Output result) +:+ nl +:+ "```" +:+ nl)
  else b.

Definition minifiedContent `{GoLib} (r : MarkdownReport) : string :=
  let b := "# SysProbe Report" +:+ nl in
  let b := b +:+ ("Time:" +:+ Time_Format "2006-01-02T15:04" (Generated r)
                  +:+ " Platform:" +:+ DistroID (Report_Platform r) +:+ nl) in
  foldl minifiedEntry b (Results r).

Definition GenerateMinified `{GoLib} `{Host} (r : MarkdownReport)
    : string * Z * option string :=
  let content := minifiedContent r in
  match NewTokenCounter with
  | Err _ => (content, (len content / 4)%Z, None)
  | Ok tc =>
      let tokenCount := Count tc content in
      (content, tokenCount, None)
  end.

Definition introEntry (b : string) (result : TaskResult) : string :=
  if negb (String.eqb (Category result) "intro") then b
  else if bool_decide (Status_ result = StatusSuccess)
          && negb (String.eqb (Output result) "")
  then
    let b := b +:+ ("## " +:+ Name result +:+ nl) in
    let b := b +:+ ("```" +:+ nl) in
    let b := b +:+ TrimSpace (Output result) in
    b +:+ (nl +:+ "```" +:+ nl +:+ nl)
  else b.

Definition introContent (r : MarkdownReport) : string :=
  let b := "# System Context" +:+ nl +:+ nl in
  let b := b +:+ ("Use this information to understand my environment when helping me."
                  +:+ nl +:+ nl) in
  foldl introEntry b (Results r).

Definition GenerateIntro `{Host} (r : MarkdownReport) : string * Z * option string :=
  let content := introContent r in
  match NewTokenCounter with
  | Err _ => (content, (len content / 4)%Z, None)
  | Ok tc =>
      let tokenCount := Count tc content in
      (content, tokenCount, None)
  end.

(** ** The command: the scheduler without the terminal UI

    [runWithoutUI] starts [workerCount] goroutines that receive indices
    from [taskChan], a channel buffered for [len(tasks)] indices, and
    store [runner.Run(tasks[idx])] at [results[idx]]; the main goroutine
    sends every index, closes the channel and waits for the workers.
    The goroutines are modelled by a step relation whose steps are the
    channel operations and the stores, interleaved in any order. *)

Inductive Worker :=
| WReceiving
| WRunning (idx : nat)
| WDone.

Global Instance Worker_eq_dec : EqDecision Worker.
Proof. solve_decision. Defined.

Inductive MainPc :=
| Feeding (i : nat)
| Waiting
| Returned.

Global Instance MainPc_eq_dec : EqDecision MainPc.
Proof. solve_decision. Defined.

Record Sched := {
  sched_results : list TaskResult;
  taskChan : list nat;
  workers : list Worker;
  main_pc : MainPc;
  stdout : list string;
  host_calls : list Event;
}.

Definition closed (s : Sched) : bool :=
  match main_pc s with Feeding _ => false | _ => true end.

Definition progressLine (result : TaskResult) : string :=
  let status := utf8_encode 10003 in
  let status :=
    if bool_decide (Status_ result = StatusFailed) then utf8_encode 10007
    else if bool_decide (Status_ result = StatusSkipped) then utf8_encode 8856
    else status in
  "  " +:+ status +:+ " " +:+ Name result +:+ nl.

Definition sched_init (tasks : list Task) (workerCount : Z) : Sched :=
  {| sched_results := replicate (length tasks) TaskResult_zero;
     taskChan := [];
     workers := replicate (Z.to_nat workerCount) WReceiving;
     main_pc := Feeding 0;
     stdout := ["Running " +:+ Itoa (Z.of_nat (length tasks))
                +:+ " diagnostic tasks..." +:+ nl];
     host_calls := [] |}.

Inductive sched_step `{GoLib} `{Host} (plat : Platform) (tasks : list Task)
    : Sched -> Sched -> Prop :=
| step_send s i :
    main_pc s = Feeding i ->
    i < length tasks ->
    length (taskChan s) < length tasks ->
    sched_step plat tasks s
      {| sched_results := sched_results s; taskChan := taskChan s ++ [i];
         workers := workers s; main_pc := Feeding (S i);
         stdout := stdout s; host_calls := host_calls s |}
| step_close s i :
    main_pc s = Feeding i ->
    length tasks <= i ->
    sched_step plat tasks s
      {| sched_results := sched_results s; taskChan := taskChan s;
         workers := workers s; main_pc := Waiting;
         stdout := stdout s; host_calls := host_calls s |}
| step_receive s w idx rest :
    workers s !! w = Some WReceiving ->
    taskChan s = idx :: rest ->
    sched_step plat tasks s
      {| sched_results := sched_results s; taskChan := rest;
         workers := <[w := WRunning idx]> (workers s); main_pc := main_pc s;
         stdout := stdout s; host_calls := host_calls s |}
| step_run s w idx task result calls :
    workers s !! w = Some (WRunning idx) ->
    tasks !! idx = Some task ->
    Run (NewRunner plat) task (host_calls s) = (result, calls) ->
    sched_step plat tasks s
      {| sched_results := <[idx := result]> (sched_results s);
         taskChan := taskChan s;
         workers := <[w := WReceiving]> (workers s); main_pc := main_pc s;
         stdout := stdout s ++ [progressLine result]; host_calls := calls |}
| step_exit s w :
    workers s !! w = Some WReceiving ->
    taskChan s = [] ->
    closed s = true ->
    sched_step plat tasks s
      {| sched_results := sched_results s; taskChan := taskChan s;
         workers := <[w := WDone]> (workers s); main_pc := main_pc s;
         stdout := stdout s; host_calls := host_calls s |}
| step_return s :
    main_pc s = Waiting ->
    Forall (fun w => w = WDone) (workers s) ->
    sched_step plat tasks s
      {| sched_results := sched_results s; taskChan := taskChan s;
         workers := workers s; main_pc := Returned;
         stdout := stdout s; host_calls := host_calls s |}.

(** The states an execution of [runWithoutUI] goes through. *)
Inductive sched_reachable `{GoLib} `{Host} (plat : Platform) (tasks : list Task)
    (workerCount : Z) : Sched -> Prop :=
| reach_init : sched_reachable plat tasks workerCount (sched_init tasks workerCount)
| reach_step s s' :
    sched_reachable plat tasks workerCount s ->
    sched_step plat tasks s s' ->
    sched_reachable plat tasks workerCount s'.

(** [runWithoutUI plat tasks workerCount] can return [results]. *)
Definition runWithoutUI `{GoLib} `{Host} (plat : Platform) (tasks : list Task)
    (workerCount : Z) (results : list TaskResult) : Prop :=
  exists s, sched_reachable plat tasks workerCount s
            /\ main_pc s = Returned /\ sched_results s = results.

Definition worker_weight (w : Worker) : nat :=
  match w with
  | WReceiving => 1
  | WRunning _ => 2
  | WDone => 0
  end.

(** The steps an execution has left at most. *)
Definition sched_measure (tasks : list Task) (s : Sched) : nat :=
  match main_pc s with
  | Feeding i => 3 * (length tasks - i) + 2
  | Waiting => 1
  | Returned => 0
  end
  + 2 * length (taskChan s)
  + sum_list_with worker_weight (workers s).

(** The indices sent so far. *)
Definition fed (tasks : list Task) (s : Sched) : nat :=
  match main_pc s with
  | Feeding i => i
  | _ => length tasks
  end.

(** What [runner.Run] returns for a task. *)
Definition expected `{GoLib} `{Host} (plat : Platform) (task : Task) : TaskResult :=
  (Run (NewRunner plat) task []).1.

(** What holds of every state of an execution: every index is still to
    be sent, or in the channel, or with a worker, or its result is
    stored where it belongs. *)
Record sched_inv `{GoLib} `{Host} (plat : Platform) (tasks : list Task)
    (workerCount : Z) (s : Sched) : Prop := {
  inv_results_len : length (sched_results s) = length tasks;
  inv_workers_len : length (workers s) = Z.to_nat workerCount;
  inv_fed : fed tasks s <= length tasks;
  inv_chan_len : length (taskChan s) <= fed tasks s;
  inv_chan_range : Forall (fun idx => idx < length tasks) (taskChan s);
  inv_running_range :
    forall w idx, workers s !! w = Some (WRunning idx) -> idx < length tasks;
  inv_done :
    forall w, workers s !! w = Some WDone -> taskChan s = [] /\ closed s = true;
  inv_returned :
    main_pc s = Returned -> Forall (fun w => w = WDone) (workers s);
  inv_index :
    forall i task, tasks !! i = Some task ->
      fed tasks s <= i \/ i ∈ taskChan s
      \/ (exists w, workers s !! w = Some (WRunning i))
      \/ sched_results s !! i = Some (expected plat task);
  inv_idle :
    workers s = [] -> sched_results s = replicate (length tasks) TaskResult_zero;
}.

(** What the first loop of [groupByCategory] has built after the
    results [rs]. *)
Definition grouped `{GoLib} (rs : list TaskResult)
    (acc : gmap string (list TaskResult) * list string) : Prop :=
  (forall name, default [] (acc.1 !! name)
                = filter (fun res => categoryLabel res = name) rs)
  /\ (forall name, is_Some (acc.1 !! name) <-> name ∈ acc.2)
  /\ (forall name, name ∈ acc.2 <-> name ∈ categoryLabel <$> rs)
  /\ NoDup acc.2.

(** ** Instances for the examples

    The library functions on ASCII text, where they need no table: a
    byte outside ASCII is kept and counts as a letter.  The duration is
    printed as [time.Duration.String] prints a whole number of seconds
    below a minute, and every instant is printed as the reference time
    of the layouts. *)

Definition ascii_lower (c : ascii) : ascii :=
  let n := Z_of_byte c in
  if ((65 <=? n) && (n <=? 90))%Z then byte_of_Z (n + 32) else c.

Definition ascii_upper (c : ascii) : ascii :=
  let n := Z_of_byte c in
  if ((97 <=? n) && (n <=? 122))%Z then byte_of_Z (n - 32) else c.

Fixpoint map_bytes (f : ascii -> ascii) (s : string) : string :=
  match s with
  | "" => ""
  | String c s' => String (f c) (map_bytes f s')
  end.

Definition isSeparator_ascii (c : ascii) : bool :=
  let n := Z_of_byte c in
  negb ((48 <=? n) && (n <=? 57) || (97 <=? n) && (n <=? 122)
        || (65 <=? n) && (n <=? 90) || (n =? 95) || (128 <=? n))%Z.

Fixpoint Title_ascii_go (prev : ascii) (s : string) : string :=
  match s with
  | "" => ""
  | String c s' =>
      String (if isSeparator_ascii prev then ascii_upper c else c)
             (Title_ascii_go c s')
  end.

Definition ascii_GoLib : GoLib :=
  {| ToLower := map_bytes ascii_lower;
     Title := Title_ascii_go " ";
     Duration_String := fun d => Itoa (d / 1000000000) +:+ "s";
     Time_Format := fun layout _ =>
       if String.eqb layout RFC3339 then "2006-01-02T15:04:05Z" else layout |}.

(** A machine with [sh] and [uname] on its path, where every command
    prints a line and leaves in a millisecond, and no tokenizer. *)
Definition quick_Host : Host :=
  {| LookPath := fun name => String.eqb name "sh" || String.eqb name "uname";
     sh := fun command _ =>
       {| out_stdout := "Linux 6.1" +:+ nl; out_stderr := "";
          out_err := None; out_deadline := false; out_elapsed := 1000000 |};
     tokenizer_Get := Err "tokenizer unavailable" |}.

(** The same machine when every command runs into the deadline after
    printing on both streams. *)
Definition slow_Host : Host :=
  {| LookPath := fun name => String.eqb name "sh" || String.eqb name "uname";
     sh := fun command timeout =>
       {| out_stdout := "partial output" +:+ nl;
          out_stderr := "partial diagnostics" +:+ nl;
          out_err := Some "signal: killed"; out_deadline := true;
          out_elapsed := timeout |};
     tokenizer_Get := Err "tokenizer unavailable" |}.

Definition user_Platform : Platform :=
  {| OS := "linux"; Distro := "arch"; DistroID := "arch_linux";
     WM := "hyprland"; IsRoot := false; IsWayland := true |}.

Definition root_Platform : Platform :=
  {| OS := "linux"; Distro := "arch"; DistroID := "arch_linux";
     WM := "hyprland"; IsRoot := true; IsWayland := true |}.

Definition plain_Task (name command category : string) : Task :=
  {| Task_Name := name; Task_Command := command; Task_Privilege := "";
     Task_MaxLines := 0; Task_MaxBytes := 0; Task_Requires := [];
     Task_Tags := []; Task_Category := category |}.

Definition sudo_Task : Task :=
  {| Task_Name := "dmesg"; Task_Command := "dmesg | tail"; Task_Privilege := "sudo";
     Task_MaxLines := 0; Task_MaxBytes := 0; Task_Requires := ["sh"; "dmesg"];
     Task_Tags := ["wayland"]; Task_Category := "system" |}.

(** Whether [LoadAll] loads the entry as a profile. *)
Definition isProfileFile (e : WalkEntry) : bool :=
  negb (we_isDir e || negb (HasSuffix (we_path e) ".yaml")).

Definition inner_Profile : Profile :=
  {| Profile_Name := "inner"; Profile_Description := "";
     Profile_Platform := "ch_li";
     Profile_Tasks := [plain_Task "kernel" "uname -a" ""] |}.

Definition inner_Entry : WalkEntry :=
  {| we_path := "probes/inner.yaml"; we_err := None; we_isDir := false;
     we_parsed := Ok inner_Profile |}.

(** The texts of a list, one after the other. *)
Definition concat_strings (l : list string) : string :=
  foldr String.append "" l.

Definition success_result (name category output : string) : TaskResult :=
  {| Name := name; Command := "ip a"; Category := category;
     Status_ := StatusSuccess; Output := output; Error := "";
     Duration := 1000000; SkipReason := "" |}.

Definition report_of (results : list TaskResult) : MarkdownReport :=
  {| Report_Platform := user_Platform; Results := results; Generated := 0 |}.

(** [n] lines [x]. *)
Definition lines_of (n : nat) : string := Join (replicate n "x") nl.

(** ** More of the Go runtime *)

(** [strings.Trim(s, cutset)] for a cutset of ASCII bytes: the bytes of
    the cutset are removed from the end and then from the start. *)
Definition inCutset (c : ascii) (cutset : string) : bool :=
  bool_decide (c ∈ String.list_ascii_of_string cutset).

Fixpoint trimLeftASCII (s cutset : string) : string :=
  match s with
  | "" => ""
  | String c s' => if inCutset c cutset then trimLeftASCII s' cutset else s
  end.

Definition trimRightASCII (s cutset : string) : string :=
  String.rev (trimLeftASCII (String.rev s) cutset).

Definition Trim (s cutset : string) : string :=
  trimLeftASCII (trimRightASCII s cutset) cutset.

(** [strings.SplitN(s, sep, 2)] for a separator of one byte: the text
    before the first separator and the text after it, or the text
    alone when it has no separator. *)
Fixpoint cut (s : string) (sep : ascii) : option (string * string) :=
  match s with
  | "" => None
  | String c s' =>
      if Ascii.eqb c sep then Some ("", s')
      else match cut s' sep with
           | Some (before, after) => Some (String c before, after)
           | None => None
           end
  end.

Definition SplitN2 (s : string) (sep : ascii) : list string :=
  match cut s sep with
  | Some (before, after) => [before; after]
  | None => [s]
  end.

(** The two quote characters, the cutset of [parseOSRelease]. *)
Definition quotes : string := String "034"%char (String "039"%char "").

(** What the program reads of its environment besides the host of the
    runner: [runtime.GOOS], [os.Geteuid()], [os.Getenv],
    [os.UserHomeDir()], and [/etc/os-release]: the error of [os.Open],
    or the lines the scanner yields with the error of the scanner. *)
Class Env := {
  GOOS : string;
  Geteuid : Z;
  Getenv : string -> string;
  UserHomeDir : result string;
  os_release : result (list string * option string);
}.

(** ** internal/platform: detection *)

(** The body of the loop of [parseOSRelease]. *)
Definition parseOSRelease_line (result : gmap string string) (line : string)
    : gmap string string :=
  if HasPrefix line "#" || negb (Contains line "=") then result
  else
    match SplitN2 line "="%char with
    | [key; rest] =>
        let value := Trim rest quotes in
        <[key := value]> result
    | _ => result
    end.

(** [parseOSRelease]: the map, empty for [nil], and the error. *)
Definition parseOSRelease `{Env} : gmap string string * option string :=
  match os_release with
  | Err err => (∅, Some err)
  | Ok (lines, scanErr) => (foldl parseOSRelease_line ∅ lines, scanErr)
  end.

Definition detectWM `{GoLib} `{Env} : string :=
  if negb (String.eqb (Getenv "XDG_CURRENT_DESKTOP") "")
  then ToLower (Getenv "XDG_CURRENT_DESKTOP")
  else if negb (String.eqb (Getenv "XDG_SESSION_DESKTOP") "")
  then ToLower (Getenv "XDG_SESSION_DESKTOP")
  else if negb (String.eqb (Getenv "DESKTOP_SESSION") "")
  then ToLower (Getenv "DESKTOP_SESSION")
  else if negb (String.eqb (Getenv "HYPRLAND_INSTANCE_SIGNATURE") "") then "hyprland"
  else if negb (String.eqb (Getenv "SWAYSOCK") "") then "sway"
  else "".

Definition Detect `{GoLib} `{Env} : Platform :=
  let '(distro, distroID) :=
    match parseOSRelease with
    | (osRelease, None) =>
        let distro := default "" (osRelease !! "ID") in
        let distroID := default "" (osRelease !! "ID") in
        let distro :=
          match osRelease !! "ID_LIKE" with
          | Some idLike => if String.eqb distro "" then idLike else distro
          | None => distro
          end in
        (distro, distroID)
    | (_, Some _) => ("", "")
    end in
  let distroID :=
    if negb (String.eqb distroID "") then ToLower distroID +:+ "_linux"
    else distroID in
  {| OS := GOOS; Distro := distro; DistroID := distroID; WM := detectWM;
     IsRoot := (Geteuid =? 0)%Z;
     IsWayland := negb (String.eqb (Getenv "WAYLAND_DISPLAY") "") |}.

(** ** internal/probe: helpers *)

Definition CheckBinary `{Host} (name : string) : M bool :=
  lookPath name.

Definition ExpandHome `{Env} (path : string) : string :=
  if HasPrefix path "~/" then
    match UserHomeDir with
    | Ok home => home +:+ slice_from 1 path
    | Err _ => path
    end
  else path.

(** An environment for the examples: FreeBSD with an os-release file,
    a Hyprland session that sets no desktop variable. *)
Definition example_getenv (name : string) : string :=
  if String.eqb name "WAYLAND_DISPLAY" then "wayland-1"
  else if String.eqb name "HYPRLAND_INSTANCE_SIGNATURE" then "a1b2"
  else "".

Definition freebsd_Env : Env :=
  {| GOOS := "freebsd"; Geteuid := 1000; Getenv := example_getenv;
     UserHomeDir := Ok "/home/me";
     os_release := Ok (["# os-release"; "NAME=FreeBSD";
                        "ID=" +:+ quotes +:+ "FreeBSD" +:+ quotes;
                        "not an assignment"; "ID=freebsd"], None) |}.

(** A Linux machine with no os-release file and no session. *)
Definition bare_Env : Env :=
  {| GOOS := "linux"; Geteuid := 0; Getenv := fun _ => "";
     UserHomeDir := Err "$HOME is not defined";
     os_release := Err "open /etc/os-release: no such file or directory" |}.

(** ** More on the report *)

(** The results the compact reports show. *)
Definition shown (result : TaskResult) : Prop :=
  Status_ result = StatusSuccess /\ Output result <> "".

Local Instance shown_dec (result : TaskResult) : Decision (shown result).
Proof. unfold shown. apply _. Defined.

(** ** What the scheduler prints *)

(** The indices the workers are running. *)
Definition running (ws : list Worker) : list nat :=
  omap (fun w => match w with WRunning idx => Some idx | _ => None end) ws.

(** The first line [runWithoutUI] prints. *)
Definition runningLine (tasks : list Task) : string :=
  "Running " +:+ Itoa (Z.of_nat (length tasks)) +:+ " diagnostic tasks..." +:+ nl.

(** The command [runner.Run] starts for a task: none when the task
    cannot run. *)
Definition started `{GoLib} `{Host} (plat : Platform) (task : Task) : list string :=
  if (CanRun (NewRunner plat) task []).1.1 then [Task_Command task] else [].

(** Every index is in one place: completed (in the order of [done]),
    with a worker, in the channel or still to be sent; one line has been
    printed for each completed index, and the commands started are
    those of the completed indices. *)
Definition stdout_inv `{GoLib} `{Host} (plat : Platform) (tasks : list Task)
    (s : Sched) (done : list nat) : Prop :=
  stdout s
  = runningLine tasks
    :: omap (fun idx => progressLine ∘ expected plat <$> tasks !! idx) done
  /\ done ++ running (workers s) ++ taskChan s
          ++ seq (fed tasks s) (length tasks - fed tasks s)
     ≡ₚ seq 0 (length tasks)
  /\ (workers s = [] -> done = [])
  /\ spawned (host_calls s)
     = mjoin (omap (fun idx => started plat <$> tasks !! idx) done).

(** A state in which [runWithoutUI] has returned: one task, one worker. *)
Definition returned_Sched : Sched :=
  let task := plain_Task "kernel" "uname -a" "system" in
  let run := Run (H := ascii_GoLib) (H0 := quick_Host) (NewRunner user_Platform) task [] in
  {| sched_results := [run.1]; taskChan := []; workers := [WDone];
     main_pc := Returned;
     stdout := [runningLine [task]; progressLine run.1];
     host_calls := run.2 |}.

(** ** The command: [main]

    [main] reads its flags, detects the platform, loads the tasks of
    the embedded profiles, and either runs them with [runWithoutUI],
    renders the report and writes it, or hands over to [runWithUI]. *)

Inductive ReportMode :=
| ReportFull
| ReportMinified
| ReportIntro.

Global Instance ReportMode_eq_dec : EqDecision ReportMode.
Proof. solve_decision. Defined.

Definition version : string := "dev".

(** The flags after [flag.Parse()]. *)
Module flag.
Record Flags := {
  outputFile : string;
  noUI : bool;
  minified : bool;
  intro : bool;
  showVersion : bool;
  workers : Z;
}.

(** The values of the flags when the command line gives none. *)
Definition defaults : Flags :=
  {| outputFile := "sysprobe-report.md"; noUI := false; minified := false;
     intro := false; showVersion := false; workers := 4 |}.
End flag.

(** What the command needs of its process: [os.WriteFile(name, data,
    0644)], which gives its error if any when it returns; [time.Now()];
    whether [cmd.Run()] returns for the command line given to [sh -c];
    and whether [os.WriteFile] returns for a path.  [cmd.Run] waits for
    the shell and then for the copying of its output, which lasts as
    long as some process holds the pipes: it can return long after the
    deadline, or never.  [os.WriteFile] opens the file, which cuts it to
    nothing, and then writes: opening a named pipe waits for a reader.
    The other calls the command makes (printing, [p.Send], looking up a
    binary, reading [/etc/os-release]) are taken to return. *)
Class World := {
  WriteFile : string -> string -> option string;
  time_Now : Z;
  cmd_Run_returns : string -> Prop;
  WriteFile_returns : string -> Prop;
}.

(** [runner.Run(task)] returns: at once for a task that cannot run, and
    when [cmd.Run] returns for a task that can. *)
Definition returns `{GoLib} `{Host} `{World} (plat : Platform) (task : Task) : Prop :=
  (CanRun (NewRunner plat) task []).1.1 = true -> cmd_Run_returns (Task_Command task).

(** A step of the goroutines of [runWithoutUI] in which a worker leaves
    [runner.Run] is taken only when that call returns. *)
Definition sched_step_returning `{GoLib} `{Host} `{World} (plat : Platform)
    (tasks : list Task) (s s' : Sched) : Prop :=
  sched_step plat tasks s s'
  /\ forall w idx task,
       workers s !! w = Some (WRunning idx) ->
       workers s' !! w = Some WReceiving ->
       tasks !! idx = Some task ->
       returns plat task.

(** The states an execution of [runWithoutUI] goes through when the
    calls of [runner.Run] return or not as the commands have it. *)
Inductive sched_run `{GoLib} `{Host} `{World} (plat : Platform) (tasks : list Task)
    (workerCount : Z) : Sched -> Prop :=
| run_init : sched_run plat tasks workerCount (sched_init tasks workerCount)
| run_step s s' :
    sched_run plat tasks workerCount s ->
    sched_step_returning plat tasks s s' ->
    sched_run plat tasks workerCount s'.

(** Every execution that goes on from [s] comes to the return of
    [runWithoutUI]: until then a step can be taken, and whatever steps
    are taken the return comes after finitely many of them. *)
Inductive sched_ends `{GoLib} `{Host} `{World} (plat : Platform) (tasks : list Task)
    : Sched -> Prop :=
| ends_returned s : main_pc s = Returned -> sched_ends plat tasks s
| ends_step s :
    (exists s', sched_step_returning plat tasks s s') ->
    (forall s', sched_step_returning plat tasks s s' -> sched_ends plat tasks s') ->
    sched_ends plat tasks s.

Definition NewMarkdownReport `{World} (p : Platform) (results : list TaskResult)
    : MarkdownReport :=
  {| Report_Platform := p; Results := results; Generated := time_Now |}.

(** What can be seen of a run of [main] that ends: the exit status (0
    when [main] returns), what was printed on the standard output and
    on the standard error, the calls of [os.WriteFile] with the path
    and the data, and the command lines started with [sh -c]. *)
Record Ending := {
  Ending_code : Z;
  Ending_stdout : string;
  Ending_stderr : string;
  Ending_writes : list (string * string);
  Ending_spawned : list string;
}.

(** How [main] ends. *)
Inductive Outcome :=
| Ended (e : Ending)
(** [runWithUI(plat, tasks, workerCount, outputFile, mode)] is called,
    nothing having been printed, written or started before. *)
| WithUI (tasks : list Task) (workerCount : Z) (outputFile : string)
    (mode : ReportMode).

(** [os.Exit(code)] after printing [out] on the standard output and
    [err] on the standard error, before any file is written and any
    command started. *)
Definition Exit (code : Z) (out err : string) : Outcome :=
  Ended {| Ending_code := code; Ending_stdout := out; Ending_stderr := err;
           Ending_writes := []; Ending_spawned := [] |}.

(** The last line [main] prints. *)
Definition savedLine (outputFile : string) (tokenCount : Z) : string :=
  nl +:+ utf8_encode 10003 +:+ " Report saved to: " +:+ outputFile
  +:+ " (" +:+ Itoa tokenCount +:+ " tokens)" +:+ nl.

(** The [switch mode] of [main] and of [runWithUI]. *)
Definition generateFor `{GoLib} `{Host} (mode : ReportMode) (rep : MarkdownReport)
    : string * Z * option string :=
  match mode with
  | ReportIntro => GenerateIntro rep
  | ReportMinified => GenerateMinified rep
  | ReportFull => Generate rep
  end.

(** [main ProbeFS f o]: with the embedded files [ProbeFS] and the flags
    [f], [main] can end as [o].  Without the UI it ends when
    [runWithoutUI] and then [os.WriteFile] have returned, if they
    do. *)
Definition main `{GoLib} `{Host} `{Env} `{World} (ProbeFS : list WalkEntry)
    (f : flag.Flags) (o : Outcome) : Prop :=
  if flag.showVersion f then o = Exit 0 ("sysprobe " +:+ version +:+ nl) ""
  else
    let mode := ReportFull in
    let mode :=
      if flag.intro f then ReportIntro
      else if flag.minified f then ReportMinified
      else mode in
    let plat := Detect in
    let loader := NewLoader ProbeFS plat in
    match GetAllTasks loader with
    | Err err => o = Exit 1 "" ("Error loading probes: " +:+ err +:+ nl)
    | Ok tasks =>
        let '(tasks, outputFile) :=
          if bool_decide (mode = ReportIntro) then
            let introTasks := filter (fun t => Task_Category t = "intro") tasks in
            (introTasks,
             if String.eqb (flag.outputFile f) "sysprobe-report.md"
             then "sysprobe-intro.md" else flag.outputFile f)
          else (tasks, flag.outputFile f) in
        if bool_decide (length tasks = 0) then
          o = Exit 1 "" ("No tasks found for this platform" +:+ nl)
        else if flag.noUI f then
          exists s,
            sched_run plat tasks (flag.workers f) s
            /\ main_pc s = Returned
            /\ let results := sched_results s in
               let printed := concat_strings (stdout s) in
               let commands := spawned (host_calls s) in
               let rep := NewMarkdownReport plat results in
               let '(content, tokenCount, err) := generateFor mode rep in
               match err with
               | Some err =>
                   o = Ended {| Ending_code := 1; Ending_stdout := printed;
                                Ending_stderr :=
                                  "Error generating report: " +:+ err +:+ nl;
                                Ending_writes := [];
                                Ending_spawned := commands |}
               | None =>
                   WriteFile_returns outputFile
                   /\ match WriteFile outputFile content with
                   | Some err =>
                       o = Ended {| Ending_code := 1; Ending_stdout := printed;
                                    Ending_stderr :=
                                      "Error writing report: " +:+ err +:+ nl;
                                    Ending_writes := [(outputFile, content)];
                                    Ending_spawned := commands |}
                   | None =>
                       o = Ended {| Ending_code := 0;
                                    Ending_stdout :=
                                      printed +:+ savedLine outputFile tokenCount;
                                    Ending_stderr := "";
                                    Ending_writes := [(outputFile, content)];
                                    Ending_spawned := commands |}
                   end
               end
        else o = WithUI tasks (flag.workers f) outputFile mode
    end.

(** A profile for every platform, with a task for the introduction. *)
Definition generic_Entry : WalkEntry :=
  {| we_path := "probes/generic.yaml"; we_err := None; we_isDir := false;
     we_parsed :=
       Ok {| Profile_Name := "generic"; Profile_Description := "";
             Profile_Platform := "";
             Profile_Tasks := [plain_Task "kernel" "uname -a" "";
                               plain_Task "host" "uname -n" "intro"] |} |}.

Definition writable_World : World :=
  {| WriteFile := fun _ _ => None; time_Now := 0;
     cmd_Run_returns := fun _ => True; WriteFile_returns := fun _ => True |}.

(** ** internal/ui: the model of the terminal UI

    The messages the program delivers to [Update], the commands
    [Update] returns, and the model.  A key message is given by its
    [String()]; [OtherMsg] stands for the messages of types that
    [Update] has no case for.  [Update] returns [None] where the Go code
    stops with a run-time panic (an index out of range). *)

Module ui.

Inductive Msg :=
| KeyMsg (key : string)
| WindowSizeMsg (Width Height : Z)
| TickMsg (t : Z)
| TaskStartMsg (Name : string)
| TaskDoneMsg (Result : TaskResult)
| AllDoneMsg (Results : list TaskResult)
| ReportDoneMsg (ReportPath : string) (TokenCount : Z)
| OtherMsg.

Inductive Cmd :=
| Nil
| Quit
| tickCmd.

Record Model := {
  tasks : list TaskResult;
  taskIndex : gmap string nat;
  completed : Z;
  total : Z;
  startTime : Z;
  quitting : bool;
  done : bool;
  waitingInput : bool;
  err : option string;
  width : Z;
  spinnerIdx : Z;
  reportPath : string;
  tokenCount : Z;
}.

(** [len(SpinnerFrames)]. *)
Definition SpinnerFrames_len : Z := 10.

(** Assignments to the fields of a model. *)
Definition set_tasks (m : Model) (v : list TaskResult) : Model :=
  {| tasks := v; taskIndex := taskIndex m; completed := completed m;
     total := total m; startTime := startTime m; quitting := quitting m;
     done := done m; waitingInput := waitingInput m; err := err m;
     width := width m; spinnerIdx := spinnerIdx m; reportPath := reportPath m;
     tokenCount := tokenCount m |}.

Definition set_completed (m : Model) (v : Z) : Model :=
  {| tasks := tasks m; taskIndex := taskIndex m; completed := v;
     total := total m; startTime := startTime m; quitting := quitting m;
     done := done m; waitingInput := waitingInput m; err := err m;
     width := width m; spinnerIdx := spinnerIdx m; reportPath := reportPath m;
     tokenCount := tokenCount m |}.

Definition set_quitting (m : Model) (v : bool) : Model :=
  {| tasks := tasks m; taskIndex := taskIndex m; completed := completed m;
     total := total m; startTime := startTime m; quitting := v;
     done := done m; waitingInput := waitingInput m; err := err m;
     width := width m; spinnerIdx := spinnerIdx m; reportPath := reportPath m;
     tokenCount := tokenCount m |}.

Definition set_done (m : Model) (v : bool) : Model :=
  {| tasks := tasks m; taskIndex := taskIndex m; completed := completed m;
     total := total m; startTime := startTime m; quitting := quitting m;
     done := v; waitingInput := waitingInput m; err := err m;
     width := width m; spinnerIdx := spinnerIdx m; reportPath := reportPath m;
     tokenCount := tokenCount m |}.

Definition set_width (m : Model) (v : Z) : Model :=
  {| tasks := tasks m; taskIndex := taskIndex m; completed := completed m;
     total := total m; startTime := startTime m; quitting := quitting m;
     done := done m; waitingInput := waitingInput m; err := err m;
     width := v; spinnerIdx := spinnerIdx m; reportPath := reportPath m;
     tokenCount := tokenCount m |}.

Definition set_spinnerIdx (m : Model) (v : Z) : Model :=
  {| tasks := tasks m; taskIndex := taskIndex m; completed := completed m;
     total := total m; startTime := startTime m; quitting := quitting m;
     done := done m; waitingInput := waitingInput m; err := err m;
     width := width m; spinnerIdx := v; reportPath := reportPath m;
     tokenCount := tokenCount m |}.

(** [m.reportPath = path; m.tokenCount = count; m.waitingInput = true]. *)
Definition set_report (m : Model) (path : string) (count : Z) : Model :=
  {| tasks := tasks m; taskIndex := taskIndex m; completed := completed m;
     total := total m; startTime := startTime m; quitting := quitting m;
     done := done m; waitingInput := true; err := err m;
     width := width m; spinnerIdx := spinnerIdx m; reportPath := path;
     tokenCount := count |}.

Definition pendingRow (name : string) : TaskResult :=
  {| Name := name; Command := ""; Category := ""; Status_ := StatusPending;
     Output := ""; Error := ""; Duration := 0; SkipReason := "" |}.

(** The map the loop of [NewModel] builds from position [i] on. *)
Fixpoint indexNames (i : nat) (taskNames : list string) (taskIndex : gmap string nat)
    : gmap string nat :=
  match taskNames with
  | [] => taskIndex
  | name :: rest => indexNames (S i) rest (<[name := i]> taskIndex)
  end.

Definition NewModel `{World} (taskNames : list string) : Model :=
  {| tasks := pendingRow <$> taskNames;
     taskIndex := indexNames 0 taskNames ∅;
     completed := 0;
     total := Z.of_nat (length taskNames);
     startTime := time_Now;
     quitting := false; done := false; waitingInput := false; err := None;
     width := 80; spinnerIdx := 0; reportPath := ""; tokenCount := 0 |}.

(** [m.tasks[idx].Status = probe.StatusRunning]. *)
Definition startRow (rows : list TaskResult) (idx : nat) : option (list TaskResult) :=
  match rows !! idx with
  | Some row =>
      Some (<[idx := {| Name := Name row; Command := Command row;
                        Category := Category row; Status_ := StatusRunning;
                        Output := Output row; Error := Error row;
                        Duration := Duration row;
                        SkipReason := SkipReason row |}]> rows)
  | None => None
  end.

(** [m.tasks[idx] = result]. *)
Definition storeRow (rows : list TaskResult) (idx : nat) (result : TaskResult)
    : option (list TaskResult) :=
  if bool_decide (idx < length rows) then Some (<[idx := result]> rows) else None.

(** The loop of the [AllDoneMsg] case. *)
Fixpoint storeAll (taskIndex : gmap string nat) (rows : list TaskResult)
    (results : list TaskResult) : option (list TaskResult) :=
  match results with
  | [] => Some rows
  | result :: rest =>
      match taskIndex !! Name result with
      | Some idx =>
          match storeRow rows idx result with
          | Some rows => storeAll taskIndex rows rest
          | None => None
          end
      | None => storeAll taskIndex rows rest
      end
  end.

Definition Update (m : Model) (msg : Msg) : option (Model * Cmd) :=
  match msg with
  | KeyMsg key =>
      if String.eqb key "ctrl+c" || String.eqb key "q" then
        Some (set_quitting m true, Quit)
      else if String.eqb key "enter" || String.eqb key " " then
        if waitingInput m then Some (m, Quit) else Some (m, Nil)
      else Some (m, Nil)
  | WindowSizeMsg Width _ => Some (set_width m Width, Nil)
  | TickMsg _ =>
      let m := set_spinnerIdx m (Z.rem (spinnerIdx m + 1) SpinnerFrames_len) in
      if negb (done m) then Some (m, tickCmd) else Some (m, Nil)
  | TaskStartMsg Name =>
      match taskIndex m !! Name with
      | Some idx =>
          match startRow (tasks m) idx with
          | Some rows => Some (set_tasks m rows, Nil)
          | None => None
          end
      | None => Some (m, Nil)
      end
  | TaskDoneMsg Result =>
      match taskIndex m !! Name Result with
      | Some idx =>
          match storeRow (tasks m) idx Result with
          | Some rows => Some (set_completed (set_tasks m rows) (completed m + 1), Nil)
          | None => None
          end
      | None => Some (m, Nil)
      end
  | AllDoneMsg Results =>
      let m := set_done m true in
      match storeAll (taskIndex m) (tasks m) Results with
      | Some rows => Some (set_tasks m rows, Nil)
      | None => None
      end
  | ReportDoneMsg ReportPath TokenCount =>
      Some (set_report m ReportPath TokenCount, Nil)
  | OtherMsg => Some (m, Nil)
  end.

(** The model after the program has delivered the messages [msgs], one
    after the other, each to the model [Update] returned for the one
    before. *)
Fixpoint Updates (m : Model) (msgs : list Msg) : option Model :=
  match msgs with
  | [] => Some m
  | msg :: rest =>
      match Update m msg with
      | Some (m, _) => Updates m rest
      | None => None
      end
  end.




(** The rows [renderTable] shows, and the number it says are above. *)
Definition visibleRows (m : Model) : list TaskResult * nat :=
  let startIdx := 0 in
  let startIdx :=
    if bool_decide (15 < length (tasks m)) then length (tasks m) - 15 else startIdx in
  (drop startIdx (tasks m), startIdx).

(** The name [renderTaskRow] shows. *)
Definition rowName (task : TaskResult) : string :=
  let name := Name task in
  if (len name >? 38)%Z then slice_to 35 name +:+ "..." else name.

End ui.

(** *** What the rows of the UI show *)

(** The row of the task [name] after a result has been reported. *)
Definition rowStore (name : string) (row result : TaskResult) : TaskResult :=
  if String.eqb (Name result) name then result else row.

(** The row of the task [name] after a message. *)
Definition rowUpdate (name : string) (row : TaskResult) (msg : ui.Msg) : TaskResult :=
  match msg with
  | ui.TaskStartMsg n =>
      if String.eqb n name then
        {| Name := Name row; Command := Command row; Category := Category row;
           Status_ := StatusRunning; Output := Output row; Error := Error row;
           Duration := Duration row; SkipReason := SkipReason row |}
      else row
  | ui.TaskDoneMsg result => rowStore name row result
  | ui.AllDoneMsg results => foldl (rowStore name) row results
  | _ => row
  end.

Definition isTick (msg : ui.Msg) : bool :=
  match msg with ui.TickMsg _ => true | _ => false end.

Definition isAllDone (msg : ui.Msg) : bool :=
  match msg with ui.AllDoneMsg _ => true | _ => false end.

Definition isReportDone (msg : ui.Msg) : bool :=
  match msg with ui.ReportDoneMsg _ _ => true | _ => false end.

(** The name of the task a [TaskDoneMsg] is about. *)
Definition doneName (msg : ui.Msg) : option string :=
  match msg with ui.TaskDoneMsg result => Some (Name result) | _ => None end.

(** The command [Update] returns for a message. *)
Definition cmdOf (waitingInput done : bool) (msg : ui.Msg) : ui.Cmd :=
  match msg with
  | ui.KeyMsg key =>
      if String.eqb key "ctrl+c" || String.eqb key "q" then ui.Quit
      else if (String.eqb key "enter" || String.eqb key " ") && waitingInput
      then ui.Quit else ui.Nil
  | ui.TickMsg _ => if done then ui.Nil else ui.tickCmd
  | _ => ui.Nil
  end.

(** ** The command: the scheduler with the terminal UI

    [runWithUI] starts the workers, which receive tasks from [taskChan],
    tell the program that the task starts, run it, send the result to
    [resultsChan] and tell the program that the task is done; a
    goroutine that sends the tasks and closes [taskChan]; a goroutine
    that waits for the workers and closes [resultsChan]; and a
    goroutine that collects the results, tells the program that all is
    done, renders the report, writes it and tells the program so.  Both
    channels are buffered for [len(tasks)] values.  The calls of
    [p.Send] are recorded in the order in which they are made.  The
    goroutines are modelled by a step relation, as for [runWithoutUI];
    the main goroutine runs the program of the UI, and the process ends
    when it returns, in whatever state the others are. *)

Inductive UIWorker :=
| UReceiving
| UStarting (task : Task)
| URunning (task : Task)
| USending (result : TaskResult)
| UNotifying (result : TaskResult)
| UDone.

Inductive FeederPc :=
| UFeeding (i : nat)
| UFed.

Inductive CollectorPc :=
| Collecting
| Reporting
| Writing (tokenCount : Z)
| Notifying (tokenCount : Z)
| Finished.

Global Instance CollectorPc_eq_dec : EqDecision CollectorPc.
Proof. solve_decision. Defined.

Record UISched := {
  ui_taskChan : list Task;
  ui_feeder : FeederPc;
  ui_workers : list UIWorker;
  ui_resultsChan : list TaskResult;
  ui_resultsClosed : bool;
  ui_results : list TaskResult;
  ui_collector : CollectorPc;
  ui_sent : list ui.Msg;
  ui_writes : list (string * string);
  ui_host_calls : list Event;
}.

Definition uisched_init (workerCount : Z) : UISched :=
  {| ui_taskChan := []; ui_feeder := UFeeding 0;
     ui_workers := replicate (Z.to_nat workerCount) UReceiving;
     ui_resultsChan := []; ui_resultsClosed := false; ui_results := [];
     ui_collector := Collecting; ui_sent := []; ui_writes := [];
     ui_host_calls := [] |}.

Definition set_ui_workers (s : UISched) (ws : list UIWorker) : UISched :=
  {| ui_taskChan := ui_taskChan s; ui_feeder := ui_feeder s; ui_workers := ws;
     ui_resultsChan := ui_resultsChan s; ui_resultsClosed := ui_resultsClosed s;
     ui_results := ui_results s; ui_collector := ui_collector s;
     ui_sent := ui_sent s; ui_writes := ui_writes s; ui_host_calls := ui_host_calls s |}.

Definition set_ui_taskChan (s : UISched) (c : list Task) : UISched :=
  {| ui_taskChan := c; ui_feeder := ui_feeder s; ui_workers := ui_workers s;
     ui_resultsChan := ui_resultsChan s; ui_resultsClosed := ui_resultsClosed s;
     ui_results := ui_results s; ui_collector := ui_collector s;
     ui_sent := ui_sent s; ui_writes := ui_writes s; ui_host_calls := ui_host_calls s |}.

Definition set_ui_feeder (s : UISched) (pc : FeederPc) : UISched :=
  {| ui_taskChan := ui_taskChan s; ui_feeder := pc; ui_workers := ui_workers s;
     ui_resultsChan := ui_resultsChan s; ui_resultsClosed := ui_resultsClosed s;
     ui_results := ui_results s; ui_collector := ui_collector s;
     ui_sent := ui_sent s; ui_writes := ui_writes s; ui_host_calls := ui_host_calls s |}.

Definition set_ui_resultsChan (s : UISched) (c : list TaskResult) : UISched :=
  {| ui_taskChan := ui_taskChan s; ui_feeder := ui_feeder s;
     ui_workers := ui_workers s;
     ui_resultsChan := c; ui_resultsClosed := ui_resultsClosed s;
     ui_results := ui_results s; ui_collector := ui_collector s;
     ui_sent := ui_sent s; ui_writes := ui_writes s; ui_host_calls := ui_host_calls s |}.

Definition set_ui_resultsClosed (s : UISched) (b : bool) : UISched :=
  {| ui_taskChan := ui_taskChan s; ui_feeder := ui_feeder s;
     ui_workers := ui_workers s;
     ui_resultsChan := ui_resultsChan s; ui_resultsClosed := b;
     ui_results := ui_results s; ui_collector := ui_collector s;
     ui_sent := ui_sent s; ui_writes := ui_writes s; ui_host_calls := ui_host_calls s |}.

Definition set_ui_results (s : UISched) (rs : list TaskResult) : UISched :=
  {| ui_taskChan := ui_taskChan s; ui_feeder := ui_feeder s;
     ui_workers := ui_workers s;
     ui_resultsChan := ui_resultsChan s; ui_resultsClosed := ui_resultsClosed s;
     ui_results := rs; ui_collector := ui_collector s;
     ui_sent := ui_sent s; ui_writes := ui_writes s; ui_host_calls := ui_host_calls s |}.

Definition set_ui_collector (s : UISched) (pc : CollectorPc) : UISched :=
  {| ui_taskChan := ui_taskChan s; ui_feeder := ui_feeder s;
     ui_workers := ui_workers s;
     ui_resultsChan := ui_resultsChan s; ui_resultsClosed := ui_resultsClosed s;
     ui_results := ui_results s; ui_collector := pc;
     ui_sent := ui_sent s; ui_writes := ui_writes s; ui_host_calls := ui_host_calls s |}.

(** [p.Send(msg)]. *)
Definition p_Send (s : UISched) (msg : ui.Msg) : UISched :=
  {| ui_taskChan := ui_taskChan s; ui_feeder := ui_feeder s;
     ui_workers := ui_workers s;
     ui_resultsChan := ui_resultsChan s; ui_resultsClosed := ui_resultsClosed s;
     ui_results := ui_results s; ui_collector := ui_collector s;
     ui_sent := ui_sent s ++ [msg]; ui_writes := ui_writes s;
     ui_host_calls := ui_host_calls s |}.

Definition set_ui_writes (s : UISched) (writes : list (string * string)) : UISched :=
  {| ui_taskChan := ui_taskChan s; ui_feeder := ui_feeder s;
     ui_workers := ui_workers s;
     ui_resultsChan := ui_resultsChan s; ui_resultsClosed := ui_resultsClosed s;
     ui_results := ui_results s; ui_collector := ui_collector s;
     ui_sent := ui_sent s; ui_writes := writes; ui_host_calls := ui_host_calls s |}.

Definition set_ui_host_calls (s : UISched) (calls : list Event) : UISched :=
  {| ui_taskChan := ui_taskChan s; ui_feeder := ui_feeder s;
     ui_workers := ui_workers s;
     ui_resultsChan := ui_resultsChan s; ui_resultsClosed := ui_resultsClosed s;
     ui_results := ui_results s; ui_collector := ui_collector s;
     ui_sent := ui_sent s; ui_writes := ui_writes s; ui_host_calls := calls |}.

(** [_ = os.WriteFile(outputFile, content, 0644)]: the call is made;
    what it returns, when it does, is dropped.  [ui_writes] holds the
    calls made, with the path and the data; what the files hold before
    a call, during it or after it is not part of the state. *)
Definition writeReport (s : UISched) (outputFile content : string) : UISched :=
  set_ui_writes s (ui_writes s ++ [(outputFile, content)]).

Inductive uisched_step `{GoLib} `{Host} `{World} (plat : Platform)
    (tasks : list Task) (outputFile : string) (mode : ReportMode)
    : UISched -> UISched -> Prop :=
| ustep_feed s i task :
    ui_feeder s = UFeeding i ->
    tasks !! i = Some task ->
    length (ui_taskChan s) < length tasks ->
    uisched_step plat tasks outputFile mode s
      (set_ui_feeder (set_ui_taskChan s (ui_taskChan s ++ [task])) (UFeeding (S i)))
| ustep_close s i :
    ui_feeder s = UFeeding i ->
    length tasks <= i ->
    uisched_step plat tasks outputFile mode s (set_ui_feeder s UFed)
| ustep_receive s w task rest :
    ui_workers s !! w = Some UReceiving ->
    ui_taskChan s = task :: rest ->
    uisched_step plat tasks outputFile mode s
      (set_ui_workers (set_ui_taskChan s rest) (<[w := UStarting task]> (ui_workers s)))
| ustep_start s w task :
    ui_workers s !! w = Some (UStarting task) ->
    uisched_step plat tasks outputFile mode s
      (set_ui_workers (p_Send s (ui.TaskStartMsg (Task_Name task)))
         (<[w := URunning task]> (ui_workers s)))
| ustep_run s w task result calls :
    ui_workers s !! w = Some (URunning task) ->
    Run (NewRunner plat) task (ui_host_calls s) = (result, calls) ->
    uisched_step plat tasks outputFile mode s
      (set_ui_workers (set_ui_host_calls s calls)
         (<[w := USending result]> (ui_workers s)))
| ustep_send s w result :
    ui_workers s !! w = Some (USending result) ->
    length (ui_resultsChan s) < length tasks ->
    ui_resultsClosed s = false ->
    uisched_step plat tasks outputFile mode s
      (set_ui_workers (set_ui_resultsChan s (ui_resultsChan s ++ [result]))
         (<[w := UNotifying result]> (ui_workers s)))
| ustep_notify s w result :
    ui_workers s !! w = Some (UNotifying result) ->
    uisched_step plat tasks outputFile mode s
      (set_ui_workers (p_Send s (ui.TaskDoneMsg result))
         (<[w := UReceiving]> (ui_workers s)))
| ustep_exit s w :
    ui_workers s !! w = Some UReceiving ->
    ui_taskChan s = [] ->
    ui_feeder s = UFed ->
    uisched_step plat tasks outputFile mode s
      (set_ui_workers s (<[w := UDone]> (ui_workers s)))
| ustep_wait s :
    ui_resultsClosed s = false ->
    Forall (fun w => w = UDone) (ui_workers s) ->
    uisched_step plat tasks outputFile mode s (set_ui_resultsClosed s true)
| ustep_collect s result rest :
    ui_collector s = Collecting ->
    ui_resultsChan s = result :: rest ->
    uisched_step plat tasks outputFile mode s
      (set_ui_results (set_ui_resultsChan s rest) (ui_results s ++ [result]))
| ustep_announce s :
    ui_collector s = Collecting ->
    ui_resultsChan s = [] ->
    ui_resultsClosed s = true ->
    uisched_step plat tasks outputFile mode s
      (set_ui_collector (p_Send s (ui.AllDoneMsg (ui_results s))) Reporting)
| ustep_write s :
    ui_collector s = Reporting ->
    uisched_step plat tasks outputFile mode s
      (let rep := NewMarkdownReport plat (ui_results s) in
       let '(content, tokenCount, err) := generateFor mode rep in
       match err with
       | None => set_ui_collector (writeReport s outputFile content)
                   (Writing tokenCount)
       | Some _ => set_ui_collector s Finished
       end)
| ustep_written s tokenCount :
    ui_collector s = Writing tokenCount ->
    uisched_step plat tasks outputFile mode s
      (set_ui_collector s (Notifying tokenCount))
| ustep_report s tokenCount :
    ui_collector s = Notifying tokenCount ->
    uisched_step plat tasks outputFile mode s
      (set_ui_collector (p_Send s (ui.ReportDoneMsg outputFile tokenCount)) Finished).

(** The states the goroutines of [runWithUI] go through. *)
Inductive uisched_reachable `{GoLib} `{Host} `{World} (plat : Platform)
    (tasks : list Task) (workerCount : Z) (outputFile : string) (mode : ReportMode)
    : UISched -> Prop :=
| ureach_init :
    uisched_reachable plat tasks workerCount outputFile mode (uisched_init workerCount)
| ureach_step s s' :
    uisched_reachable plat tasks workerCount outputFile mode s ->
    uisched_step plat tasks outputFile mode s s' ->
    uisched_reachable plat tasks workerCount outputFile mode s'.

(** A step of the goroutines of [runWithUI] in which a worker leaves
    [runner.Run], or the collector [os.WriteFile], is taken only when
    that call returns. *)
Definition uisched_step_returning `{GoLib} `{Host} `{World} (plat : Platform)
    (tasks : list Task) (outputFile : string) (mode : ReportMode)
    (s s' : UISched) : Prop :=
  uisched_step plat tasks outputFile mode s s'
  /\ (forall w task result,
        ui_workers s !! w = Some (URunning task) ->
        ui_workers s' !! w = Some (USending result) ->
        returns plat task)
  /\ (forall tokenCount,
        ui_collector s = Writing tokenCount ->
        ui_collector s' = Notifying tokenCount ->
        WriteFile_returns outputFile).

(** The states the goroutines of [runWithUI] go through when the calls
    of [runner.Run] return or not as the commands have it. *)
Inductive uisched_run `{GoLib} `{Host} `{World} (plat : Platform)
    (tasks : list Task) (workerCount : Z) (outputFile : string) (mode : ReportMode)
    : UISched -> Prop :=
| urun_init :
    uisched_run plat tasks workerCount outputFile mode (uisched_init workerCount)
| urun_step s s' :
    uisched_run plat tasks workerCount outputFile mode s ->
    uisched_step_returning plat tasks outputFile mode s s' ->
    uisched_run plat tasks workerCount outputFile mode s'.

(** Every execution that goes on from [s] comes to the end of the last
    goroutine: until then a step can be taken, and whatever steps are
    taken the end comes after finitely many of them. *)
Inductive uisched_ends `{GoLib} `{Host} `{World} (plat : Platform)
    (tasks : list Task) (outputFile : string) (mode : ReportMode)
    : UISched -> Prop :=
| uends_finished s :
    ui_collector s = Finished -> uisched_ends plat tasks outputFile mode s
| uends_step s :
    (exists s', uisched_step_returning plat tasks outputFile mode s s') ->
    (forall s', uisched_step_returning plat tasks outputFile mode s s' ->
                uisched_ends plat tasks outputFile mode s') ->
    uisched_ends plat tasks outputFile mode s.

(** The tasks and results the workers hold. *)
Definition w_task (w : UIWorker) : option Task :=
  match w with UStarting task | URunning task => Some task | _ => None end.

Definition w_running (w : UIWorker) : option Task :=
  match w with URunning task => Some task | _ => None end.

Definition w_produced (w : UIWorker) : option TaskResult :=
  match w with USending result => Some result | _ => None end.

Definition w_unnotified (w : UIWorker) : option TaskResult :=
  match w with UNotifying result => Some result | _ => None end.

(** The tasks sent to [taskChan] so far. *)
Definition ui_fed (tasks : list Task) (s : UISched) : nat :=
  match ui_feeder s with
  | UFeeding i => i
  | UFed => length tasks
  end.

Definition startName (msg : ui.Msg) : option string :=
  match msg with ui.TaskStartMsg name => Some name | _ => None end.

Definition doneResult (msg : ui.Msg) : option TaskResult :=
  match msg with ui.TaskDoneMsg result => Some result | _ => None end.

(** The messages of the workers. *)
Definition isTaskMsg (msg : ui.Msg) : bool :=
  match msg with ui.TaskStartMsg _ | ui.TaskDoneMsg _ => true | _ => false end.

Definition uiworker_weight (w : UIWorker) : nat :=
  match w with
  | UReceiving => 1
  | UStarting _ => 6
  | URunning _ => 5
  | USending _ => 4
  | UNotifying _ => 2
  | UDone => 0
  end.

(** The steps the goroutines have left at most. *)
Definition uisched_measure (tasks : list Task) (s : UISched) : nat :=
  match ui_feeder s with
  | UFeeding i => 7 * (length tasks - i) + 1
  | UFed => 0
  end
  + 6 * length (ui_taskChan s)
  + sum_list_with uiworker_weight (ui_workers s)
  + length (ui_resultsChan s)
  + (if ui_resultsClosed s then 0 else 1)
  + match ui_collector s with
    | Collecting => 4
    | Reporting => 3
    | Writing _ => 2
    | Notifying _ => 1
    | Finished => 0
    end.

(** What [runWithUI] has done of the report in a state: nothing while
    the results are collected; then the message that all is done, with
    the results collected; then the call of [os.WriteFile] with the
    report of these results; then, the call having returned, the
    message that the report is done. *)
Definition reported `{GoLib} `{Host} `{World} (plat : Platform) (outputFile : string)
    (mode : ReportMode) (s : UISched) : Prop :=
  let generated := generateFor mode (NewMarkdownReport plat (ui_results s)) in
  let calls := [(outputFile, generated.1.1)] in
  match ui_collector s with
  | Collecting => forallb isTaskMsg (ui_sent s) = true /\ ui_writes s = []
  | Reporting =>
      exists pre, forallb isTaskMsg pre = true
                  /\ ui_sent s = pre ++ [ui.AllDoneMsg (ui_results s)]
                  /\ ui_writes s = []
  | Writing tokenCount | Notifying tokenCount =>
      exists pre, forallb isTaskMsg pre = true
                  /\ ui_sent s = pre ++ [ui.AllDoneMsg (ui_results s)]
                  /\ ui_writes s = calls /\ tokenCount = generated.1.2
  | Finished =>
      exists pre, forallb isTaskMsg pre = true
                  /\ ui_sent s = pre ++ [ui.AllDoneMsg (ui_results s);
                                         ui.ReportDoneMsg outputFile generated.1.2]
                  /\ ui_writes s = calls
  end.

(** What holds of every state of the goroutines of [runWithUI]: every
    task is in one place, still to be sent, in [taskChan], with a
    worker, or its result is with a worker, in [resultsChan] or
    collected; the results the program has been told of are those in
    [resultsChan] or collected, but for those a worker is about to tell;
    the tasks the program has been told the start of are those that run
    or have run. *)
Record uisched_inv `{GoLib} `{Host} `{World} (plat : Platform) (tasks : list Task)
    (workerCount : Z) (outputFile : string) (mode : ReportMode) (s : UISched)
    : Prop := {
  uinv_workers_len : length (ui_workers s) = Z.to_nat workerCount;
  uinv_fed : ui_fed tasks s <= length tasks;
  uinv_conserve :
    (expected plat <$> omap w_task (ui_workers s) ++ ui_taskChan s
                       ++ drop (ui_fed tasks s) tasks)
    ++ omap w_produced (ui_workers s) ++ ui_resultsChan s ++ ui_results s
    ≡ₚ expected plat <$> tasks;
  uinv_notified :
    omap doneResult (ui_sent s) ++ omap w_unnotified (ui_workers s)
    ≡ₚ ui_resultsChan s ++ ui_results s;
  uinv_started :
    omap startName (ui_sent s)
    ≡ₚ (Task_Name <$> omap w_running (ui_workers s))
       ++ (Name <$> omap w_produced (ui_workers s) ++ ui_resultsChan s
                    ++ ui_results s);
  uinv_done :
    forall w, ui_workers s !! w = Some UDone ->
              ui_taskChan s = [] /\ ui_feeder s = UFed;
  uinv_closed :
    ui_resultsClosed s = true -> Forall (fun w => w = UDone) (ui_workers s);
  uinv_collector :
    ui_collector s <> Collecting ->
    ui_resultsClosed s = true /\ ui_resultsChan s = [];
  uinv_idle :
    ui_workers s = [] -> ui_resultsChan s = [] /\ ui_results s = [];
  uinv_reported : reported plat outputFile mode s;
  uinv_prefix :
    forall pre post, ui_sent s = pre ++ post ->
      Name <$> omap doneResult pre ⊆+ omap startName pre;
}.

(** The messages [runWithUI] sends to the program; the others come from
    the terminal and the timer. *)
Definition fromRun (msg : ui.Msg) : bool :=
  match msg with
  | ui.TaskStartMsg _ | ui.TaskDoneMsg _ | ui.AllDoneMsg _ | ui.ReportDoneMsg _ _ => true
  | _ => false
  end.

(** The path and the token count the model shows after a message. *)
Definition reportOf (shown : string * Z) (msg : ui.Msg) : string * Z :=
  match msg with
  | ui.ReportDoneMsg path count => (path, count)
  | _ => shown
  end.

(** A state in which the goroutines of [runWithUI] have finished: one
    task, one worker, the Minified report. *)
Definition finished_UISched : UISched :=
  let task := plain_Task "kernel" "uname -a" "system" in
  let run := Run (H := ascii_GoLib) (H0 := quick_Host) (NewRunner user_Platform) task [] in
  let generated :=
    generateFor (H := ascii_GoLib) (H0 := quick_Host) ReportMinified
      (NewMarkdownReport (H := writable_World) user_Platform [run.1]) in
  {| ui_taskChan := []; ui_feeder := UFed; ui_workers := [UDone];
     ui_resultsChan := []; ui_resultsClosed := true; ui_results := [run.1];
     ui_collector := Finished;
     ui_sent := [ui.TaskStartMsg "kernel"; ui.TaskDoneMsg run.1;
                 ui.AllDoneMsg [run.1];
                 ui.ReportDoneMsg "out.md" generated.1.2];
     ui_writes := [("out.md", generated.1.1)];
     ui_host_calls := run.2 |}.

(** *** What a report can show of a result *)

(** The fields of a result that some report shows: the error of a
    failed result, the reason of a skipped one, and the command and the
    output of any other; always the name, the category and the
    status. *)
Definition reportView (result : TaskResult) : TaskResult :=
  match Status_ result with
  | StatusFailed =>
      {| Name := Name result; Command := ""; Category := Category result;
         Status_ := StatusFailed; Output := ""; Error := Error result;
         Duration := 0; SkipReason := "" |}
  | StatusSkipped =>
      {| Name := Name result; Command := ""; Category := Category result;
         Status_ := StatusSkipped; Output := ""; Error := "";
         Duration := 0; SkipReason := SkipReason result |}
  | status =>
      {| Name := Name result; Command := Command result;
         Category := Category result; Status_ := status;
         Output := Output result; Error := "";
         Duration := 0; SkipReason := "" |}
  end.

(** The report of the same platform and time for other results. *)
Definition withResults (r : MarkdownReport) (results : list TaskResult)
    : MarkdownReport :=
  {| Report_Platform := Report_Platform r; Results := results;
     Generated := Generated r |}.

(** * Properties *)

(** ** Strings *)

Lemma app_String (c : ascii) (s t : string) :
  String c s +:+ t = String c (s +:+ t).
Proof. reflexivity. Qed.

Lemma app_empty_l (s : string) : "" +:+ s = s.
Proof. reflexivity. Qed.

Lemma app_empty_r (s : string) : s +:+ "" = s.
Proof. induction s as [|c s IH]; [reflexivity|]. rewrite app_String, IH. reflexivity. Qed.

Lemma app_assoc_s (s t u : string) : (s +:+ t) +:+ u = s +:+ (t +:+ u).
Proof.
  induction s as [|c s IH]; [reflexivity|].
  rewrite !app_String, IH. reflexivity.
Qed.

Lemma length_app_s (s t : string) :
  String.length (s +:+ t) = String.length s + String.length t.
Proof.
  induction s as [|c s IH]; [reflexivity|].
  rewrite app_String. simpl. rewrite IH. reflexivity.
Qed.

Lemma len_app (s t : string) : len (s +:+ t) = (len s + len t)%Z.
Proof. unfold len. rewrite length_app_s. lia. Qed.

Lemma len_nonneg (s : string) : (0 <= len s)%Z.
Proof. unfold len. lia. Qed.

Lemma rev_app_spec (s t : string) :
  String.rev_app s t = String.rev s +:+ t.
Proof.
  unfold String.rev. revert t.
  induction s as [|c s IH]; intros t; [reflexivity|].
  simpl. rewrite IH, (IH (String c "")), app_assoc_s. reflexivity.
Qed.

Lemma rev_String (c : ascii) (s : string) :
  String.rev (String c s) = String.rev s +:+ String c "".
Proof. unfold String.rev at 1. simpl. apply rev_app_spec. Qed.

Lemma rev_app_distr_s (s t : string) :
  String.rev (s +:+ t) = String.rev t +:+ String.rev s.
Proof.
  induction s as [|c s IH].
  - rewrite app_empty_l. symmetry. apply app_empty_r.
  - rewrite app_String, !rev_String, IH, app_assoc_s. reflexivity.
Qed.

Lemma rev_involutive_s (s : string) : String.rev (String.rev s) = s.
Proof.
  induction s as [|c s IH]; [reflexivity|].
  rewrite rev_String, rev_app_distr_s, IH. reflexivity.
Qed.

Lemma slice_to_length (n : nat) (s : string) :
  n <= String.length s -> String.length (slice_to n s) = n.
Proof.
  revert s. induction n as [|n IH]; intros [|c s] Hn; simpl in *; try lia.
  rewrite IH; lia.
Qed.

Lemma slice_to_from (n : nat) (s : string) :
  slice_to n s +:+ slice_from n s = s.
Proof.
  revert s. induction n as [|n IH]; intros [|c s]; simpl; try reflexivity.
  rewrite app_String, IH. reflexivity.
Qed.

(** *** [strings.TrimSpace] leaves no white space at either end *)

Lemma TrimLeftSpace_eq (s : string) :
  TrimLeftSpace s =
  match s with
  | "" => ""
  | String c1 s1 =>
      if asciiSpace c1 then TrimLeftSpace s1 else
      match s1 with
      | "" => s
      | String c2 s2 =>
          if space2 c1 c2 then TrimLeftSpace s2 else
          match s2 with
          | "" => s
          | String c3 s3 => if space3 c1 c2 c3 then TrimLeftSpace s3 else s
          end
      end
  end.
Proof. destruct s; reflexivity. Qed.

Lemma TrimLeftSpace_rev_eq (s : string) :
  TrimLeftSpace_rev s =
  match s with
  | "" => ""
  | String c1 s1 =>
      if asciiSpace c1 then TrimLeftSpace_rev s1 else
      match s1 with
      | "" => s
      | String c2 s2 =>
          if space2 c2 c1 then TrimLeftSpace_rev s2 else
          match s2 with
          | "" => s
          | String c3 s3 => if space3 c3 c2 c1 then TrimLeftSpace_rev s3 else s
          end
      end
  end.
Proof. destruct s; reflexivity. Qed.

Local Arguments TrimLeftSpace : simpl never.
Local Arguments TrimLeftSpace_rev : simpl never.

(** Induction on a string with the hypothesis for every shorter one. *)
Lemma string_length_ind (P : string -> Prop) :
  (forall s, (forall t, String.length t < String.length s -> P t) -> P s) ->
  forall s, P s.
Proof.
  intros Hstep s.
  assert (H : forall n t, String.length t < n -> P t).
  { induction n as [|n IH]; intros t Ht; [lia|].
    apply Hstep. intros u Hu. apply IH. lia. }
  apply (H (S (String.length s))). lia.
Qed.

Lemma TrimLeftSpace_trimmed (s : string) :
  startsWithSpace (TrimLeftSpace s) = false.
Proof.
  induction s as [s IH] using string_length_ind.
  rewrite TrimLeftSpace_eq.
  destruct s as [|c1 [|c2 [|c3 s3]]]; simpl.
  - reflexivity.
  - destruct (asciiSpace c1) eqn:E1; simpl; [reflexivity|].
    rewrite E1. reflexivity.
  - destruct (asciiSpace c1) eqn:E1; [apply IH; simpl; lia|].
    destruct (space2 c1 c2) eqn:E2; simpl; [reflexivity|].
    rewrite E1, E2. reflexivity.
  - destruct (asciiSpace c1) eqn:E1; [apply IH; simpl; lia|].
    destruct (space2 c1 c2) eqn:E2; [apply IH; simpl; lia|].
    destruct (space3 c1 c2 c3) eqn:E3; [apply IH; simpl; lia|].
    simpl. rewrite E1, E2, E3. reflexivity.
Qed.

Lemma TrimLeftSpace_rev_trimmed (s : string) :
  startsWithSpace_rev (TrimLeftSpace_rev s) = false.
Proof.
  induction s as [s IH] using string_length_ind.
  rewrite TrimLeftSpace_rev_eq.
  destruct s as [|c1 [|c2 [|c3 s3]]]; simpl.
  - reflexivity.
  - destruct (asciiSpace c1) eqn:E1; simpl; [reflexivity|].
    rewrite E1. reflexivity.
  - destruct (asciiSpace c1) eqn:E1; [apply IH; simpl; lia|].
    destruct (space2 c2 c1) eqn:E2; simpl; [reflexivity|].
    rewrite E1, E2. reflexivity.
  - destruct (asciiSpace c1) eqn:E1; [apply IH; simpl; lia|].
    destruct (space2 c2 c1) eqn:E2; [apply IH; simpl; lia|].
    destruct (space3 c3 c2 c1) eqn:E3; [apply IH; simpl; lia|].
    simpl. rewrite E1, E2, E3. reflexivity.
Qed.

(** What is trimmed from the end leaves a prefix. *)
Lemma TrimLeftSpace_rev_suffix (s : string) :
  exists u, s = u +:+ TrimLeftSpace_rev s.
Proof.
  induction s as [s IH] using string_length_ind.
  rewrite TrimLeftSpace_rev_eq.
  destruct s as [|c1 [|c2 [|c3 s3]]].
  - exists "". reflexivity.
  - destruct (asciiSpace c1); [exists (String c1 "")|exists ""]; reflexivity.
  - destruct (asciiSpace c1).
    { destruct (IH (String c2 "")) as [u Hu]; [simpl; lia|].
      exists (String c1 u). rewrite app_String, <- Hu. reflexivity. }
    destruct (space2 c2 c1); [exists (String c1 (String c2 ""))|exists ""]; reflexivity.
  - destruct (asciiSpace c1).
    { destruct (IH (String c2 (String c3 s3))) as [u Hu]; [simpl; lia|].
      exists (String c1 u). rewrite app_String, <- Hu. reflexivity. }
    destruct (space2 c2 c1).
    { destruct (IH (String c3 s3)) as [u Hu]; [simpl; lia|].
      exists (String c1 (String c2 u)). rewrite !app_String, <- Hu. reflexivity. }
    destruct (space3 c3 c2 c1).
    { destruct (IH s3) as [u Hu]; [simpl; lia|].
      exists (String c1 (String c2 (String c3 u))).
      rewrite !app_String, <- Hu. reflexivity. }
    exists "". reflexivity.
Qed.

Lemma TrimRightSpace_prefix (s : string) :
  exists v, s = TrimRightSpace s +:+ v.
Proof.
  unfold TrimRightSpace.
  destruct (TrimLeftSpace_rev_suffix (String.rev s)) as [u Hu].
  exists (String.rev u).
  rewrite <- rev_app_distr_s, <- Hu, rev_involutive_s. reflexivity.
Qed.

Lemma startsWithSpace_prefix (p v : string) :
  startsWithSpace (p +:+ v) = false -> startsWithSpace p = false.
Proof.
  destruct p as [|c1 [|c2 [|c3 p3]]]; [reflexivity|..];
    rewrite ?app_String; simpl; intros H.
  - destruct (asciiSpace c1); [discriminate|reflexivity].
  - destruct (asciiSpace c1); [discriminate|]. simpl in *.
    destruct v; rewrite ?app_empty_l in H; simpl in H;
      destruct (space2 c1 c2); try discriminate; reflexivity.
  - exact H.
Qed.

Lemma TrimSpace_trimmed (s : string) :
  startsWithSpace (TrimSpace s) = false /\ endsWithSpace (TrimSpace s) = false.
Proof.
  unfold TrimSpace. split.
  - destruct (TrimRightSpace_prefix (TrimLeftSpace s)) as [v Hv].
    apply (startsWithSpace_prefix _ v). rewrite <- Hv.
    apply TrimLeftSpace_trimmed.
  - unfold endsWithSpace, TrimRightSpace. rewrite rev_involutive_s.
    apply TrimLeftSpace_rev_trimmed.
Qed.

(** ** Truncation *)

Lemma effective_positive (override default : Z) :
  (0 < default)%Z -> (0 < effective override default)%Z.
Proof. unfold effective. intros Hd. destruct (Z.leb_spec override 0); lia. Qed.

Lemma effective_override (override default : Z) :
  (0 < override)%Z -> effective override default = override.
Proof. unfold effective. intros Ho. destruct (Z.leb_spec override 0); [lia|reflexivity]. Qed.

Lemma effective_default (override default : Z) :
  (override <= 0)%Z -> effective override default = default.
Proof. unfold effective. intros Ho. destruct (Z.leb_spec override 0); [reflexivity|lia]. Qed.

(** The loop of [formatBytes] leaves by its condition before the fuel
    is spent, with a unit letter for the exponent. *)
Lemma formatBytes_loop_spec (fuel : nat) (b n div exp : Z) :
  (0 <= exp)%Z -> div = (1024 ^ (exp + 1))%Z -> n = (b / div)%Z ->
  (1 <= n < 1024 ^ Z.of_nat fuel)%Z ->
  let '(div', exp') := formatBytes_loop fuel n div exp in
  (exp <= exp' < exp + Z.of_nat fuel)%Z
  /\ div' = (1024 ^ (exp' + 1))%Z /\ (1 <= b / div' < 1024)%Z.
Proof.
  revert n div exp. induction fuel as [|fuel IH]; intros n div exp Hexp Hdiv Hn Hrange.
  - simpl in Hrange. lia.
  - cbn [formatBytes_loop]. destruct (Z.geb_spec n 1024) as [Hge|Hlt].
    + assert (Hdivpos : (0 < div)%Z) by (subst div; apply Z.pow_pos_nonneg; lia).
      specialize (IH (n / 1024)%Z (div * 1024)%Z (exp + 1)%Z).
      destruct (formatBytes_loop fuel (n / 1024) (div * 1024) (exp + 1)) as [div' exp'].
      destruct IH as (He & Hd & Hb).
      * lia.
      * subst div. replace (exp + 1 + 1)%Z with (Z.succ (exp + 1)) by lia.
        rewrite Z.pow_succ_r by lia. lia.
      * subst n. rewrite Z.div_div by lia. reflexivity.
      * split; [apply Z.div_le_lower_bound; lia|].
        apply Z.div_lt_upper_bound; [lia|].
        rewrite Nat2Z.inj_succ in Hrange.
        rewrite Z.pow_succ_r in Hrange; lia.
      * repeat split; lia.
    + subst n. repeat split; lia.
Qed.

Lemma formatBytes_letter (b : Z) :
  (1024 <= b < 2 ^ 63)%Z ->
  let '(div, exp) := formatBytes_loop 6 (b / 1024)%Z 1024%Z 0%Z in
  (1 <= b / div < 1024)%Z
  /\ exists c, String.get (Z.to_nat exp) "KMGTPE" = Some c.
Proof.
  intros Hb.
  pose proof (formatBytes_loop_spec 6 b (b / 1024) 1024 0) as Hspec.
  destruct (formatBytes_loop 6 (b / 1024) 1024 0) as [div exp].
  destruct Hspec as (He & _ & Hdiv); [lia|reflexivity|reflexivity| |].
  - split; [apply Z.div_le_lower_bound; lia|].
    apply Z.div_lt_upper_bound; [lia|]. change (2 ^ 63)%Z with (1024 * 2 ^ 53)%Z in Hb.
    assert ((2 ^ 53 < 1024 ^ Z.of_nat 6)%Z) by reflexivity. lia.
  - split; [exact Hdiv|].
    assert (Hcases : exp = 0%Z \/ exp = 1%Z \/ exp = 2%Z \/ exp = 3%Z
                     \/ exp = 4%Z \/ exp = 5%Z) by lia.
    destruct Hcases as [->|[->|[->|[->|[->| ->]]]]]; simpl; eauto.
Qed.

(** The bounds of the two stages, and the order of the stages: an
    output of exactly the byte bound passes the byte stage as it is and
    one byte more is cut to the bound and marked; an output of exactly
    the line bound passes the line stage as it is and one line more is
    cut to the first lines and marked; the byte stage runs first, an
    output within both bounds is only trimmed, and what is returned
    starts and ends with no white space. *)
Theorem truncateOutput_boundaries (output : string) (maxLines maxBytes : Z) :
  let mb := effective maxBytes DefaultMaxBytes in
  let ml := effective maxLines DefaultMaxLines in
  (len output = mb -> truncateBytes output mb = output)
  /\ (len output = (mb + 1)%Z ->
      truncateBytes output mb = slice_to (Z.to_nat mb) output +:+ byteMarker mb
      /\ len (slice_to (Z.to_nat mb) output) = mb)
  /\ (forall text, lineCount text = ml -> truncateLines text ml = text)
  /\ (forall text, lineCount text = (ml + 1)%Z ->
      truncateLines text ml
      = Join (take (Z.to_nat ml) (Split text "010"%char)) nl +:+ lineMarker ml
      /\ Z.of_nat (length (take (Z.to_nat ml) (Split text "010"%char))) = ml)
  /\ truncateOutput output maxLines maxBytes
     = TrimSpace (truncateLines (truncateBytes output mb) ml)
  /\ ((len output <= mb)%Z -> (lineCount output <= ml)%Z ->
      truncateOutput output maxLines maxBytes = TrimSpace output)
  /\ startsWithSpace (truncateOutput output maxLines maxBytes) = false
  /\ endsWithSpace (truncateOutput output maxLines maxBytes) = false.
Proof.
  intros mb ml.
  assert (Hmb : (0 < mb)%Z) by (apply effective_positive; reflexivity).
  assert (Hml : (0 < ml)%Z) by (apply effective_positive; reflexivity).
  assert (Hwithin : (len output <= mb)%Z -> (lineCount output <= ml)%Z ->
                    truncateOutput output maxLines maxBytes = TrimSpace output).
  { intros Hb Hl. unfold truncateOutput. fold mb ml. unfold truncateBytes.
    destruct (Z.gtb_spec (len output) mb); [lia|].
    unfold truncateLines, lineCount in *.
    destruct (Z.gtb_spec (Z.of_nat (length (Split output "010"))) ml); [lia|reflexivity]. }
  split; [|split; [|split; [|split; [|split; [reflexivity|split; [exact Hwithin|]]]]]];
    repeat split.
  - intros Hlen. unfold truncateBytes.
    destruct (Z.gtb_spec (len output) mb); [lia|reflexivity].
  - unfold truncateBytes. destruct (Z.gtb_spec (len output) mb); [reflexivity|lia].
  - unfold len in *. rewrite slice_to_length; lia.
  - intros text Hcount. unfold truncateLines, lineCount in *.
    destruct (Z.gtb_spec (Z.of_nat (length (Split text "010"))) ml); [lia|reflexivity].
  - unfold truncateLines, lineCount in *.
    destruct (Z.gtb_spec (Z.of_nat (length (Split text "010"))) ml); [reflexivity|lia].
  - unfold lineCount in *. rewrite length_take. lia.
  - apply TrimSpace_trimmed.
  - apply TrimSpace_trimmed.
Qed.

(** C1, at the default bounds.  An output of 501 lines is cut to its
    first 500 lines, and the marker that follows does not cite the
    bound: [string(rune(maxLines+'0'))] is the one rune U+0224, so the
    digits 500 occur nowhere in the result.  The byte marker of the
    default bound reads [pKB] for the same reason, and two different
    line bounds can get the same marker. *)
Theorem truncateOutput_default_marker :
  truncateOutput (lines_of 501) 0 0
  = lines_of 500 +:+ nl +:+ "... [truncated: exceeded "
    +:+ String (byte_of_Z 200) (String (byte_of_Z 164) "") +:+ " lines]"
  /\ Contains (truncateOutput (lines_of 501) 0 0) "500" = false
  /\ byteMarker DefaultMaxBytes = nl +:+ "... [truncated: exceeded pKB]"
  /\ lineMarker 55248 = lineMarker 55249.
Proof. repeat split; vm_compute; reflexivity. Qed.

(** With a bound of one digit the markers do cite it. *)
Example truncateOutput_small_bounds :
  truncateOutput "abcde" 0 4 = "abcd" +:+ nl +:+ "... [truncated: exceeded 4B]"
  /\ truncateOutput (lines_of 4) 3 0
     = lines_of 3 +:+ nl +:+ "... [truncated: exceeded 3 lines]"
  /\ truncateOutput (lines_of 3) 3 0 = lines_of 3.
Proof. repeat split; vm_compute; reflexivity. Qed.

(** A byte marker is a line more: an output within the line bound can
    lose its byte marker to the line stage. *)
Example truncateOutput_byte_marker_dropped :
  truncateOutput (lines_of 3) 3 4
  = "x" +:+ nl +:+ "x" +:+ nl +:+ nl +:+ "... [truncated: exceeded 3 lines]".
Proof. vm_compute; reflexivity. Qed.

(** ** The eligibility check and the runner *)

Section Runner.
Context `{lib : GoLib} `{host : Host}.

Lemma spawned_app (tr tr' : list Event) :
  spawned (tr ++ tr') = spawned tr ++ spawned tr'.
Proof. unfold spawned. apply omap_app. Qed.

Lemma spawned_lookups (names : list string) :
  spawned (EvLookPath <$> names) = [].
Proof. induction names as [|n names IH]; [reflexivity|exact IH]. Qed.

Lemma firstMissing_all_found (requires : list string) (tr : list Event) :
  Forall (fun name => LookPath name = true) requires ->
  firstMissing requires tr = (None, tr ++ (EvLookPath <$> requires)).
Proof.
  intros Hall. revert tr.
  induction Hall as [|req rest Hreq _ IH]; intros tr.
  - simpl. unfold ret. rewrite app_nil_r. reflexivity.
  - simpl. unfold bind, lookPath. rewrite Hreq, IH, <- app_assoc. reflexivity.
Qed.

Lemma firstMissing_first (found rest : list string) (req : string) (tr : list Event) :
  Forall (fun name => LookPath name = true) found ->
  LookPath req = false ->
  firstMissing (found ++ req :: rest) tr
  = (Some req, tr ++ (EvLookPath <$> (found ++ [req]))).
Proof.
  intros Hall Hreq. revert tr.
  induction Hall as [|name found Hname _ IH]; intros tr.
  - simpl. unfold bind, lookPath, ret. rewrite Hreq. reflexivity.
  - simpl. unfold bind, lookPath. rewrite Hname, IH, <- app_assoc. reflexivity.
Qed.

(** The loop looks names up and does nothing else. *)
Lemma firstMissing_lookups (requires : list string) (tr : list Event) :
  exists names, (firstMissing requires tr).2 = tr ++ (EvLookPath <$> names).
Proof.
  revert tr. induction requires as [|req rest IH]; intros tr.
  - exists []. simpl. rewrite app_nil_r. reflexivity.
  - simpl. unfold bind, lookPath. destruct (LookPath req).
    + destruct (IH (tr ++ [EvLookPath req])) as [names Hnames].
      exists (req :: names). rewrite Hnames, <- app_assoc. reflexivity.
    + exists [req]. reflexivity.
Qed.

Lemma MatchesTags_loop_false (p : Platform) (tags : list string) :
  MatchesTags_loop p tags = false <-> Forall (fun tag => tagMatches p tag = false) tags.
Proof.
  induction tags as [|tag tags IH]; simpl.
  - split; [constructor|reflexivity].
  - destruct (tagMatches p tag) eqn:E.
    + split; [discriminate|]. intros Hall. inversion Hall; congruence.
    + rewrite IH. split; [constructor; assumption|]. intros Hall. inversion Hall; assumption.
Qed.

Lemma MatchesTags_false (p : Platform) (tags : list string) :
  MatchesTags p tags = false
  <-> tags <> [] /\ Forall (fun tag => tagMatches p tag = false) tags.
Proof.
  unfold MatchesTags. destruct tags as [|tag tags].
  - simpl. split; [discriminate|]. intros [Hne _]. congruence.
  - replace (Z.of_nat (length (tag :: tags)) =? 0)%Z with false
      by (symmetry; apply Z.eqb_neq; simpl; lia).
    rewrite MatchesTags_loop_false. split; [|tauto]. split; [discriminate|assumption].
Qed.

Lemma tags_nonempty (tags : list string) :
  (Z.of_nat (length tags) >? 0)%Z = negb (bool_decide (tags = [])).
Proof. destruct tags; [reflexivity|]. simpl length. destruct (Z.gtb_spec (Z.of_nat (S (length tags))) 0); [reflexivity|lia]. Qed.

(** Whether the privilege check fails. *)
Lemma needs_sudo_spec (r : Runner) (task : Task) :
  String.eqb (Task_Privilege task) "sudo" && negb (IsRoot (Runner_Platform r)) = true
  <-> Task_Privilege task = "sudo" /\ IsRoot (Runner_Platform r) = false.
Proof.
  rewrite andb_true_iff, String.eqb_eq, negb_true_iff. reflexivity.
Qed.

(** C4.  The checks of [CanRun] in their order: the privilege check
    decides first; then the names of [task.Requires] are looked up in
    order, and the first one that is not found is the reason, no name
    after it being looked up; then the tags, which fail when there are
    tags and none matches, the reason listing them; a task that fails
    no check can run, with an empty reason, and so can every task with
    no privilege, no dependency and no tag. *)
Theorem CanRun_precedence (r : Runner) (task : Task) (tr : list Event) :
  let p := Runner_Platform r in
  let needsSudo := Task_Privilege task = "sudo" /\ IsRoot p = false in
  let found := fun name => LookPath name = true in
  (needsSudo -> CanRun r task tr = ((false, "Requires sudo privileges"), tr))
  /\ (~ needsSudo ->
      forall before req after,
        Task_Requires task = before ++ req :: after ->
        Forall found before -> LookPath req = false ->
        CanRun r task tr
        = ((false, "Missing dependency: " +:+ req),
           tr ++ (EvLookPath <$> (before ++ [req]))))
  /\ (~ needsSudo ->
      Forall found (Task_Requires task) ->
      Task_Tags task <> [] ->
      Forall (fun tag => tagMatches p tag = false) (Task_Tags task) ->
      CanRun r task tr
      = ((false, "Environment mismatch: requires " +:+ Join (Task_Tags task) " or "),
         tr ++ (EvLookPath <$> Task_Requires task)))
  /\ (~ needsSudo ->
      Forall found (Task_Requires task) ->
      Task_Tags task = [] \/ Exists (fun tag => tagMatches p tag = true) (Task_Tags task) ->
      CanRun r task tr = ((true, ""), tr ++ (EvLookPath <$> Task_Requires task)))
  /\ (Task_Privilege task = "" -> Task_Requires task = [] -> Task_Tags task = [] ->
      CanRun r task tr = ((true, ""), tr)).
Proof.
  intros p needsSudo found. unfold CanRun.
  destruct (String.eqb (Task_Privilege task) "sudo" && negb (IsRoot (Runner_Platform r)))
    eqn:Esudo.
  - apply needs_sudo_spec in Esudo.
    split; [reflexivity|].
    do 3 (split; [intros Hno; contradiction|]).
    intros Hpriv. destruct Esudo as [Hsudo _]. rewrite Hpriv in Hsudo. discriminate.
  - assert (Hno : ~ needsSudo).
    { intros Hs. apply needs_sudo_spec in Hs. congruence. }
    split; [intros Hs; contradiction|]. split; [|split; [|split]].
    + intros _ before req after Hreqs Hbefore Hreq. unfold bind.
      rewrite Hreqs, firstMissing_first by assumption. reflexivity.
    + intros _ Hall Htags Hnone. unfold bind.
      rewrite firstMissing_all_found by assumption.
      rewrite tags_nonempty, bool_decide_eq_false_2 by assumption.
      unfold p in Hnone.
      rewrite (proj2 (MatchesTags_false _ (Task_Tags task))) by tauto.
      reflexivity.
    + intros _ Hall Htags. unfold bind.
      rewrite firstMissing_all_found by assumption.
      destruct (MatchesTags (Runner_Platform r) (Task_Tags task)) eqn:Em.
      * rewrite andb_false_r. reflexivity.
      * apply MatchesTags_false in Em as [Hne Hnone].
        destruct Htags as [Hnil|Hsome]; [congruence|].
        apply Exists_exists in Hsome as (tag & Hin & Htag).
        rewrite Forall_forall in Hnone. specialize (Hnone tag Hin).
        unfold p in Htag. congruence.
    + intros _ Hreqs Htags. unfold bind. rewrite Hreqs, Htags. simpl.
      unfold ret. reflexivity.
Qed.

(** A reason for not running is never empty, and [CanRun] spawns
    nothing. *)
Lemma CanRun_reason (r : Runner) (task : Task) (tr tr' : list Event) (reason : string) :
  CanRun r task tr = ((false, reason), tr') -> reason <> "".
Proof.
  unfold CanRun, bind, ret.
  destruct (_ && negb _); [intros [= <- _]; discriminate|].
  destruct (firstMissing _ tr) as [[req|] tr1].
  - intros [= <- _]. rewrite app_String. discriminate.
  - destruct (_ && negb _); [|discriminate].
    intros [= <- _]. rewrite app_String. discriminate.
Qed.

Lemma CanRun_eligible_reason (r : Runner) (task : Task) (tr tr' : list Event)
    (reason : string) :
  CanRun r task tr = ((true, reason), tr') -> reason = "".
Proof.
  unfold CanRun, bind, ret.
  destruct (_ && negb _); [discriminate|].
  destruct (firstMissing _ tr) as [[req|] tr1]; [discriminate|].
  destruct (_ && negb _); [discriminate|]. intros [= <- _]. reflexivity.
Qed.

Lemma CanRun_spawns_nothing (r : Runner) (task : Task) (tr : list Event) :
  spawned (CanRun r task tr).2 = spawned tr.
Proof.
  unfold CanRun, bind, ret.
  destruct (_ && negb _); [reflexivity|].
  destruct (firstMissing_lookups (Task_Requires task) tr) as [names Hnames].
  destruct (firstMissing _ tr) as [missing tr1]. simpl in Hnames. subst tr1.
  assert (Hs : spawned (tr ++ (EvLookPath <$> names)) = spawned tr).
  { rewrite spawned_app, spawned_lookups, app_nil_r. reflexivity. }
  destruct missing; [exact Hs|]. destruct (_ && negb _); exact Hs.
Qed.

(** C5.  When the eligibility check fails, [Run] returns at once: the
    result has the status [Skipped] and the reason of the check, and
    the host was asked to spawn nothing, before or after. *)
Theorem Run_ineligible_skipped (r : Runner) (task : Task) (tr tr' : list Event)
    (reason : string) :
  CanRun r task tr = ((false, reason), tr') ->
  Run r task tr = (skipped_result task reason, tr')
  /\ spawned tr' = spawned tr.
Proof.
  intros Hcan. split.
  - unfold Run, bind. rewrite Hcan. reflexivity.
  - pose proof (CanRun_spawns_nothing r task tr) as Hs.
    rewrite Hcan in Hs. exact Hs.
Qed.

(** A task that needs [sudo] without the privilege is skipped before
    any look-up. *)
Lemma Run_sudo_unprivileged (r : Runner) (task : Task) (tr : list Event) :
  Task_Privilege task = "sudo" -> IsRoot (Runner_Platform r) = false ->
  Run r task tr = (skipped_result task "Requires sudo privileges", tr).
Proof.
  intros Hpriv Hroot. unfold Run, bind, CanRun.
  rewrite (proj2 (needs_sudo_spec r task)) by tauto. reflexivity.
Qed.

(** C6.  The status of a result of [Run] is one of [Success],
    [Skipped] and [Failed], and its skip reason is not empty exactly
    when the status is [Skipped]. *)
Theorem Run_status_invariant (r : Runner) (task : Task) (tr : list Event) :
  let res := (Run r task tr).1 in
  (Status_ res = StatusSuccess \/ Status_ res = StatusSkipped
   \/ Status_ res = StatusFailed)
  /\ Status_ res <> StatusPending /\ Status_ res <> StatusRunning
  /\ (SkipReason res <> "" <-> Status_ res = StatusSkipped).
Proof.
  unfold Run, bind.
  destruct (CanRun r task tr) as [[canRun reason] tr1] eqn:Hcan.
  destruct canRun; simpl.
  - unfold spawn, ret.
    destruct (out_deadline _); [|destruct (out_err _)]; simpl;
      (repeat split; [tauto|discriminate..| |]); intros ?; congruence.
  - apply CanRun_reason in Hcan. unfold ret. simpl.
    repeat split; [tauto|discriminate..| |]; intros ?; congruence.
Qed.

(** C8, as the code has it.  When the command of a task that can run
    hits the deadline, the result is [Failed], its error is the
    time-out message with the duration, and its output is what was
    captured on standard output, truncated; what was captured on
    standard error is in no field of the result. *)
Theorem Run_deadline_exceeded (r : Runner) (task : Task) (tr : list Event) :
  (CanRun r task tr).1.1 = true ->
  out_deadline (sh (Task_Command task) (Timeout r)) = true ->
  let o := sh (Task_Command task) (Timeout r) in
  Run r task tr
  = ({| Name := Task_Name task; Command := Task_Command task;
        Category := Task_Category task; Status_ := StatusFailed;
        Output := truncateOutput (out_stdout o) (Task_MaxLines task) (Task_MaxBytes task);
        Error := "Command timed out after " +:+ Duration_String (Timeout r);
        Duration := out_elapsed o; SkipReason := "" |},
     (CanRun r task tr).2 ++ [EvSpawn (Task_Command task)]).
Proof.
  intros Hcan Hdeadline o. unfold Run, bind.
  destruct (CanRun r task tr) as [[canRun reason] tr1]. simpl in Hcan. subst canRun.
  subst o. simpl. unfold spawn, ret. rewrite Hdeadline. reflexivity.
Qed.

(** The result of [Run] does not depend on the calls made before. *)
Lemma firstMissing_result (requires : list string) (tr tr' : list Event) :
  (firstMissing requires tr).1 = (firstMissing requires tr').1.
Proof.
  revert tr tr'. induction requires as [|req rest IH]; intros tr tr'; [reflexivity|].
  simpl. unfold bind, lookPath. destruct (LookPath req); [apply IH|reflexivity].
Qed.

Lemma CanRun_result (r : Runner) (task : Task) (tr tr' : list Event) :
  (CanRun r task tr).1 = (CanRun r task tr').1.
Proof.
  unfold CanRun, bind, ret. destruct (_ && negb _); [reflexivity|].
  pose proof (firstMissing_result (Task_Requires task) tr tr') as Hm.
  destruct (firstMissing _ tr) as [m1 tr1], (firstMissing _ tr') as [m2 tr2].
  simpl in Hm. subst m2. destruct m1; [reflexivity|].
  destruct (_ && negb _); reflexivity.
Qed.

Lemma Run_result (r : Runner) (task : Task) (tr tr' : list Event) :
  (Run r task tr).1 = (Run r task tr').1.
Proof.
  unfold Run, bind. pose proof (CanRun_result r task tr tr') as Hc.
  destruct (CanRun r task tr) as [[c1 r1] tr1], (CanRun r task tr') as [[c2 r2] tr2].
  simpl in Hc. injection Hc as -> ->.
  destruct c2; simpl; unfold spawn, ret; [|reflexivity].
  destruct (out_deadline _); [|destruct (out_err _)]; reflexivity.
Qed.

End Runner.

Lemma CanRun_precedence_witness :
  CanRun (H := ascii_GoLib) (H0 := quick_Host) (NewRunner root_Platform) sudo_Task []
  = ((false, "Missing dependency: dmesg"), [EvLookPath "sh"; EvLookPath "dmesg"]).
Proof.
  refine (proj1 (proj2 (@CanRun_precedence ascii_GoLib quick_Host
                          (NewRunner root_Platform) sudo_Task []))
            _ ["sh"] "dmesg" [] _ _ _).
  - intros [_ Hroot]. discriminate.
  - reflexivity.
  - repeat constructor.
  - reflexivity.
Defined.

Lemma Run_ineligible_skipped_witness :
  let before := [EvSpawn "uname -a"] in
  (Run (H := ascii_GoLib) (H0 := quick_Host) (NewRunner user_Platform) sudo_Task before
   = (skipped_result sudo_Task "Requires sudo privileges", before)
   /\ spawned before = spawned before)
  /\ (Run (H := ascii_GoLib) (H0 := quick_Host) (NewRunner root_Platform) sudo_Task before
      = (skipped_result sudo_Task "Missing dependency: dmesg",
         before ++ [EvLookPath "sh"; EvLookPath "dmesg"])
      /\ spawned (before ++ [EvLookPath "sh"; EvLookPath "dmesg"]) = spawned before).
Proof.
  split; apply (@Run_ineligible_skipped ascii_GoLib quick_Host); reflexivity.
Defined.

(** C8 as stated fails: on the deadline the error of the result is the
    time-out message alone, and the diagnostics captured on standard
    error are in none of its fields. *)
Lemma Run_deadline_discards_stderr :
  let task := plain_Task "kernel" "uname -a" "system" in
  out_stderr (sh (Host := slow_Host) "uname -a" DefaultTimeout)
  = "partial diagnostics" +:+ nl
  /\ (Run (H := ascii_GoLib) (H0 := slow_Host) (NewRunner user_Platform) task []).1
     = {| Name := "kernel"; Command := "uname -a"; Category := "system";
          Status_ := StatusFailed; Output := "partial output";
          Error := "Command timed out after 30s";
          Duration := 30000000000; SkipReason := "" |}
  /\ Contains
       (Error (Run (H := ascii_GoLib) (H0 := slow_Host) (NewRunner user_Platform) task []).1)
       "partial diagnostics" = false.
Proof. repeat split; vm_compute; reflexivity. Qed.

Lemma Run_deadline_exceeded_witness :
  Run (H := ascii_GoLib) (H0 := slow_Host) (NewRunner user_Platform)
      (plain_Task "kernel" "uname -a" "system") []
  = ({| Name := "kernel"; Command := "uname -a"; Category := "system";
        Status_ := StatusFailed; Output := "partial output";
        Error := "Command timed out after 30s";
        Duration := 30000000000; SkipReason := "" |},
     [EvSpawn "uname -a"]).
Proof.
  apply (@Run_deadline_exceeded ascii_GoLib slow_Host (NewRunner user_Platform)
           (plain_Task "kernel" "uname -a" "system") []); reflexivity.
Defined.

(** ** The loader *)

Section Loader.
Context `{lib : GoLib}.

Lemma FilterTasks_concat (profiles : list Profile) :
  FilterTasks profiles = concat (Profile_Tasks <$> profiles).
Proof.
  unfold FilterTasks.
  assert (Hin : forall (ts acc : list Task),
             foldl (fun tasks task => tasks ++ [task]) acc ts = acc ++ ts).
  { induction ts as [|t ts IH]; intros acc; simpl.
    - rewrite app_nil_r. reflexivity.
    - rewrite IH, <- app_assoc. reflexivity. }
  assert (Hout : forall (ps : list Profile) (acc : list Task),
             foldl (fun tasks profile =>
                      foldl (fun tasks task => tasks ++ [task]) tasks
                        (Profile_Tasks profile)) acc ps
             = acc ++ concat (Profile_Tasks <$> ps)).
  { induction ps as [|q ps IH]; intros acc; simpl.
    - rewrite app_nil_r. reflexivity.
    - rewrite IH, Hin, <- app_assoc. reflexivity. }
  apply (Hout profiles []).
Qed.

Lemma matchesPlatform_spec (l : Loader) (profile : Profile) :
  matchesPlatform l profile = true <->
  Profile_Platform profile = ""
  \/ ToLower (Profile_Platform profile) = ToLower (DistroID (Loader_platform l))
  \/ Contains (ToLower (DistroID (Loader_platform l)))
              (ToLower (Profile_Platform profile)) = true
  \/ (ToLower (Profile_Platform profile) = "linux" /\ OS (Loader_platform l) = "linux").
Proof.
  unfold matchesPlatform.
  destruct (String.eqb_spec (Profile_Platform profile) "") as [He|He]; [tauto|].
  destruct (String.eqb_spec (ToLower (Profile_Platform profile))
              (ToLower (DistroID (Loader_platform l)))) as [Hd|Hd]; [tauto|].
  destruct (Contains _ _) eqn:Hc; [tauto|].
  destruct (String.eqb_spec (ToLower (Profile_Platform profile)) "linux") as [Hl|Hl];
    destruct (String.eqb_spec (OS (Loader_platform l)) "linux") as [Ho|Ho]; simpl;
    split; try tauto; try discriminate;
    intros [?|[?|[?|[? ?]]]]; congruence.
Qed.

Lemma LoadAll_walk_spec (l : Loader) (entries : list WalkEntry)
    (acc profiles : list Profile) :
  LoadAll_walk l entries acc = (profiles, None) ->
  exists loaded,
    Forall2 (fun e p => loadProfile e = Ok p)
            (filter (fun e => isProfileFile e = true) entries) loaded
    /\ profiles = acc ++ filter (fun p => matchesPlatform l p = true) loaded.
Proof.
  revert acc. induction entries as [|e rest IH]; intros acc; simpl.
  - intros [= <-]. exists []. split; [constructor|]. rewrite app_nil_r. reflexivity.
  - destruct (we_err e); [discriminate|].
    rewrite filter_cons.
    assert (Hfile : isProfileFile e
                    = negb (we_isDir e || negb (HasSuffix (we_path e) ".yaml")))
      by reflexivity.
    destruct (we_isDir e || negb (HasSuffix (we_path e) ".yaml")); simpl in Hfile.
    + intros Hwalk. destruct (IH _ Hwalk) as (loaded & Hl & Hp).
      exists loaded. split; [|exact Hp].
      rewrite decide_False by congruence. exact Hl.
    + destruct (loadProfile e) as [profile|msg] eqn:Eload; [|discriminate].
      intros Hwalk. destruct (IH _ Hwalk) as (loaded & Hl & Hp).
      exists (profile :: loaded). split.
      * rewrite decide_True by assumption. constructor; assumption.
      * rewrite filter_cons. subst profiles.
        destruct (matchesPlatform l profile) eqn:Em.
        -- rewrite decide_True by reflexivity. rewrite <- app_assoc. reflexivity.
        -- rewrite decide_False by discriminate. reflexivity.
Qed.

(** C7, as the code has it.  A profile is kept exactly when it declares
    no platform, or its platform and the distribution identifier are
    equal once lower-cased, or its lower-cased platform occurs anywhere
    in the lower-cased distribution identifier, or its lower-cased
    platform is [linux] and the operating system is [linux]; a walk
    without an error loads the profile files in order and returns those
    kept, and the tasks are the tasks of these profiles. *)
Theorem LoadAll_platform_filter (l : Loader) (profiles : list Profile) :
  LoadAll l = (profiles, None) ->
  (forall profile,
      matchesPlatform l profile = true <->
      Profile_Platform profile = ""
      \/ ToLower (Profile_Platform profile) = ToLower (DistroID (Loader_platform l))
      \/ Contains (ToLower (DistroID (Loader_platform l)))
                  (ToLower (Profile_Platform profile)) = true
      \/ (ToLower (Profile_Platform profile) = "linux"
          /\ OS (Loader_platform l) = "linux"))
  /\ (exists loaded,
         Forall2 (fun e p => loadProfile e = Ok p)
                 (filter (fun e => isProfileFile e = true) (Loader_fs l)) loaded
         /\ profiles = filter (fun p => matchesPlatform l p = true) loaded)
  /\ GetAllTasks l = Ok (concat (Profile_Tasks <$> profiles)).
Proof.
  intros Hload. split; [intros profile; apply matchesPlatform_spec|]. split.
  - apply (LoadAll_walk_spec l (Loader_fs l) []). exact Hload.
  - unfold GetAllTasks. rewrite Hload, FilterTasks_concat. reflexivity.
Qed.

(** A prefix is found by [strings.Contains]. *)
Lemma Contains_prefix (s p : string) : HasPrefix s p = true -> Contains s p = true.
Proof.
  unfold HasPrefix. intros Hp. destruct s; cbn [Contains]; rewrite Hp; reflexivity.
Qed.

End Loader.

(** C7 as stated fails: [ch_li] is no prefix of [arch_linux], is not
    equal to it and is not [linux], and the profile is loaded. *)
Lemma matchesPlatform_inner_substring :
  let l := NewLoader [inner_Entry] user_Platform in
  let declared := ToLower (GoLib := ascii_GoLib) (Profile_Platform inner_Profile) in
  let current := ToLower (GoLib := ascii_GoLib) (DistroID user_Platform) in
  Profile_Platform inner_Profile <> ""
  /\ declared <> current
  /\ HasPrefix current declared = false
  /\ declared <> "linux"
  /\ matchesPlatform (H := ascii_GoLib) l inner_Profile = true
  /\ GetAllTasks (H := ascii_GoLib) l = Ok [plain_Task "kernel" "uname -a" "inner"].
Proof. repeat split; try discriminate; vm_compute; reflexivity. Qed.

Lemma LoadAll_platform_filter_witness :
  let l := NewLoader [inner_Entry] user_Platform in
  (forall profile,
      matchesPlatform (H := ascii_GoLib) l profile = true <->
      Profile_Platform profile = ""
      \/ ToLower (GoLib := ascii_GoLib) (Profile_Platform profile)
         = ToLower (GoLib := ascii_GoLib) (DistroID (Loader_platform l))
      \/ Contains (ToLower (GoLib := ascii_GoLib) (DistroID (Loader_platform l)))
                  (ToLower (GoLib := ascii_GoLib) (Profile_Platform profile)) = true
      \/ (ToLower (GoLib := ascii_GoLib) (Profile_Platform profile) = "linux"
          /\ OS (Loader_platform l) = "linux"))
  /\ (exists loaded,
         Forall2 (fun e p => loadProfile e = Ok p)
                 (filter (fun e => isProfileFile e = true) (Loader_fs l)) loaded
         /\ [{| Profile_Name := "inner"; Profile_Description := "";
                Profile_Platform := "ch_li";
                Profile_Tasks := [plain_Task "kernel" "uname -a" "inner"] |}]
            = filter (fun p => matchesPlatform (H := ascii_GoLib) l p = true) loaded)
  /\ GetAllTasks (H := ascii_GoLib) l
     = Ok (concat (Profile_Tasks <$>
             [{| Profile_Name := "inner"; Profile_Description := "";
                 Profile_Platform := "ch_li";
                 Profile_Tasks := [plain_Task "kernel" "uname -a" "inner"] |}])).
Proof.
  apply (@LoadAll_platform_filter ascii_GoLib
           (NewLoader [inner_Entry] user_Platform)). reflexivity.
Defined.

(** ** The report *)

Section Report.
Context `{lib : GoLib}.

Lemma foldl_snoc {A B} (f : A -> B -> A) (a : A) (l : list B) (x : B) :
  foldl f a (l ++ [x]) = f (foldl f a l) x.
Proof. rewrite foldl_app. reflexivity. Qed.

Lemma grouped_step (rs : list TaskResult) (res : TaskResult)
    (acc : gmap string (list TaskResult) * list string) :
  grouped rs acc -> grouped (rs ++ [res]) (groupByCategory_step acc res).
Proof.
  destruct acc as [m order]. intros (Hres & Hsome & Hin & Hnodup).
  unfold groupByCategory_step, grouped. simpl in *.
  set (cat := categoryLabel res).
  repeat split.
  - intros name. rewrite filter_app. destruct (decide (cat = name)) as [<-|Hne].
    + rewrite lookup_insert_eq. simpl. rewrite Hres.
      rewrite filter_cons_True by reflexivity. reflexivity.
    + rewrite lookup_insert_ne by exact Hne.
      rewrite filter_cons_False by (fold cat; congruence).
      rewrite filter_nil, app_nil_r. apply Hres.
  - destruct (decide (cat = name)) as [<-|Hne].
    + intros _. destruct (m !! cat) eqn:E.
      * apply Hsome. rewrite E. eauto.
      * apply elem_of_app. right. apply list_elem_of_singleton. reflexivity.
    + rewrite lookup_insert_ne by exact Hne. intros Hs.
      apply Hsome in Hs. destruct (m !! cat); [exact Hs|].
      apply elem_of_app. left. exact Hs.
  - destruct (decide (cat = name)) as [<-|Hne].
    + intros _. rewrite lookup_insert_eq. eauto.
    + rewrite lookup_insert_ne by exact Hne. intros Hn. apply Hsome.
      destruct (m !! cat); [exact Hn|].
      apply elem_of_app in Hn as [Hn|Hn]; [exact Hn|].
      apply list_elem_of_singleton in Hn. congruence.
  - rewrite fmap_app, elem_of_app. intros Hn.
    destruct (m !! cat) eqn:E.
    + left. apply Hin. exact Hn.
    + apply elem_of_app in Hn as [Hn|Hn]; [left; apply Hin; exact Hn|right; exact Hn].
  - rewrite fmap_app, elem_of_app. intros [Hn|Hn].
    + apply Hin in Hn. destruct (m !! cat); [exact Hn|].
      apply elem_of_app. left. exact Hn.
    + apply list_elem_of_singleton in Hn. subst name. fold cat.
      destruct (m !! cat) eqn:E.
      * apply Hsome. rewrite E. eauto.
      * apply elem_of_app. right. apply list_elem_of_singleton. reflexivity.
  - destruct (m !! cat) eqn:E; [exact Hnodup|].
    apply NoDup_app. split; [exact Hnodup|]. split; [|apply NoDup_singleton].
    intros name Hn Hc. apply list_elem_of_singleton in Hc. subst name.
    apply Hsome in Hn. rewrite E in Hn. destruct Hn as [? [=]].
Qed.

Lemma grouped_fold (rs : list TaskResult) :
  grouped rs (foldl groupByCategory_step (∅, []) rs).
Proof.
  induction rs as [|res rs IH] using rev_ind.
  - repeat split; simpl; try (intros Hn; inversion Hn; fail).
    + intros [? Hn]. rewrite lookup_empty in Hn. discriminate.
    + constructor.
  - rewrite foldl_snoc. apply grouped_step. exact IH.
Qed.

(** C2, as the code has it.  The sections of the Full report are the
    labels of the results, each once, in the order of their bytes; the
    label of a result is [strings.Title] of its category, and [General]
    when the category is unset; a section holds exactly the results
    with its label, in their original order: two results share a
    section exactly when [strings.Title] gives their categories the
    same label. *)
Theorem groupByCategory_spec (r : MarkdownReport) :
  Title "General" = "General" ->
  let groups := groupByCategory r in
  StronglySorted String.le (group_name <$> groups)
  /\ NoDup (group_name <$> groups)
  /\ (forall name, name ∈ group_name <$> groups
                   <-> exists res, res ∈ Results r /\ categoryLabel res = name)
  /\ (forall g, g ∈ groups ->
                group_results g
                = filter (fun res => categoryLabel res = group_name g) (Results r))
  /\ (forall res, Category res = "" -> categoryLabel res = "General")
  /\ (forall res, Category res <> "" -> categoryLabel res = Title (Category res)).
Proof.
  intros Hgeneral groups. subst groups. unfold groupByCategory.
  pose proof (grouped_fold (Results r)) as Hg.
  destruct (foldl groupByCategory_step (∅, []) (Results r)) as [m order].
  destruct Hg as (Hres & Hsome & Hin & Hnodup). simpl in *.
  assert (Hnames : forall l : list string,
             group_name <$> ((fun name => {| group_name := name;
                                group_results := default [] (m !! name) |}) <$> l) = l).
  { intros l. rewrite <- list_fmap_compose. simpl. apply list_fmap_id. }
  rewrite Hnames. unfold sort_Strings. repeat split.
  - apply StronglySorted_merge_sort; apply _.
  - rewrite merge_sort_Permutation. exact Hnodup.
  - rewrite merge_sort_Permutation. intros Hn. apply Hin in Hn.
    apply list_elem_of_fmap in Hn as (res & -> & Hr). eauto.
  - rewrite merge_sort_Permutation. intros (res & Hr & <-).
    apply Hin. apply list_elem_of_fmap_2. exact Hr.
  - intros g Hg. apply list_elem_of_fmap in Hg as (name & -> & _). simpl. apply Hres.
  - intros res Hcat. unfold categoryLabel. rewrite Hcat. exact Hgeneral.
  - intros res Hcat. unfold categoryLabel.
    destruct (String.eqb_spec (Category res) ""); [contradiction|reflexivity].
Qed.

(** *** The errors section *)

Lemma collectErrors_fold (rs errors skipped : list TaskResult) :
  foldl collectErrors (errors, skipped) rs
  = (errors ++ filter (fun res => Status_ res = StatusFailed) rs,
     skipped ++ filter (fun res => Status_ res = StatusSkipped) rs).
Proof.
  revert errors skipped. induction rs as [|res rs IH]; intros errors skipped.
  - simpl. rewrite !app_nil_r. reflexivity.
  - simpl. rewrite !filter_cons.
    destruct (Status_ res) eqn:E; rewrite IH;
      repeat (first [rewrite decide_True by congruence
                    |rewrite decide_False by congruence]);
      rewrite <- ?app_assoc; reflexivity.
Qed.

Lemma foldl_lines (f : TaskResult -> string) (rs : list TaskResult) (b : string) :
  foldl (fun b result => b +:+ f result) b rs = b +:+ concat_strings (f <$> rs).
Proof.
  revert b. induction rs as [|res rs IH]; intros b; simpl.
  - rewrite app_empty_r. reflexivity.
  - rewrite IH, app_assoc_s. reflexivity.
Qed.

Lemma length_zero_nil {A} (l : list A) :
  (Z.of_nat (length l) =? 0)%Z = bool_decide (l = []).
Proof. destruct l; [reflexivity|]. simpl length. destruct (Z.eqb_spec (Z.of_nat (S (length l))) 0); [lia|reflexivity]. Qed.

(** C10.  With no failed and no skipped result [writeErrorsSection]
    writes nothing, so that the content of the report ends with its
    last category; otherwise it writes the heading [## Errors &
    Skipped] between line feeds, then for every failed result, in the
    order of the results, the line [- **name**: Failed (error)], with
    [Unknown error] for an empty error, and then for every skipped
    result, in the order of the results, the line [- **name**: Skipped
    (reason)], with [Unknown reason] for an empty reason.  The text is
    given in full: nothing else is written, and the section is empty
    exactly when no result is failed or skipped. *)
Theorem writeErrorsSection_spec (r : MarkdownReport) (b : string) :
  let failed := filter (fun res => Status_ res = StatusFailed) (Results r) in
  let skipped := filter (fun res => Status_ res = StatusSkipped) (Results r) in
  let failedLine := fun res =>
    "- **" +:+ Name res +:+ "**: Failed ("
    +:+ (if String.eqb (Error res) "" then "Unknown error" else Error res)
    +:+ ")" +:+ nl in
  let skippedLine := fun res =>
    "- **" +:+ Name res +:+ "**: Skipped ("
    +:+ (if String.eqb (SkipReason res) "" then "Unknown reason" else SkipReason res)
    +:+ ")" +:+ nl in
  let section :=
    if bool_decide (failed = []) && bool_decide (skipped = []) then ""
    else nl +:+ "## Errors & Skipped" +:+ nl +:+ nl
         +:+ concat_strings (failedLine <$> failed)
         +:+ concat_strings (skippedLine <$> skipped) in
  writeErrorsSection r b = b +:+ section
  /\ generateContent r = foldl writeCategory "" (groupByCategory r) +:+ section
  /\ (section = "" <-> failed = [] /\ skipped = []).
Proof.
  intros failed skipped failedLine skippedLine' section.
  assert (Hw : forall b', writeErrorsSection r b' = b' +:+ section).
  { intros b'. unfold writeErrorsSection. rewrite collectErrors_fold. simpl.
    fold failed skipped. rewrite !length_zero_nil. subst section.
    destruct (bool_decide (failed = []) && bool_decide (skipped = [])).
    - rewrite app_empty_r. reflexivity.
    - rewrite !foldl_lines, !app_assoc_s. reflexivity. }
  split; [apply Hw|]. split; [unfold generateContent; apply Hw|].
  subst section.
  destruct (decide (failed = [])) as [Hf|Hf], (decide (skipped = [])) as [Hs|Hs];
    rewrite ?(bool_decide_eq_true_2 _ Hf), ?(bool_decide_eq_false_2 _ Hf),
            ?(bool_decide_eq_true_2 _ Hs), ?(bool_decide_eq_false_2 _ Hs); simpl;
    (split; [intros He|intros [? ?]]); try tauto; try contradiction;
    unfold nl in He; rewrite app_String in He; discriminate.
Qed.

End Report.

(** C2 as stated fails: [strings.Title] leaves the letters after the
    first as they are, so [network] and [Network] share the section
    [Network] and [NETWORK] has a section of its own. *)
Lemma groupByCategory_case_variants :
  let r := report_of [success_result "a" "network" "ok";
                      success_result "b" "Network" "ok";
                      success_result "c" "NETWORK" "ok"] in
  group_name <$> groupByCategory (H := ascii_GoLib) r = ["NETWORK"; "Network"]
  /\ (fun g => Name <$> group_results g) <$> groupByCategory (H := ascii_GoLib) r
     = [["c"]; ["a"; "b"]]
  /\ length (groupByCategory (H := ascii_GoLib) r) <> 1.
Proof. repeat split; try (vm_compute; reflexivity). vm_compute. discriminate. Qed.

Lemma groupByCategory_spec_witness :
  let r := report_of [success_result "a" "network" "ok";
                      success_result "b" "" "ok";
                      success_result "c" "NETWORK" "ok"] in
  let groups := groupByCategory (H := ascii_GoLib) r in
  let label := categoryLabel (H := ascii_GoLib) in
  StronglySorted String.le (group_name <$> groups)
  /\ NoDup (group_name <$> groups)
  /\ (forall name, name ∈ group_name <$> groups
                   <-> exists res, res ∈ Results r /\ label res = name)
  /\ (forall g, g ∈ groups ->
                group_results g
                = filter (fun res => label res = group_name g) (Results r))
  /\ (forall res, Category res = "" -> label res = "General")
  /\ (forall res, Category res <> ""
                  -> label res = Title (GoLib := ascii_GoLib) (Category res)).
Proof.
  apply (@groupByCategory_spec ascii_GoLib
           (report_of [success_result "a" "network" "ok";
                       success_result "b" "" "ok";
                       success_result "c" "NETWORK" "ok"])).
  reflexivity.
Defined.

(** ** The token count without a tokenizer *)

Section TokenEstimate.
Context `{lib : GoLib} `{host : Host}.

Lemma reportHeader_len (r : MarkdownReport) (tokenCount : Z) :
  (67 <= len (reportHeader r tokenCount))%Z.
Proof.
  unfold reportHeader.
  destruct (negb (String.eqb (WM (Report_Platform r)) ""));
    rewrite !len_app;
    pose proof (len_nonneg (Time_Format RFC3339 (Generated r)));
    pose proof (len_nonneg (DistroID (Report_Platform r)));
    pose proof (len_nonneg (WM (Report_Platform r)));
    pose proof (len_nonneg (Itoa tokenCount));
    change (len nl) with 1%Z;
    change (len "# SysProbe Diagnostic Report") with 28%Z;
    change (len "Generated: ") with 11%Z;
    change (len "Platform: ") with 10%Z;
    change (len "Token Count: ") with 13%Z;
    change (len " (") with 2%Z; change (len ")") with 1%Z; lia.
Qed.

(** C9, as the code has it.  Without a tokenizer none of the three
    generators returns an error.  The Minified and the Intro generator
    return their text with a fourth of its length in bytes.  The Full
    generator returns the header followed by the content, with a fourth
    of the length of the content alone, which is also the count the
    header shows and is less than a fourth of the length of the text
    returned. *)
Theorem Generate_without_tokenizer (r : MarkdownReport) (err : string) :
  tokenizer_Get = Err err ->
  let estimate := fun text => (len text / 4)%Z in
  Generate r
  = (reportHeader r (estimate (generateContent r)) +:+ generateContent r,
     estimate (generateContent r), None)
  /\ (estimate (generateContent r) < estimate (Generate r).1.1)%Z
  /\ GenerateMinified r = (minifiedContent r, estimate (minifiedContent r), None)
  /\ GenerateIntro r = (introContent r, estimate (introContent r), None).
Proof.
  intros Herr estimate.
  unfold Generate, GenerateMinified, GenerateIntro, NewTokenCounter. rewrite Herr.
  split; [reflexivity|]. split; [|split; reflexivity].
  simpl. unfold generateWithTokenCount, estimate. rewrite len_app.
  pose proof (reportHeader_len r (len (generateContent r) / 4)) as Hh.
  pose proof (len_nonneg (generateContent r)) as Hc.
  apply Z.div_lt_upper_bound; [lia|].
  pose proof (Z.mul_div_le (len (reportHeader r (len (generateContent r) / 4))
                            + len (generateContent r)) 4 ltac:(lia)) as H1.
  pose proof (Z.mod_pos_bound (len (reportHeader r (len (generateContent r) / 4))
                               + len (generateContent r)) 4 ltac:(lia)) as H2.
  pose proof (Z.div_mod (len (reportHeader r (len (generateContent r) / 4))
                         + len (generateContent r)) 4 ltac:(lia)) as H3.
  lia.
Qed.

End TokenEstimate.

(** C9 as stated fails for the Full report: the count returned without
    a tokenizer is a fourth of the content under the header, 9 here,
    and a fourth of the text returned is 36. *)
Lemma Generate_estimate_of_content :
  let r := report_of [success_result "a" "network" "ok"] in
  let out := Generate (H := ascii_GoLib) (H0 := quick_Host) r in
  out.1.2 = 9%Z /\ (len out.1.1 / 4)%Z = 36%Z /\ out.2 = None.
Proof. vm_compute. repeat split; reflexivity. Qed.

Lemma Generate_without_tokenizer_witness :
  let r := report_of [success_result "a" "network" "ok"] in
  let estimate := fun text => (len text / 4)%Z in
  Generate (H := ascii_GoLib) (H0 := quick_Host) r
  = (reportHeader (H := ascii_GoLib) r (estimate (generateContent (H := ascii_GoLib) r))
     +:+ generateContent (H := ascii_GoLib) r,
     estimate (generateContent (H := ascii_GoLib) r), None)
  /\ (estimate (generateContent (H := ascii_GoLib) r)
      < estimate (Generate (H := ascii_GoLib) (H0 := quick_Host) r).1.1)%Z
  /\ GenerateMinified (H := ascii_GoLib) (H0 := quick_Host) r
     = (minifiedContent (H := ascii_GoLib) r,
        estimate (minifiedContent (H := ascii_GoLib) r), None)
  /\ GenerateIntro (H := quick_Host) r = (introContent r, estimate (introContent r), None).
Proof.
  apply (@Generate_without_tokenizer ascii_GoLib quick_Host
           (report_of [success_result "a" "network" "ok"]) "tokenizer unavailable").
  reflexivity.
Defined.

(** ** The scheduler *)

Section Scheduler.
Context `{lib : GoLib} `{host : Host}.
Variable plat : Platform.
Variable tasks : list Task.
Variable workerCount : Z.

Lemma Run_expected (task : Task) (tr calls : list Event) (result : TaskResult) :
  Run (NewRunner plat) task tr = (result, calls) -> result = expected plat task.
Proof.
  intros Hrun. unfold expected. rewrite (Run_result _ task [] tr), Hrun. reflexivity.
Qed.

Lemma sched_inv_init : sched_inv plat tasks workerCount (sched_init tasks workerCount).
Proof.
  constructor; unfold fed; simpl.
  - apply length_replicate.
  - apply length_replicate.
  - lia.
  - lia.
  - constructor.
  - intros w idx Hw. apply lookup_replicate in Hw as [[=] _].
  - intros w Hw. apply lookup_replicate in Hw as [[=] _].
  - discriminate.
  - intros i task _. left. lia.
  - reflexivity.
Qed.

Lemma insert_nil_inv {A} (l : list A) (i : nat) (x : A) : <[i:=x]> l = [] -> l = [].
Proof. intros Hl. apply nil_length_inv. rewrite <- (length_insert l i x), Hl. reflexivity. Qed.

Lemma sched_inv_step (s s' : Sched) :
  sched_inv plat tasks workerCount s -> sched_step plat tasks s s' ->
  sched_inv plat tasks workerCount s'.
Proof.
  intros [Hrl Hwl Hfed Hcl Hcr Hrr Hdone Hret Hidx Hidle] Hstep.
  destruct Hstep as [s i Hpc Hi Hcap|s i Hpc Hi|s w idx rest Hw Hchan
                    |s w idx task result calls Hw Htask Hrun|s w Hw Hchan Hclosed
                    |s Hpc Hall];
    unfold fed, closed in *; simpl in *.
  - (* send *)
    rewrite Hpc in *. constructor; unfold fed, closed; simpl; try assumption.
    + rewrite length_app. simpl. lia.
    + apply Forall_app. split; [assumption|]. repeat constructor. assumption.
    + intros w Hw. destruct (Hdone w Hw) as [_ [=]].
    + discriminate.
    + intros j task Hj. destruct (Hidx j task Hj) as [Hle|[Hin|Hrest]].
      * destruct (decide (j = i)) as [->|Hne].
        -- right. left. apply elem_of_app. right. apply list_elem_of_singleton. reflexivity.
        -- left. lia.
      * right. left. apply elem_of_app. left. assumption.
      * right. right. assumption.
  - (* close *)
    rewrite Hpc in *. constructor; unfold fed, closed; simpl; try assumption.
    + lia.
    + lia.
    + intros w Hw. destruct (Hdone w Hw) as [_ [=]].
    + discriminate.
    + intros j task Hj. destruct (Hidx j task Hj) as [Hle|Hrest].
      * apply lookup_lt_Some in Hj. lia.
      * right. assumption.
  - (* receive *)
    assert (Hwlt : w < length (workers s)) by (apply lookup_lt_Some in Hw; assumption).
    rewrite Hchan in *. simpl in *.
    constructor; unfold fed, closed; simpl; try assumption.
    + rewrite length_insert. assumption.
    + destruct (main_pc s); lia.
    + inversion Hcr; assumption.
    + intros w' idx' Hw'. apply list_lookup_insert_Some in Hw' as [(_ & [= <-] & _)|[_ Hw']].
      * inversion Hcr; assumption.
      * eapply Hrr. eassumption.
    + intros w' Hw'. apply list_lookup_insert_Some in Hw' as [(_ & [=] & _)|[_ Hw']].
      destruct (Hdone w' Hw') as [[=] _].
    + intros Hr. specialize (Hret Hr). rewrite Forall_lookup in Hret.
      specialize (Hret w _ Hw). discriminate.
    + intros j task Hj. destruct (Hidx j task Hj) as [Hle|[Hin|[[w' Hw']|Hres]]].
      * left. assumption.
      * apply elem_of_cons in Hin as [->|Hin].
        -- right. right. left. exists w. apply list_lookup_insert_eq. assumption.
        -- right. left. assumption.
      * right. right. left. exists w'.
        rewrite list_lookup_insert_ne; [assumption|]. intros ->. congruence.
      * right. right. right. assumption.
    + intros Hnil. apply insert_nil_inv in Hnil. rewrite Hnil in Hw. discriminate.
  - (* run *)
    assert (Hwlt : w < length (workers s)) by (apply lookup_lt_Some in Hw; assumption).
    apply Run_expected in Hrun. subst result.
    constructor; unfold fed, closed; simpl; try assumption.
    + rewrite length_insert. assumption.
    + rewrite length_insert. assumption.
    + intros w' idx' Hw'. apply list_lookup_insert_Some in Hw' as [(_ & [=] & _)|[_ Hw']].
      eapply Hrr. eassumption.
    + intros w' Hw'. apply list_lookup_insert_Some in Hw' as [(_ & [=] & _)|[_ Hw']].
      apply Hdone with w'. assumption.
    + intros Hr. specialize (Hret Hr). rewrite Forall_lookup in Hret.
      specialize (Hret w _ Hw). discriminate.
    + intros j task' Hj. destruct (Hidx j task' Hj) as [Hle|[Hin|[[w' Hw']|Hres]]].
      * left. assumption.
      * right. left. assumption.
      * destruct (decide (w' = w)) as [->|Hne].
        -- rewrite Hw in Hw'. injection Hw' as ->.
           rewrite Htask in Hj. injection Hj as ->.
           right. right. right. apply list_lookup_insert_eq.
           rewrite Hrl. apply lookup_lt_Some in Htask. assumption.
        -- right. right. left. exists w'.
           rewrite list_lookup_insert_ne by congruence. assumption.
      * right. right. right. destruct (decide (idx = j)) as [->|Hne].
        -- rewrite Htask in Hj. injection Hj as ->.
           apply list_lookup_insert_eq. rewrite Hrl.
           apply lookup_lt_Some in Htask. assumption.
        -- rewrite list_lookup_insert_ne by assumption. assumption.
    + intros Hnil. apply insert_nil_inv in Hnil. rewrite Hnil in Hw. discriminate.
  - (* exit *)
    assert (Hwlt : w < length (workers s)) by (apply lookup_lt_Some in Hw; assumption).
    constructor; unfold fed, closed; simpl; try assumption.
    + rewrite length_insert. assumption.
    + intros w' idx' Hw'. apply list_lookup_insert_Some in Hw' as [(_ & [=] & _)|[_ Hw']].
      eapply Hrr. eassumption.
    + intros _ _. split; assumption.
    + intros Hr. specialize (Hret Hr). rewrite Forall_lookup in Hret.
      specialize (Hret w _ Hw). discriminate.
    + intros j task Hj. destruct (Hidx j task Hj) as [Hle|[Hin|[[w' Hw']|Hres]]].
      * left. assumption.
      * right. left. assumption.
      * right. right. left. exists w'.
        rewrite list_lookup_insert_ne; [assumption|]. intros ->. congruence.
      * right. right. right. assumption.
    + intros Hnil. apply insert_nil_inv in Hnil. rewrite Hnil in Hw. discriminate.
  - (* return *)
    rewrite Hpc in *. constructor; unfold fed, closed; simpl; try assumption.
    intros _. assumption.
Qed.

Lemma sched_inv_reachable (s : Sched) :
  sched_reachable plat tasks workerCount s -> sched_inv plat tasks workerCount s.
Proof.
  induction 1 as [|s s' _ IH Hstep]; [apply sched_inv_init|].
  eapply sched_inv_step; eassumption.
Qed.

Lemma sum_weight_insert (l : list Worker) (w : nat) (old new : Worker) :
  l !! w = Some old ->
  sum_list_with worker_weight (<[w:=new]> l) + worker_weight old
  = sum_list_with worker_weight l + worker_weight new.
Proof.
  revert w. induction l as [|x l IH]; intros [|w] Hw; simpl in *; try discriminate.
  - injection Hw as ->. lia.
  - specialize (IH w Hw). lia.
Qed.

(** Every step brings the end nearer: no execution runs for ever. *)
Lemma sched_step_measure (s s' : Sched) :
  sched_step plat tasks s s' -> sched_measure tasks s' < sched_measure tasks s.
Proof.
  intros Hstep.
  destruct Hstep as [s i Hpc Hi Hcap|s i Hpc Hi|s w idx rest Hw Hchan
                    |s w idx task result calls Hw Htask Hrun|s w Hw Hchan Hclosed
                    |s Hpc Hall];
    unfold sched_measure; simpl.
  - rewrite Hpc, length_app. simpl. lia.
  - rewrite Hpc. lia.
  - rewrite Hchan. simpl.
    pose proof (sum_weight_insert _ _ _ (WRunning idx) Hw) as Hs. simpl in Hs. lia.
  - pose proof (sum_weight_insert _ _ _ WReceiving Hw) as Hs. simpl in Hs. lia.
  - pose proof (sum_weight_insert _ _ _ WDone Hw) as Hs. simpl in Hs. lia.
  - rewrite Hpc. lia.
Qed.

(** An execution that has not returned can take a step: the scheduler
    does not block, with any number of workers. *)
Lemma sched_progress (s : Sched) :
  sched_inv plat tasks workerCount s -> main_pc s <> Returned ->
  exists s', sched_step plat tasks s s'.
Proof.
  intros [Hrl Hwl Hfed Hcl Hcr Hrr Hdone Hret Hidx Hidle] Hpc.
  destruct (main_pc s) as [i| |] eqn:Epc; [| |contradiction].
  - unfold fed in *. rewrite Epc in *.
    destruct (decide (i < length tasks)) as [Hi|Hi].
    + eexists. eapply step_send; [eassumption|assumption|lia].
    + eexists. eapply step_close; [eassumption|lia].
  - destruct (decide (Forall (fun w => w = WDone) (workers s))) as [Hall|Hsome].
    { eexists. apply step_return; assumption. }
    apply not_Forall_Exists in Hsome; [|apply _].
    apply Exists_exists in Hsome as (wk & Hin & Hne).
    apply list_elem_of_lookup in Hin as [w Hw].
    simpl in Hne. destruct wk as [|idx|]; [| |congruence].
    + destruct (taskChan s) as [|idx rest] eqn:Echan.
      * eexists. eapply step_exit; [eassumption|assumption|].
        unfold closed. rewrite Epc. reflexivity.
      * eexists. eapply step_receive; eassumption.
    + pose proof (Hrr w idx Hw) as Hidx'.
      apply lookup_lt_is_Some_2 in Hidx' as [task Htask].
      destruct (Run (NewRunner plat) task (host_calls s)) as [result calls] eqn:Hrun.
      eexists. eapply step_run; eassumption.
Qed.

Lemma sched_returns_from (n : nat) (s : Sched) :
  sched_reachable plat tasks workerCount s -> sched_measure tasks s < n ->
  exists s', sched_reachable plat tasks workerCount s' /\ main_pc s' = Returned.
Proof.
  revert s. induction n as [|n IH]; intros s Hreach Hn; [lia|].
  destruct (decide (main_pc s = Returned)) as [Hpc|Hpc]; [eauto|].
  destruct (sched_progress s (sched_inv_reachable s Hreach) Hpc) as [s' Hstep].
  apply (IH s').
  - eapply reach_step; eassumption.
  - apply sched_step_measure in Hstep. lia.
Qed.

Lemma runWithoutUI_returns :
  exists results, runWithoutUI plat tasks workerCount results.
Proof.
  destruct (sched_returns_from (S (sched_measure tasks (sched_init tasks workerCount)))
              (sched_init tasks workerCount)) as (s & Hreach & Hpc);
    [constructor|lia|].
  exists (sched_results s), s. auto.
Qed.

Lemma runWithoutUI_with_workers (results : list TaskResult) :
  (0 < workerCount)%Z ->
  runWithoutUI plat tasks workerCount results ->
  results = expected plat <$> tasks.
Proof.
  intros Hwc (s & Hreach & Hpc & <-).
  destruct (sched_inv_reachable s Hreach)
    as [Hrl Hwl Hfed Hcl Hcr Hrr Hdone Hret Hidx Hidle].
  specialize (Hret Hpc). rewrite Forall_lookup in Hret.
  assert (Hw0 : is_Some (workers s !! 0)) by (apply lookup_lt_is_Some_2; lia).
  destruct Hw0 as [w0 Hw0]. pose proof (Hret 0 w0 Hw0) as ->.
  destruct (Hdone 0 Hw0) as [Hchan _].
  apply list_eq. intros i. rewrite list_lookup_fmap.
  destruct (tasks !! i) as [task|] eqn:Htask; simpl.
  - destruct (Hidx i task Htask) as [Hle|[Hin|[[w Hw]|Hres]]].
    + unfold fed in Hle. rewrite Hpc in Hle. apply lookup_lt_Some in Htask. lia.
    + rewrite Hchan in Hin. inversion Hin.
    + specialize (Hret w _ Hw). discriminate.
    + exact Hres.
  - apply lookup_ge_None. rewrite Hrl. apply lookup_ge_None. exact Htask.
Qed.

Lemma runWithoutUI_without_workers (results : list TaskResult) :
  (workerCount <= 0)%Z ->
  runWithoutUI plat tasks workerCount results ->
  results = replicate (length tasks) TaskResult_zero.
Proof.
  intros Hwc (s & Hreach & Hpc & <-).
  destruct (sched_inv_reachable s Hreach)
    as [Hrl Hwl Hfed Hcl Hcr Hrr Hdone Hret Hidx Hidle].
  apply Hidle. apply nil_length_inv. lia.
Qed.

Lemma sched_run_reachable `{world : World} (s : Sched) :
  sched_run plat tasks workerCount s -> sched_reachable plat tasks workerCount s.
Proof.
  induction 1 as [|s s' _ IH [Hstep _]]; [constructor|].
  eapply reach_step; eassumption.
Qed.

(** When the commands of the tasks return, every step of the goroutines
    is one in which the call of [runner.Run] returns. *)
Lemma sched_step_returns `{world : World} (s s' : Sched) :
  ((0 < workerCount)%Z -> Forall (returns plat) tasks) ->
  sched_inv plat tasks workerCount s ->
  sched_step plat tasks s s' -> sched_step_returning plat tasks s s'.
Proof.
  intros Hall Hinv Hstep. split; [exact Hstep|].
  intros w idx task Hw _ Htask.
  apply lookup_lt_Some in Hw. rewrite (inv_workers_len _ _ _ _ Hinv) in Hw.
  assert (Hwc : (0 < workerCount)%Z) by lia.
  specialize (Hall Hwc). rewrite Forall_lookup in Hall. eapply Hall. exact Htask.
Qed.

Lemma sched_ends_from `{world : World} (n : nat) (s : Sched) :
  ((0 < workerCount)%Z -> Forall (returns plat) tasks) ->
  sched_reachable plat tasks workerCount s -> sched_measure tasks s < n ->
  sched_ends plat tasks s.
Proof.
  intros Hall. revert s. induction n as [|n IH]; intros s Hreach Hn; [lia|].
  destruct (decide (main_pc s = Returned)) as [Hpc|Hpc];
    [apply ends_returned; exact Hpc|].
  apply ends_step.
  - destruct (sched_progress s (sched_inv_reachable s Hreach) Hpc) as [s' Hstep].
    exists s'. apply sched_step_returns; [exact Hall| |exact Hstep].
    apply sched_inv_reachable. exact Hreach.
  - intros s' [Hstep _]. apply IH; [eapply reach_step; eassumption|].
    apply sched_step_measure in Hstep. lia.
Qed.

Lemma sched_ends_init `{world : World} :
  ((0 < workerCount)%Z -> Forall (returns plat) tasks) ->
  sched_ends plat tasks (sched_init tasks workerCount).
Proof.
  intros Hall.
  apply (sched_ends_from (S (sched_measure tasks (sched_init tasks workerCount))));
    [exact Hall|constructor|lia].
Qed.

(** An execution that always ends has an end. *)
Lemma sched_ends_run `{world : World} (s : Sched) :
  sched_ends plat tasks s -> sched_run plat tasks workerCount s ->
  exists s', sched_run plat tasks workerCount s' /\ main_pc s' = Returned.
Proof.
  induction 1 as [s Hpc|s [s' Hstep] _ IH]; intros Hrun; [eauto|].
  apply (IH s' Hstep). eapply run_step; eassumption.
Qed.

(** The index of a task whose command does not return stays where it
    is once a worker has taken it. *)
Lemma sched_run_holds `{world : World} (idx : nat) (task : Task) (s : Sched) :
  tasks !! idx = Some task -> ~ returns plat task ->
  sched_run plat tasks workerCount s ->
  fed tasks s <= idx \/ idx ∈ taskChan s
  \/ exists w, workers s !! w = Some (WRunning idx).
Proof.
  intros Htask Hstuck. induction 1 as [|s s' _ IH [Hstep Hguard]].
  - left. unfold fed. simpl. lia.
  - pose proof (lookup_lt_Some _ _ _ Htask) as Hidx.
    destruct Hstep as [s i Hpc Hi Hlen|s i Hpc Hi|s w idx' rest Hw Hchan
                      |s w idx' task' result calls Hw Htask' Hrun|s w Hw Hchan Hcl
                      |s Hpc Hall];
      unfold fed in *; simpl in *.
    + rewrite Hpc in IH. destruct IH as [Hle|[Hin|Hrunning]].
      * destruct (decide (i = idx)) as [->|Hne].
        -- right. left. apply elem_of_app. right. constructor.
        -- left. lia.
      * right. left. apply elem_of_app. left. exact Hin.
      * right. right. exact Hrunning.
    + rewrite Hpc in IH. destruct IH as [Hle|[Hin|Hrunning]]; [lia|auto..].
    + destruct IH as [Hle|[Hin|[w' Hw']]]; [auto| |].
      * rewrite Hchan in Hin. apply elem_of_cons in Hin as [->|Hin]; [|auto].
        right. right. exists w. apply list_lookup_insert_eq.
        eapply lookup_lt_Some. exact Hw.
      * right. right. exists w'. rewrite list_lookup_insert_ne; [exact Hw'|].
        intros ->. rewrite Hw in Hw'. discriminate.
    + destruct IH as [Hle|[Hin|[w' Hw']]]; [auto..|].
      right. right. exists w'. rewrite list_lookup_insert_ne; [exact Hw'|].
      intros ->. rewrite Hw in Hw'. injection Hw' as ->.
      apply Hstuck. apply (Hguard w' idx task Hw); [|exact Htask].
      apply list_lookup_insert_eq. eapply lookup_lt_Some. exact Hw.
    + destruct IH as [Hle|[Hin|[w' Hw']]]; [auto..|].
      right. right. exists w'. rewrite list_lookup_insert_ne; [exact Hw'|].
      intros ->. rewrite Hw in Hw'. discriminate.
    + rewrite Hpc in IH. exact IH.
Qed.

(** With a worker and a task whose command does not return,
    [runWithoutUI] does not return. *)
Lemma sched_run_hangs `{world : World} (s : Sched) :
  (0 < workerCount)%Z -> Exists (fun task => ~ returns plat task) tasks ->
  sched_run plat tasks workerCount s -> main_pc s <> Returned.
Proof.
  intros Hwc Hex Hrun Hpc.
  apply Exists_exists in Hex as (task & Hin & Hstuck).
  apply list_elem_of_lookup_1 in Hin as [idx Htask].
  pose proof (sched_run_holds idx task s Htask Hstuck Hrun) as Hheld.
  destruct (sched_inv_reachable s (sched_run_reachable s Hrun))
    as [Hrl Hwl Hfed Hcl Hcr Hrr Hdone Hret Hidx Hidle].
  specialize (Hret Hpc). rewrite Forall_lookup in Hret.
  assert (Hw0 : is_Some (workers s !! 0)) by (apply lookup_lt_is_Some_2; lia).
  destruct Hw0 as [w0 Hw0]. pose proof (Hret 0 w0 Hw0) as ->.
  destruct (Hdone 0 Hw0) as [Hchan _].
  destruct Hheld as [Hle|[Hin|[w Hw]]].
  - unfold fed in Hle. rewrite Hpc in Hle. apply lookup_lt_Some in Htask. lia.
  - rewrite Hchan in Hin. inversion Hin.
  - specialize (Hret w _ Hw). discriminate.
Qed.

(** With at least one worker, and when [cmd.Run] returns for the
    command of every task that can run, [runWithoutUI] returns on every
    interleaving of its goroutines: until it has returned a step can be
    taken, and every step brings the return nearer.  When the command
    of some task does not return, [runWithoutUI] does not return
    either.  What it returns, when it does, is the list of the results
    of [runner.Run] on the tasks, in the order of the tasks, whatever
    the order of the steps was. *)
Theorem runWithoutUI_input_order `{world : World} :
  (0 < workerCount)%Z ->
  (Forall (returns plat) tasks ->
     sched_ends plat tasks (sched_init tasks workerCount)
     /\ forall s, sched_run plat tasks workerCount s -> main_pc s <> Returned ->
          exists s', sched_step_returning plat tasks s s')
  /\ (Exists (fun task => ~ returns plat task) tasks ->
        forall s, sched_run plat tasks workerCount s -> main_pc s <> Returned)
  /\ (forall s, sched_run plat tasks workerCount s -> main_pc s = Returned ->
        sched_results s = expected plat <$> tasks
        /\ length (sched_results s) = length tasks)
  /\ (forall results, runWithoutUI plat tasks workerCount results ->
        results = expected plat <$> tasks /\ length results = length tasks)
  /\ (forall s s', sched_step_returning plat tasks s s' ->
        sched_measure tasks s' < sched_measure tasks s).
Proof.
  intros Hwc.
  assert (Hres : forall results, runWithoutUI plat tasks workerCount results ->
            results = expected plat <$> tasks /\ length results = length tasks).
  { intros results Hrun. apply runWithoutUI_with_workers in Hrun as ->; [|exact Hwc].
    split; [reflexivity|]. apply length_fmap. }
  split; [|split; [|split; [|split]]].
  - intros Hall. split; [apply sched_ends_init; auto|].
    intros s Hrun Hpc.
    pose proof (sched_inv_reachable s (sched_run_reachable s Hrun)) as Hinv.
    destruct (sched_progress s Hinv Hpc) as [s' Hstep].
    exists s'. apply sched_step_returns; auto.
  - intros Hex s Hrun. apply sched_run_hangs; assumption.
  - intros s Hrun Hpc. apply Hres. exists s.
    split; [apply sched_run_reachable; exact Hrun|auto].
  - exact Hres.
  - intros s s' [Hstep _]. apply sched_step_measure. exact Hstep.
Qed.

End Scheduler.

Lemma runWithoutUI_input_order_witness :
  let tasks := [plain_Task "kernel" "uname -a" "system"; sudo_Task] in
  let returns := returns (H := ascii_GoLib) (H0 := quick_Host) (H1 := writable_World)
                   user_Platform in
  let sched_run := sched_run (H := ascii_GoLib) (H0 := quick_Host) (H1 := writable_World)
                     user_Platform tasks 4 in
  let sched_step_returning :=
    sched_step_returning (H := ascii_GoLib) (H0 := quick_Host) (H1 := writable_World)
      user_Platform tasks in
  let expected := expected (H := ascii_GoLib) (H0 := quick_Host) user_Platform in
  (Forall returns tasks ->
     sched_ends (H := ascii_GoLib) (H0 := quick_Host) (H1 := writable_World)
       user_Platform tasks (sched_init tasks 4)
     /\ forall s, sched_run s -> main_pc s <> Returned ->
          exists s', sched_step_returning s s')
  /\ (Exists (fun task => ~ returns task) tasks ->
        forall s, sched_run s -> main_pc s <> Returned)
  /\ (forall s, sched_run s -> main_pc s = Returned ->
        sched_results s = expected <$> tasks
        /\ length (sched_results s) = length tasks)
  /\ (forall results,
        runWithoutUI (H := ascii_GoLib) (H0 := quick_Host) user_Platform tasks 4 results ->
        results = expected <$> tasks /\ length results = length tasks)
  /\ (forall s s', sched_step_returning s s' ->
        sched_measure tasks s' < sched_measure tasks s).
Proof.
  apply (@runWithoutUI_input_order ascii_GoLib quick_Host user_Platform
           [plain_Task "kernel" "uname -a" "system"; sudo_Task] 4 writable_World).
  reflexivity.
Defined.

(** C3, with no worker.  [runWithoutUI] is handed the count of the
    [-workers] flag as it is; with the count 0 it returns, no task has
    been run, and the result it returns for the task is the zero value,
    of status [Pending], where [runner.Run] gives [Success]. *)
Theorem runWithoutUI_no_workers :
  let task := plain_Task "kernel" "uname -a" "system" in
  let run := runWithoutUI (H := ascii_GoLib) (H0 := quick_Host) user_Platform [task] 0 in
  run [TaskResult_zero]
  /\ (forall results, run results -> results = [TaskResult_zero])
  /\ Status_ TaskResult_zero = StatusPending
  /\ expected (H := ascii_GoLib) (H0 := quick_Host) user_Platform task
     = {| Name := "kernel"; Command := "uname -a"; Category := "system";
          Status_ := StatusSuccess; Output := "Linux 6.1"; Error := "";
          Duration := 1000000; SkipReason := "" |}.
Proof.
  intros task run. split; [|split; [|split]].
  - destruct (@runWithoutUI_returns ascii_GoLib quick_Host user_Platform [task] 0)
      as [results Hrun].
    pose proof Hrun as Hzero.
    apply runWithoutUI_without_workers in Hzero; [|lia].
    subst results. exact Hrun.
  - intros results Hrun. apply runWithoutUI_without_workers in Hrun; [|lia]. exact Hrun.
  - reflexivity.
  - vm_compute. reflexivity.
Qed.

(** ** Scenarios *)

(** A successful task of category [system] and a skipped task: the
    content of the Full report has a section [System] with the output
    in a fenced block, and the errors section lists the skipped task
    with its reason. *)
Example full_report_scenario :
  generateContent (H := ascii_GoLib)
    (report_of [success_result "kernel" "system" "Linux 6.1";
                skipped_result (plain_Task "foo" "foo --version" "system")
                               "Missing dependency: foo"])
  = nl +:+ "## System" +:+ nl
    +:+ nl +:+ "### kernel" +:+ nl
    +:+ "```" +:+ nl +:+ "$ ip a" +:+ nl +:+ "Linux 6.1" +:+ nl +:+ "```" +:+ nl
    +:+ nl +:+ "## Errors & Skipped" +:+ nl +:+ nl
    +:+ "- **foo**: Skipped (Missing dependency: foo)" +:+ nl.
Proof. vm_compute. reflexivity. Qed.

(** The Intro report with no result of category [intro] is its
    preamble. *)
Example intro_report_without_intro_results :
  GenerateIntro (H := quick_Host)
    (report_of [success_result "kernel" "system" "Linux 6.1"])
  = ("# System Context" +:+ nl +:+ nl
     +:+ "Use this information to understand my environment when helping me."
     +:+ nl +:+ nl, 21%Z, None).
Proof. vm_compute. reflexivity. Qed.

(** A task whose dependency is missing is skipped with a reason that
    names it, whatever its other fields. *)
Example missing_dependency_scenario :
  (Run (H := ascii_GoLib) (H0 := quick_Host) (NewRunner root_Platform)
     {| Task_Name := "probe"; Task_Command := "true"; Task_Privilege := "sudo";
        Task_MaxLines := 3; Task_MaxBytes := 10;
        Task_Requires := ["definitely-nonexistent-binary-xyz"];
        Task_Tags := ["wayland"]; Task_Category := "system" |} []).1
  = skipped_result
      {| Task_Name := "probe"; Task_Command := "true"; Task_Privilege := "sudo";
         Task_MaxLines := 3; Task_MaxBytes := 10;
         Task_Requires := ["definitely-nonexistent-binary-xyz"];
         Task_Tags := ["wayland"]; Task_Category := "system" |}
      "Missing dependency: definitely-nonexistent-binary-xyz".
Proof. vm_compute. reflexivity. Qed.

(** The tags of a task are compared in lower case, and one match is
    enough. *)
Example MatchesTags_scenario :
  MatchesTags (H := ascii_GoLib) user_Platform ["X11"; "Hyprland"] = true
  /\ MatchesTags (H := ascii_GoLib) user_Platform ["x11"; "sway"] = false
  /\ MatchesTags (H := ascii_GoLib) user_Platform [] = true.
Proof. repeat split; vm_compute; reflexivity. Qed.

(** ** More on strings *)

Lemma prefix_app (p s : string) : String.prefix p (p +:+ s) = true.
Proof.
  induction p as [|c p IH]; [destruct s; reflexivity|].
  rewrite app_String. simpl. destruct (ascii_dec c c); [exact IH|congruence].
Qed.

Lemma prefix_spec (p s : string) :
  String.prefix p s = true <-> exists rest, s = p +:+ rest.
Proof.
  split.
  - revert s. induction p as [|c p IH]; intros s Hp.
    + exists s. reflexivity.
    + destruct s as [|d s]; [discriminate|]. simpl in Hp.
      destruct (ascii_dec c d) as [->|]; [|discriminate].
      destruct (IH s Hp) as [rest ->]. exists rest. reflexivity.
  - intros [rest ->]. apply prefix_app.
Qed.

Lemma Contains_eq (s substr : string) :
  Contains s substr
  = String.prefix substr s
    || match s with "" => false | String _ s' => Contains s' substr end.
Proof. destruct s; reflexivity. Qed.

Lemma Contains_app_r (s t p : string) :
  Contains t p = true -> Contains (s +:+ t) p = true.
Proof.
  intros Ht. induction s as [|c s IH]; [exact Ht|].
  rewrite app_String, Contains_eq, IH. apply orb_true_r.
Qed.

Lemma Contains_app_l (s t : string) : Contains (s +:+ t) s = true.
Proof. rewrite Contains_eq, prefix_app. reflexivity. Qed.

(** No text is found in the empty string but the empty one. *)
Lemma Contains_empty (p : string) : p <> "" -> Contains "" p = false.
Proof. destruct p; [congruence|reflexivity]. Qed.

Lemma prefix_byte (c d : ascii) (s : string) :
  String.prefix (String c "") (String d s) = bool_decide (c = d).
Proof.
  simpl. destruct (ascii_dec c d) as [->|Hne].
  - rewrite bool_decide_eq_true_2 by reflexivity. destruct s; reflexivity.
  - rewrite bool_decide_eq_false_2 by exact Hne. reflexivity.
Qed.

(** A byte occurs in a string exactly when [cut] finds it. *)
Lemma Contains_byte (s : string) (sep : ascii) :
  Contains s (String sep "") = bool_decide (is_Some (cut s sep)).
Proof.
  induction s as [|c s IH]; [reflexivity|].
  rewrite Contains_eq, IH. simpl.
  destruct (ascii_dec sep c) as [->|Hne].
  - rewrite Ascii.eqb_refl. destruct s; reflexivity.
  - destruct (Ascii.eqb_spec c sep) as [->|_]; [congruence|].
    simpl. destruct (cut s sep) as [[before after]|]; reflexivity.
Qed.

Lemma cut_Some (s : string) (sep : ascii) (before after : string) :
  cut s sep = Some (before, after) ->
  s = before +:+ String sep after /\ cut before sep = None.
Proof.
  revert before. induction s as [|c s IH]; intros before; [discriminate|].
  simpl. destruct (Ascii.eqb_spec c sep) as [->|Hne].
  - intros [= <- <-]. split; reflexivity.
  - destruct (cut s sep) as [[b a]|]; [|discriminate].
    intros [= <- <-]. destruct (IH b eq_refl) as [-> Hb].
    split; [reflexivity|]. simpl.
    destruct (Ascii.eqb_spec c sep); [contradiction|]. rewrite Hb. reflexivity.
Qed.

Lemma cut_app (before after : string) (sep : ascii) :
  cut before sep = None ->
  cut (before +:+ String sep after) sep = Some (before, after).
Proof.
  induction before as [|c before IH]; intros Hb.
  - simpl. rewrite Ascii.eqb_refl. reflexivity.
  - rewrite app_String. simpl in *. destruct (Ascii.eqb c sep); [discriminate|].
    destruct (cut before sep) as [[b a]|]; [discriminate|].
    rewrite IH by reflexivity. reflexivity.
Qed.

(** *** [strings.Trim] *)

Lemma trimLeftASCII_idem (s cutset : string) :
  trimLeftASCII (trimLeftASCII s cutset) cutset = trimLeftASCII s cutset.
Proof.
  induction s as [|c s IH]; [reflexivity|]. simpl.
  destruct (inCutset c cutset) eqn:E; [exact IH|]. simpl. rewrite E. reflexivity.
Qed.

Lemma trimLeftASCII_suffix (s cutset : string) :
  exists u, s = u +:+ trimLeftASCII s cutset.
Proof.
  induction s as [|c s [u IH]]; [exists ""; reflexivity|]. simpl.
  destruct (inCutset c cutset).
  - exists (String c u). rewrite app_String, <- IH. reflexivity.
  - exists "". reflexivity.
Qed.

(** A text on which [trimLeftASCII] does nothing keeps that with every
    prefix of it. *)
Lemma trimLeftASCII_fixed_prefix (p v cutset : string) :
  trimLeftASCII (p +:+ v) cutset = p +:+ v -> trimLeftASCII p cutset = p.
Proof.
  destruct p as [|c p]; [reflexivity|]. rewrite app_String. simpl.
  destruct (inCutset c cutset); [|reflexivity].
  intros Heq. pose proof (trimLeftASCII_suffix (p +:+ v) cutset) as [u Hu].
  apply (f_equal String.length) in Hu. apply (f_equal String.length) in Heq.
  rewrite (length_app_s u) in Hu. cbn [String.length] in Heq. lia.
Qed.

Lemma Trim_idem (s cutset : string) : Trim (Trim s cutset) cutset = Trim s cutset.
Proof.
  unfold Trim. set (t := trimRightASCII s cutset).
  assert (Ht : trimRightASCII t cutset = t).
  { unfold t, trimRightASCII. rewrite rev_involutive_s, trimLeftASCII_idem. reflexivity. }
  assert (Hr : trimRightASCII (trimLeftASCII t cutset) cutset = trimLeftASCII t cutset).
  { pose proof (f_equal String.rev Ht) as Hfix.
    unfold trimRightASCII in Hfix. rewrite rev_involutive_s in Hfix.
    destruct (trimLeftASCII_suffix t cutset) as [u Hu].
    assert (Hrev : String.rev t
                   = String.rev (trimLeftASCII t cutset) +:+ String.rev u).
    { rewrite Hu at 1. apply rev_app_distr_s. }
    rewrite Hrev in Hfix. apply trimLeftASCII_fixed_prefix in Hfix.
    unfold trimRightASCII. rewrite Hfix. apply rev_involutive_s. }
  rewrite Hr. apply trimLeftASCII_idem.
Qed.

(** ** Platform detection *)

Section Detection.
Context `{lib : GoLib} `{env : Env}.

Lemma parseOSRelease_line_ignored (m : gmap string string) (line : string) :
  HasPrefix line "#" = true \/ Contains line "=" = false ->
  parseOSRelease_line m line = m.
Proof.
  unfold parseOSRelease_line. intros [-> | ->]; [reflexivity|].
  rewrite orb_true_r. reflexivity.
Qed.

(** What a line does to the map: nothing, or one insertion. *)
Lemma parseOSRelease_line_cases (m : gmap string string) (line : string) :
  parseOSRelease_line m line = m
  \/ exists key rest,
       line = key +:+ String "=" rest /\ cut key "=" = None
       /\ HasPrefix line "#" = false
       /\ parseOSRelease_line m line = <[key := Trim rest quotes]> m.
Proof.
  unfold parseOSRelease_line.
  destruct (HasPrefix line "#") eqn:Hc; [left; reflexivity|].
  destruct (Contains line "=") eqn:Heq; [|left; reflexivity]. simpl.
  unfold SplitN2. destruct (cut line "=") as [[key rest]|] eqn:Hcut; [|left; reflexivity].
  right. exists key, rest. apply cut_Some in Hcut as [-> Hkey]. auto.
Qed.

Lemma parseOSRelease_line_assigns (m : gmap string string) (key rest : string) :
  cut key "=" = None -> HasPrefix (key +:+ String "=" rest) "#" = false ->
  parseOSRelease_line m (key +:+ String "=" rest) = <[key := Trim rest quotes]> m.
Proof.
  intros Hkey Hc. unfold parseOSRelease_line. rewrite Hc.
  change "="%string with (String "="%char "") at 1.
  rewrite Contains_byte, (cut_app key rest "=" Hkey). simpl.
  unfold SplitN2. rewrite (cut_app key rest "=" Hkey). reflexivity.
Qed.

Lemma parseOSRelease_line_other (m : gmap string string) (line key : string) :
  HasPrefix line (key +:+ "=") = false ->
  parseOSRelease_line m line !! key = m !! key.
Proof.
  intros Hp. destruct (parseOSRelease_line_cases m line) as [->|(k & rest & -> & Hk & _ & ->)];
    [reflexivity|].
  apply lookup_insert_ne. intros ->.
  unfold HasPrefix in Hp. change (String "="%char rest) with ("=" +:+ rest) in Hp.
  rewrite <- app_assoc_s, prefix_app in Hp. discriminate.
Qed.

Lemma parseOSRelease_fold_other (lines : list string) (m : gmap string string)
    (key : string) :
  Forall (fun line => HasPrefix line (key +:+ "=") = false) lines ->
  foldl parseOSRelease_line m lines !! key = m !! key.
Proof.
  intros Hall. revert m. induction Hall as [|line lines Hline _ IH]; intros m; simpl.
  - reflexivity.
  - rewrite IH. apply parseOSRelease_line_other. exact Hline.
Qed.

(** The last line that assigns a key decides its value: when a line
    [key=rest] has a key with no [=] and is no comment, and no later
    line starts with [key=], the map holds for the key the rest of the
    line without the quotes around it, whatever the lines before. *)
Theorem parseOSRelease_last_assignment (before after : list string)
    (key rest : string) (scanErr : option string) :
  os_release = Ok (before ++ (key +:+ String "=" rest) :: after, scanErr) ->
  cut key "=" = None ->
  HasPrefix key "#" = false ->
  Forall (fun line => HasPrefix line (key +:+ "=") = false) after ->
  parseOSRelease.1 !! key = Some (Trim rest quotes)
  /\ parseOSRelease.2 = scanErr.
Proof.
  intros Hfile Hkey Hcomment Hafter. unfold parseOSRelease. rewrite Hfile. simpl.
  split; [|reflexivity].
  rewrite foldl_app. simpl. rewrite parseOSRelease_fold_other by exact Hafter.
  rewrite parseOSRelease_line_assigns; [apply lookup_insert_eq|exact Hkey|].
  unfold HasPrefix in *. destruct key as [|c key]; [reflexivity|].
  rewrite app_String. change "#"%string with (String "#"%char "") in *.
  rewrite prefix_byte in *. exact Hcomment.
Qed.

Lemma parseOSRelease_fold_inv (P : string -> string -> Prop) (lines : list string)
    (m : gmap string string) :
  (forall key rest, cut key "=" = None -> HasPrefix (key +:+ String "=" rest) "#" = false ->
                    P key (Trim rest quotes)) ->
  (forall key value, m !! key = Some value -> P key value) ->
  forall key value,
    foldl parseOSRelease_line m lines !! key = Some value -> P key value.
Proof.
  intros Hline. revert m. induction lines as [|line lines IH]; intros m Hm; simpl.
  - exact Hm.
  - apply IH. intros key value.
    destruct (parseOSRelease_line_cases m line) as [->|(k & rest & -> & Hk & Hc & ->)];
      [apply Hm|].
    destruct (decide (k = key)) as [->|Hne].
    + rewrite lookup_insert_eq. intros [= <-]. apply Hline; assumption.
    + rewrite lookup_insert_ne by exact Hne. apply Hm.
Qed.

(** Every key of the map has no [=] and does not start a comment, and
    every value has no quote left at either end; an error of [os.Open]
    gives the empty map. *)
Theorem parseOSRelease_entries (key value : string) :
  parseOSRelease.1 !! key = Some value ->
  Contains key "=" = false /\ HasPrefix key "#" = false
  /\ Trim value quotes = value
  /\ exists lines scanErr, os_release = Ok (lines, scanErr).
Proof.
  unfold parseOSRelease. destruct os_release as [[lines scanErr]|err]; simpl.
  - intros Hlookup. split; [|split; [|split]]; [| | |eauto].
    + revert key value Hlookup.
      apply (parseOSRelease_fold_inv (fun key _ => Contains key "=" = false)).
      * intros key rest Hkey _. change "="%string with (String "="%char "").
        rewrite Contains_byte, Hkey. reflexivity.
      * intros key value Hm. rewrite lookup_empty in Hm. discriminate.
    + revert key value Hlookup.
      apply (parseOSRelease_fold_inv (fun key _ => HasPrefix key "#" = false)).
      * intros key rest _ Hc. unfold HasPrefix in *.
        destruct key as [|c key]; [reflexivity|].
        rewrite app_String in Hc. change "#"%string with (String "#"%char "") in *.
        rewrite prefix_byte in *. exact Hc.
      * intros key value Hm. rewrite lookup_empty in Hm. discriminate.
    + revert key value Hlookup.
      apply (parseOSRelease_fold_inv (fun _ value => Trim value quotes = value)).
      * intros _ rest _ _. apply Trim_idem.
      * intros key value Hm. rewrite lookup_empty in Hm. discriminate.
  - rewrite lookup_empty. discriminate.
Qed.

End Detection.

Lemma parseOSRelease_last_assignment_witness :
  (parseOSRelease (H := freebsd_Env)).1 !! "ID" = Some "freebsd"
  /\ (parseOSRelease (H := freebsd_Env)).2 = None.
Proof.
  apply (@parseOSRelease_last_assignment freebsd_Env
           ["# os-release"; "NAME=FreeBSD";
            "ID=" +:+ quotes +:+ "FreeBSD" +:+ quotes; "not an assignment"]
           [] "ID" "freebsd" None); try reflexivity. constructor.
Defined.

Lemma parseOSRelease_entries_witness :
  Contains "NAME" "=" = false /\ HasPrefix "NAME" "#" = false
  /\ Trim "FreeBSD" quotes = "FreeBSD"
  /\ exists lines scanErr, os_release (Env := freebsd_Env) = Ok (lines, scanErr).
Proof.
  apply (@parseOSRelease_entries freebsd_Env "NAME" "FreeBSD"). reflexivity.
Defined.

Section DetectedPlatform.
Context `{lib : GoLib} `{env : Env}.

Lemma Detect_DistroID :
  DistroID Detect
  = match parseOSRelease with
    | (osRelease, None) =>
        match osRelease !! "ID" with
        | Some id => if String.eqb id "" then "" else ToLower id +:+ "_linux"
        | None => ""
        end
    | (_, Some _) => ""
    end.
Proof.
  unfold Detect. destruct parseOSRelease as [osRelease [err|]]; [reflexivity|].
  destruct (osRelease !! "ID") as [id|]; simpl.
  - destruct (String.eqb id "") eqn:E;
      [apply String.eqb_eq in E; subst id|];
      destruct (osRelease !! "ID_LIKE"); simpl; rewrite ?E; reflexivity.
  - destruct (osRelease !! "ID_LIKE"); reflexivity.
Qed.

Lemma Detect_OS : OS Detect = GOOS.
Proof.
  unfold Detect. destruct parseOSRelease as [osRelease [err|]]; [reflexivity|].
  destruct (osRelease !! "ID_LIKE"); reflexivity.
Qed.

(** On a machine whose os-release gives an identifier, whatever its
    operating system, the loader keeps every profile that declares the
    identifier, the identifier followed by [_linux], or [linux], in any
    case: the distribution identifier [Detect] builds always ends in
    [_linux]. *)
Theorem Detect_identified_profiles (fs : list WalkEntry) (id : string)
    (profile : Profile) :
  parseOSRelease.2 = None ->
  parseOSRelease.1 !! "ID" = Some id ->
  id <> "" ->
  ToLower (ToLower id +:+ "_linux") = ToLower id +:+ "_linux" ->
  ToLower (Profile_Platform profile) = ToLower id
  \/ ToLower (Profile_Platform profile) = ToLower id +:+ "_linux"
  \/ ToLower (Profile_Platform profile) = "linux" ->
  DistroID Detect = ToLower id +:+ "_linux"
  /\ matchesPlatform (NewLoader fs Detect) profile = true.
Proof.
  intros Herr Hid Hne Hlow Hdecl.
  assert (Hdistro : DistroID Detect = ToLower id +:+ "_linux").
  { rewrite Detect_DistroID. destruct parseOSRelease as [osRelease err].
    simpl in *. subst err. rewrite Hid.
    destruct (String.eqb_spec id ""); [contradiction|reflexivity]. }
  split; [exact Hdistro|].
  apply matchesPlatform_spec. right. simpl. rewrite Hdistro, Hlow.
  destruct Hdecl as [->|[->| ->]].
  - right. left. apply Contains_app_l.
  - left. reflexivity.
  - right. left. apply Contains_app_r. reflexivity.
Qed.

(** Without an identifier (no os-release file, an error while reading
    it, or no [ID] in it) the distribution identifier is empty, and the
    loader keeps exactly the profiles that declare no platform and, on
    Linux, those that declare [linux]. *)
Theorem Detect_unidentified_profiles (fs : list WalkEntry) (profile : Profile) :
  parseOSRelease.2 <> None \/ parseOSRelease.1 !! "ID" = None
  \/ parseOSRelease.1 !! "ID" = Some "" ->
  ToLower "" = "" ->
  (forall s, ToLower s = "" -> s = "") ->
  DistroID Detect = ""
  /\ (matchesPlatform (NewLoader fs Detect) profile = true
      <-> Profile_Platform profile = ""
          \/ (ToLower (Profile_Platform profile) = "linux" /\ GOOS = "linux")).
Proof.
  intros Hnoid Hempty Hinj.
  assert (Hdistro : DistroID Detect = "").
  { rewrite Detect_DistroID. destruct parseOSRelease as [osRelease [err|]]; [reflexivity|].
    simpl in Hnoid. destruct Hnoid as [Hc|[-> | ->]]; [congruence|reflexivity..]. }
  split; [exact Hdistro|].
  rewrite matchesPlatform_spec. simpl. rewrite Hdistro, Hempty, Detect_OS.
  split.
  - intros [Hp|[Hp|[Hp|Hp]]].
    + left. exact Hp.
    + left. apply Hinj. exact Hp.
    + left. apply Hinj.
      destruct (ToLower (Profile_Platform profile)); [reflexivity|discriminate].
    + right. exact Hp.
  - intros [Hp|Hp]; [left; exact Hp|right; right; right; exact Hp].
Qed.

Lemma detectWM_empty :
  (forall s, ToLower s = "" -> s = "") ->
  detectWM = ""
  <-> Getenv "XDG_CURRENT_DESKTOP" = "" /\ Getenv "XDG_SESSION_DESKTOP" = ""
      /\ Getenv "DESKTOP_SESSION" = "" /\ Getenv "HYPRLAND_INSTANCE_SIGNATURE" = ""
      /\ Getenv "SWAYSOCK" = "".
Proof.
  intros Hinj. unfold detectWM.
  destruct (String.eqb_spec (Getenv "XDG_CURRENT_DESKTOP") "") as [H1|H1]; simpl.
  2: { split; [intros Hl; apply Hinj in Hl; contradiction|tauto]. }
  destruct (String.eqb_spec (Getenv "XDG_SESSION_DESKTOP") "") as [H2|H2]; simpl.
  2: { split; [intros Hl; apply Hinj in Hl; contradiction|tauto]. }
  destruct (String.eqb_spec (Getenv "DESKTOP_SESSION") "") as [H3|H3]; simpl.
  2: { split; [intros Hl; apply Hinj in Hl; contradiction|tauto]. }
  destruct (String.eqb_spec (Getenv "HYPRLAND_INSTANCE_SIGNATURE") "") as [H4|H4]; simpl.
  2: { split; [discriminate|tauto]. }
  destruct (String.eqb_spec (Getenv "SWAYSOCK") "") as [H5|H5]; simpl.
  2: { split; [discriminate|tauto]. }
  tauto.
Qed.

(** The display tags on the detected platform: a task tagged [wayland]
    alone can run exactly when [WAYLAND_DISPLAY] is set, and a task
    tagged [x11] alone exactly when it is not set and one of the five
    session variables is; with no variable set neither can run. *)
Theorem Detect_display_tags :
  ToLower "wayland" = "wayland" ->
  ToLower "x11" = "x11" ->
  (forall s, ToLower s = "" -> s = "") ->
  let set := fun name => Getenv name <> "" in
  (MatchesTags Detect ["wayland"] = true <-> set "WAYLAND_DISPLAY")
  /\ (MatchesTags Detect ["x11"] = true
      <-> ~ set "WAYLAND_DISPLAY"
          /\ (set "XDG_CURRENT_DESKTOP" \/ set "XDG_SESSION_DESKTOP"
              \/ set "DESKTOP_SESSION" \/ set "HYPRLAND_INSTANCE_SIGNATURE"
              \/ set "SWAYSOCK")).
Proof.
  intros Hwayland Hx11 Hinj set.
  assert (Hwl : IsWayland Detect = negb (String.eqb (Getenv "WAYLAND_DISPLAY") "")).
  { unfold Detect. destruct parseOSRelease as [osRelease [err|]]; [reflexivity|].
    destruct (osRelease !! "ID_LIKE"); reflexivity. }
  assert (Hwm : WM Detect = detectWM).
  { unfold Detect. destruct parseOSRelease as [osRelease [err|]]; [reflexivity|].
    destruct (osRelease !! "ID_LIKE"); reflexivity. }
  unfold MatchesTags, MatchesTags_loop, tagMatches. simpl.
  rewrite Hwayland, Hx11, Hwl, Hwm. simpl. subst set. simpl. split.
  - destruct (String.eqb_spec (Getenv "WAYLAND_DISPLAY") ""); simpl;
      split; try congruence; try discriminate; tauto.
  - pose proof (detectWM_empty Hinj) as Hempty.
    destruct (String.eqb_spec (Getenv "WAYLAND_DISPLAY") "") as [Hw|Hw]; simpl.
    + destruct (String.eqb_spec detectWM "") as [He|He]; simpl.
      * split; [discriminate|]. intros [_ Hsome]. apply Hempty in He. tauto.
      * split; [|reflexivity]. intros _. split; [tauto|].
        destruct (decide (Getenv "XDG_CURRENT_DESKTOP" = "")); [|tauto].
        destruct (decide (Getenv "XDG_SESSION_DESKTOP" = "")); [|tauto].
        destruct (decide (Getenv "DESKTOP_SESSION" = "")); [|tauto].
        destruct (decide (Getenv "HYPRLAND_INSTANCE_SIGNATURE" = "")); [|tauto].
        destruct (decide (Getenv "SWAYSOCK" = "")); [|tauto].
        exfalso. apply He, Hempty. tauto.
    + split; [discriminate|]. intros [Hn _]. contradiction.
Qed.

(** [ExpandHome] changes a path only when it starts with [~/] and the
    home directory is known, to the home directory followed by the
    path without its [~]; [~] alone and [~user/...] stay as they are,
    and expanding twice is expanding once unless the home directory
    itself starts with [~/]. *)
Theorem ExpandHome_spec (path : string) :
  (HasPrefix path "~/" = false -> ExpandHome path = path)
  /\ (forall err, UserHomeDir = Err err -> ExpandHome path = path)
  /\ (forall home rest, UserHomeDir = Ok home ->
        ExpandHome ("~/" +:+ rest) = home +:+ "/" +:+ rest)
  /\ (forall home, UserHomeDir = Ok home -> HasPrefix (home +:+ "/") "~/" = false ->
        ExpandHome (ExpandHome path) = ExpandHome path).
Proof.
  unfold ExpandHome. repeat split.
  - intros ->. reflexivity.
  - intros err ->. destruct (HasPrefix path "~/"); reflexivity.
  - intros home rest ->. unfold HasPrefix. rewrite prefix_app. reflexivity.
  - intros home -> Hhome.
    destruct (HasPrefix path "~/") eqn:Hp; [|rewrite Hp; reflexivity].
    apply prefix_spec in Hp as [rest ->].
    change (slice_from 1 ("~/" +:+ rest)) with ("/" +:+ rest).
    assert (Hno : HasPrefix (home +:+ "/" +:+ rest) "~/" = false).
    { unfold HasPrefix in *.
      destruct home as [|c [|d home]]; [reflexivity|..];
        rewrite ?app_String, ?app_empty_l in *; cbn [String.prefix] in *;
        destruct (ascii_dec "~" c); try reflexivity.
      - destruct (ascii_dec "/" "/"); [discriminate|reflexivity].
      - destruct (ascii_dec "/" d); [|reflexivity].
        destruct (home +:+ "/"); discriminate. }
    rewrite Hno. reflexivity.
Qed.

End DetectedPlatform.

Lemma ascii_ToLower_nonempty (s : string) :
  ToLower (GoLib := ascii_GoLib) s = "" -> s = "".
Proof. destruct s; [reflexivity|discriminate]. Qed.

Lemma Detect_identified_profiles_witness :
  DistroID (Detect (H := ascii_GoLib) (H0 := freebsd_Env)) = "freebsd_linux"
  /\ matchesPlatform (H := ascii_GoLib)
       (NewLoader [] (Detect (H := ascii_GoLib) (H0 := freebsd_Env)))
       {| Profile_Name := "generic"; Profile_Description := "";
          Profile_Platform := "Linux"; Profile_Tasks := [] |} = true.
Proof.
  apply (@Detect_identified_profiles ascii_GoLib freebsd_Env [] "freebsd");
    try reflexivity; [discriminate|]. right. right. reflexivity.
Defined.

Lemma Detect_unidentified_profiles_witness :
  DistroID (Detect (H := ascii_GoLib) (H0 := bare_Env)) = ""
  /\ (matchesPlatform (H := ascii_GoLib)
        (NewLoader [] (Detect (H := ascii_GoLib) (H0 := bare_Env))) inner_Profile = true
      <-> Profile_Platform inner_Profile = ""
          \/ (ToLower (GoLib := ascii_GoLib) (Profile_Platform inner_Profile) = "linux"
              /\ GOOS (Env := bare_Env) = "linux")).
Proof.
  apply (@Detect_unidentified_profiles ascii_GoLib bare_Env [] inner_Profile).
  - left. discriminate.
  - reflexivity.
  - exact ascii_ToLower_nonempty.
Defined.

Lemma Detect_display_tags_witness :
  let set := fun name => Getenv (Env := freebsd_Env) name <> "" in
  (MatchesTags (H := ascii_GoLib) (Detect (H := ascii_GoLib) (H0 := freebsd_Env))
     ["wayland"] = true <-> set "WAYLAND_DISPLAY")
  /\ (MatchesTags (H := ascii_GoLib) (Detect (H := ascii_GoLib) (H0 := freebsd_Env))
        ["x11"] = true
      <-> ~ set "WAYLAND_DISPLAY"
          /\ (set "XDG_CURRENT_DESKTOP" \/ set "XDG_SESSION_DESKTOP"
              \/ set "DESKTOP_SESSION" \/ set "HYPRLAND_INSTANCE_SIGNATURE"
              \/ set "SWAYSOCK")).
Proof.
  apply (@Detect_display_tags ascii_GoLib freebsd_Env); try reflexivity.
  exact ascii_ToLower_nonempty.
Defined.

(** ** More on the probe package *)

Lemma digit_string (m : Z) :
  (0 <= m < 10)%Z -> string_of_rune (rune (m + 48)) = Itoa m.
Proof.
  intros Hm.
  assert (Hcases : m = 0%Z \/ m = 1%Z \/ m = 2%Z \/ m = 3%Z \/ m = 4%Z \/ m = 5%Z
                   \/ m = 6%Z \/ m = 7%Z \/ m = 8%Z \/ m = 9%Z) by lia.
  destruct Hcases as [->|[->|[->|[->|[->|[->|[->|[->|[->| ->]]]]]]]]]; reflexivity.
Qed.

(** [formatBytes] on every non-negative [int]: below 1024 the number is
    taken as it is, and from 1024 on the unit letter is found in the
    table (the index stays within it) and the number is the count of
    whole units, between 1 and 1023; the number is printed in decimal
    when it is below 10. *)
Theorem formatBytes_spec (b : Z) :
  (0 <= b < 2 ^ 63)%Z ->
  ((b < 10)%Z -> formatBytes b = Itoa b +:+ "B")
  /\ ((1024 <= b)%Z ->
      exists exp unit,
        (0 <= exp <= 5)%Z
        /\ String.get (Z.to_nat exp) "KMGTPE" = Some unit
        /\ (1 <= b / 1024 ^ (exp + 1) < 1024)%Z
        /\ formatBytes b
           = string_of_rune (rune (b / 1024 ^ (exp + 1) + 48)) +:+ String unit "" +:+ "B"
        /\ ((b / 1024 ^ (exp + 1) < 10)%Z ->
            formatBytes b = Itoa (b / 1024 ^ (exp + 1)) +:+ String unit "" +:+ "B")).
Proof.
  intros Hb. split.
  - intros Hsmall. unfold formatBytes.
    destruct (Z.ltb_spec b 1024); [|lia]. rewrite digit_string by lia. reflexivity.
  - intros Hbig. unfold formatBytes. destruct (Z.ltb_spec b 1024); [lia|].
    pose proof (formatBytes_loop_spec 6 b (b / 1024) 1024 0) as Hspec.
    pose proof (formatBytes_letter b ltac:(lia)) as Hletter.
    destruct (formatBytes_loop 6 (b / 1024) 1024 0) as [div exp].
    destruct Hletter as [_ [unit Hunit]].
    destruct Hspec as (He & Hdiv & Hm); [lia|reflexivity|reflexivity| |].
    { split; [apply Z.div_le_lower_bound; lia|].
      apply Z.div_lt_upper_bound; [lia|].
      change (2 ^ 63)%Z with (1024 * 2 ^ 53)%Z in Hb.
      assert ((2 ^ 53 < 1024 ^ Z.of_nat 6)%Z) by reflexivity. lia. }
    subst div. exists exp, unit.
    split; [lia|]. split; [exact Hunit|]. split; [exact Hm|].
    rewrite Hunit. split; [reflexivity|].
    intros Hdigit. rewrite digit_string by lia. reflexivity.
Qed.

Lemma formatBytes_spec_witness :
  ((4608 < 10)%Z -> formatBytes 4608 = Itoa 4608 +:+ "B")
  /\ ((1024 <= 4608)%Z ->
      exists exp unit,
        (0 <= exp <= 5)%Z
        /\ String.get (Z.to_nat exp) "KMGTPE" = Some unit
        /\ (1 <= 4608 / 1024 ^ (exp + 1) < 1024)%Z
        /\ formatBytes 4608
           = string_of_rune (rune (4608 / 1024 ^ (exp + 1) + 48))
             +:+ String unit "" +:+ "B"
        /\ ((4608 / 1024 ^ (exp + 1) < 10)%Z ->
            formatBytes 4608
            = Itoa (4608 / 1024 ^ (exp + 1)) +:+ String unit "" +:+ "B")).
Proof. apply (formatBytes_spec 4608). lia. Defined.

(** *** The category a profile file gives its tasks *)

Lemma cut_None_app (s t : string) (sep : ascii) :
  cut (s +:+ t) sep = None <-> cut s sep = None /\ cut t sep = None.
Proof.
  induction s as [|c s IH]; [rewrite app_empty_l; simpl; tauto|].
  rewrite app_String. simpl. destruct (Ascii.eqb c sep).
  - split; [discriminate|]. intros [Hc _]. discriminate.
  - destruct IH as [IH1 IH2].
    destruct (cut (s +:+ t) sep) as [[b a]|] eqn:E1;
      destruct (cut s sep) as [[b' a']|] eqn:E2.
    + split; [discriminate|]. intros [Hc _]. discriminate.
    + split; [discriminate|]. intros [_ H2].
      specialize (IH2 (conj eq_refl H2)). discriminate.
    + split; [|intros [Hc _]; discriminate].
      intros _. destruct (IH1 eq_refl) as [Hc _]. discriminate.
    + split; [|reflexivity]. intros _. split; [reflexivity|]. apply (IH1 eq_refl).
Qed.

Lemma cut_None_rev (s : string) (sep : ascii) :
  cut s sep = None -> cut (String.rev s) sep = None.
Proof.
  induction s as [|c s IH]; [reflexivity|]. intros Hs.
  rewrite rev_String. apply cut_None_app.
  simpl in Hs. destruct (Ascii.eqb c sep) eqn:E; [discriminate|].
  destruct (cut s sep) as [[b a]|]; [discriminate|].
  split; [apply IH; reflexivity|]. simpl. rewrite E. reflexivity.
Qed.

Lemma untilSlash_app (s rest : string) :
  cut s "/" = None -> untilSlash (s +:+ String "/" rest) = s.
Proof.
  induction s as [|c s IH]; [reflexivity|]. intros Hs.
  rewrite app_String. simpl in *. destruct (Ascii.eqb c "/"); [discriminate|].
  destruct (cut s "/") as [[b a]|]; [discriminate|]. rewrite IH; reflexivity.
Qed.

Lemma dropSlashes_no_slash (s rest : string) :
  s <> "" -> cut s "/" = None -> dropSlashes (s +:+ rest) = s +:+ rest.
Proof.
  destruct s as [|c s]; [congruence|]. intros _ Hs. rewrite app_String. simpl in *.
  destruct (Ascii.eqb c "/"); [discriminate|reflexivity].
Qed.

Lemma rev_nonempty (s : string) : s <> "" -> String.rev s <> "".
Proof.
  intros Hs Hr. apply Hs. rewrite <- (rev_involutive_s s), Hr. reflexivity.
Qed.

(** [filepath.Base] of a directory followed by a name is the name. *)
Lemma filepath_Base_app (dir base : string) :
  base <> "" -> cut base "/" = None ->
  filepath_Base (dir +:+ "/" +:+ base) = base.
Proof.
  intros Hne Hbase. unfold filepath_Base.
  destruct (String.eqb_spec (dir +:+ "/" +:+ base) "") as [He|_].
  { apply (f_equal String.length) in He. rewrite !length_app_s in He.
    simpl in He. lia. }
  rewrite !rev_app_distr_s.
  change (String.rev "/") with "/"%string.
  rewrite app_assoc_s.
  rewrite dropSlashes_no_slash by (auto using rev_nonempty, cut_None_rev).
  change ("/" +:+ String.rev dir) with (String "/"%char (String.rev dir)).
  rewrite untilSlash_app by (apply cut_None_rev; exact Hbase).
  rewrite rev_involutive_s.
  destruct (String.eqb_spec base ""); [contradiction|reflexivity].
Qed.

Lemma slice_to_app (s t : string) : slice_to (String.length s) (s +:+ t) = s.
Proof.
  induction s as [|c s IH]; [destruct t; reflexivity|].
  rewrite app_String. simpl. rewrite IH. reflexivity.
Qed.

Lemma TrimSuffix_app (s suffix : string) : TrimSuffix (s +:+ suffix) suffix = s.
Proof.
  unfold TrimSuffix, HasSuffix. rewrite rev_app_distr_s, prefix_app, length_app_s.
  replace (String.length s + String.length suffix - String.length suffix)
    with (String.length s) by lia.
  apply slice_to_app.
Qed.

(** A profile read from [dir/name.yaml] keeps its name, description and
    platform and the number and order of its tasks; a task that has a
    category keeps itself entirely, and a task that has none gets the
    category [name] and keeps its other fields, so that with a name
    that is not empty no loaded task is without a category. *)
Theorem loadProfile_category (e : WalkEntry) (profile : Profile) (dir name : string) :
  we_path e = dir +:+ "/" +:+ name +:+ ".yaml" ->
  cut name "/" = None ->
  we_parsed e = Ok profile ->
  exists loaded,
    loadProfile e = Ok loaded
    /\ Profile_Name loaded = Profile_Name profile
    /\ Profile_Description loaded = Profile_Description profile
    /\ Profile_Platform loaded = Profile_Platform profile
    /\ Forall2 (fun t t' =>
                  (Task_Category t <> "" -> t' = t)
                  /\ (Task_Category t = "" ->
                      t' = {| Task_Name := Task_Name t; Task_Command := Task_Command t;
                              Task_Privilege := Task_Privilege t;
                              Task_MaxLines := Task_MaxLines t;
                              Task_MaxBytes := Task_MaxBytes t;
                              Task_Requires := Task_Requires t;
                              Task_Tags := Task_Tags t; Task_Category := name |}))
               (Profile_Tasks profile) (Profile_Tasks loaded)
    /\ (name <> "" -> Forall (fun t' => Task_Category t' <> "") (Profile_Tasks loaded)).
Proof.
  intros Hpath Hname Hparsed. unfold loadProfile. rewrite Hparsed, Hpath.
  assert (Hbase : cut (name +:+ ".yaml") "/" = None)
    by (apply cut_None_app; split; [exact Hname|reflexivity]).
  assert (Hne : name +:+ ".yaml" <> "").
  { intros He. apply (f_equal String.length) in He. rewrite length_app_s in He.
    simpl in He. lia. }
  rewrite filepath_Base_app, TrimSuffix_app by assumption.
  eexists. split; [reflexivity|]. simpl. repeat split.
  - apply Forall2_fmap_r, Forall_Forall2_diag, Forall_forall. intros t _.
    simpl. unfold setCategory.
    destruct (String.eqb_spec (Task_Category t) "") as [He|He];
      split; intros Hc; first [reflexivity|contradiction].
  - intros Hnonempty. apply Forall_fmap, Forall_forall. intros t _. simpl.
    unfold setCategory. destruct (String.eqb_spec (Task_Category t) ""); simpl; assumption.
Qed.

Lemma loadProfile_category_witness :
  exists loaded,
    loadProfile inner_Entry = Ok loaded
    /\ Profile_Name loaded = Profile_Name inner_Profile
    /\ Profile_Description loaded = Profile_Description inner_Profile
    /\ Profile_Platform loaded = Profile_Platform inner_Profile
    /\ Forall2 (fun t t' =>
                  (Task_Category t <> "" -> t' = t)
                  /\ (Task_Category t = "" ->
                      t' = {| Task_Name := Task_Name t; Task_Command := Task_Command t;
                              Task_Privilege := Task_Privilege t;
                              Task_MaxLines := Task_MaxLines t;
                              Task_MaxBytes := Task_MaxBytes t;
                              Task_Requires := Task_Requires t;
                              Task_Tags := Task_Tags t; Task_Category := "inner" |}))
               (Profile_Tasks inner_Profile) (Profile_Tasks loaded)
    /\ ("inner" <> "" -> Forall (fun t' => Task_Category t' <> "") (Profile_Tasks loaded)).
Proof.
  apply (loadProfile_category inner_Entry inner_Profile "probes" "inner"); reflexivity.
Defined.

(** *** Errors while loading *)

Section LoadErrors.
Context `{lib : GoLib}.

Lemma LoadAll_walk_good (l : Loader) (good tail : list WalkEntry) (acc : list Profile) :
  Forall (fun e => we_err e = None
                   /\ (isProfileFile e = true -> exists p, we_parsed e = Ok p)) good ->
  exists kept,
    LoadAll_walk l good acc = (kept, None)
    /\ LoadAll_walk l (good ++ tail) acc = LoadAll_walk l tail kept.
Proof.
  intros Hgood. revert acc.
  induction Hgood as [|e good [Herr Hfile] _ IH]; intros acc; simpl.
  - exists acc. split; reflexivity.
  - rewrite Herr. unfold isProfileFile in Hfile.
    destruct (we_isDir e || negb (HasSuffix (we_path e) ".yaml")); simpl in Hfile.
    + apply IH.
    + destruct (Hfile eq_refl) as [p Hp]. unfold loadProfile. rewrite Hp. apply IH.
Qed.

Lemma LoadAll_failure (l : Loader) (good rest : list WalkEntry)
    (bad : WalkEntry) (message : string) :
  Loader_fs l = good ++ bad :: rest ->
  Forall (fun e => we_err e = None
                   /\ (isProfileFile e = true -> exists p, we_parsed e = Ok p)) good ->
  we_err bad = Some message
  \/ (exists msg, we_err bad = None /\ isProfileFile bad = true
                  /\ we_parsed bad = Err msg
                  /\ message = "loading " +:+ we_path bad +:+ ": " +:+ msg) ->
  exists kept, LoadAll_walk l good [] = (kept, None)
               /\ LoadAll l = (kept, Some message).
Proof.
  intros Hfs Hgood Hbad.
  destruct (LoadAll_walk_good l good (bad :: rest) [] Hgood) as (kept & Hkept & Hwalk).
  exists kept. split; [exact Hkept|].
  unfold LoadAll. rewrite Hfs, Hwalk. simpl.
  destruct Hbad as [->|(msg & -> & Hfile & Hparsed & ->)]; [reflexivity|].
  unfold isProfileFile in Hfile.
  destruct (we_isDir bad || negb (HasSuffix (we_path bad) ".yaml")); [discriminate|].
  unfold loadProfile. rewrite Hparsed. reflexivity.
Qed.

(** The first entry that fails stops the walk: when every entry before
    it is read without an error, [LoadAll] returns the error of the
    walk as it is, or for a profile file that cannot be read or parsed
    the error prefixed with [loading] and the path, together with the
    profiles kept so far; [GetAllTasks] then returns the error and no
    task, and no entry after the failing one is looked at. *)
Theorem LoadAll_first_failure (l : Loader) (good rest : list WalkEntry)
    (bad : WalkEntry) (message : string) :
  Loader_fs l = good ++ bad :: rest ->
  Forall (fun e => we_err e = None
                   /\ (isProfileFile e = true -> exists p, we_parsed e = Ok p)) good ->
  we_err bad = Some message
  \/ (exists msg, we_err bad = None /\ isProfileFile bad = true
                  /\ we_parsed bad = Err msg
                  /\ message = "loading " +:+ we_path bad +:+ ": " +:+ msg) ->
  (exists kept, LoadAll_walk l good [] = (kept, None)
                /\ LoadAll l = (kept, Some message))
  /\ GetAllTasks l = Err message.
Proof.
  intros Hfs Hgood Hbad.
  destruct (LoadAll_failure l good rest bad message Hfs Hgood Hbad)
    as (kept & Hkept & Hall).
  split; [eauto|]. unfold GetAllTasks. rewrite Hall. reflexivity.
Qed.

End LoadErrors.

Lemma LoadAll_first_failure_witness :
  let broken :=
    {| we_path := "probes/broken.yaml"; we_err := None; we_isDir := false;
       we_parsed := Err "yaml: line 3: mapping values are not allowed" |} in
  let l := NewLoader [inner_Entry; broken; inner_Entry] user_Platform in
  (exists kept,
      LoadAll_walk (H := ascii_GoLib) l [inner_Entry] [] = (kept, None)
      /\ LoadAll (H := ascii_GoLib) l
         = (kept, Some ("loading probes/broken.yaml: "
                        +:+ "yaml: line 3: mapping values are not allowed")))
  /\ GetAllTasks (H := ascii_GoLib) l
     = Err ("loading probes/broken.yaml: "
            +:+ "yaml: line 3: mapping values are not allowed").
Proof.
  intros broken l.
  apply (@LoadAll_first_failure ascii_GoLib l [inner_Entry] [inner_Entry] broken).
  - reflexivity.
  - repeat constructor. intros _. eexists. reflexivity.
  - right. eexists. repeat split; reflexivity.
Defined.

(** ** The content of the reports *)

Lemma HasSuffix_app (s suffix : string) : HasSuffix (s +:+ suffix) suffix = true.
Proof. unfold HasSuffix. rewrite rev_app_distr_s. apply prefix_app. Qed.

Lemma concat_strings_app (l k : list string) :
  concat_strings (l ++ k) = concat_strings l +:+ concat_strings k.
Proof.
  induction l as [|x l IH]; [reflexivity|].
  simpl. rewrite IH, app_assoc_s. reflexivity.
Qed.

(** A result is written only after what the builder holds. *)
Lemma writeTaskResult_append (b : string) (result : TaskResult) :
  writeTaskResult b result = b +:+ writeTaskResult "" result.
Proof.
  unfold writeTaskResult.
  destruct (bool_decide (Status_ result = StatusFailed)
            || bool_decide (Status_ result = StatusSkipped));
    [rewrite app_empty_r; reflexivity|].
  destruct (negb (String.eqb (Output result) "")); simpl;
    [destruct (negb (HasSuffix (Output result) nl))|];
    rewrite ?app_empty_l, ?app_assoc_s; reflexivity.
Qed.

Lemma foldl_writeTaskResult (results : list TaskResult) (b : string) :
  foldl writeTaskResult b results
  = b +:+ concat_strings (writeTaskResult "" <$> results).
Proof.
  revert b. induction results as [|res results IH]; intros b; simpl.
  - rewrite app_empty_r. reflexivity.
  - rewrite IH, (writeTaskResult_append b), app_assoc_s. reflexivity.
Qed.

Section FullContent.
Context `{lib : GoLib}.

Lemma foldl_writeCategory (groups : list categoryGroup) (b : string) :
  foldl writeCategory b groups
  = b +:+ concat_strings
            ((fun g => nl +:+ "## " +:+ group_name g +:+ nl
                       +:+ concat_strings (writeTaskResult "" <$> group_results g))
               <$> groups).
Proof.
  revert b. induction groups as [|g groups IH]; intros b; simpl.
  - rewrite app_empty_r. reflexivity.
  - rewrite IH. unfold writeCategory. rewrite foldl_writeTaskResult.
    rewrite !app_assoc_s. reflexivity.
Qed.

(** The errors section is written after what the builder holds. *)
Lemma writeErrorsSection_append (r : MarkdownReport) (b : string) :
  writeErrorsSection r b = b +:+ writeErrorsSection r "".
Proof.
  unfold writeErrorsSection. rewrite collectErrors_fold. simpl.
  destruct ((Z.of_nat (length _) =? 0)%Z && (Z.of_nat (length _) =? 0)%Z).
  - rewrite app_empty_r. reflexivity.
  - rewrite !foldl_lines, app_empty_l, !app_assoc_s. reflexivity.
Qed.

(** The content of the Full report is its category sections, one after
    the other, followed by the errors section.  A section is its
    heading followed by the blocks of its results, so that a category
    whose results all failed or were skipped still has its heading.
    The block of a failed or skipped result is empty; the block of any
    other result, pending and running ones included, gives its name,
    its command and a body that ends with a line feed, closed by the
    fence: the output, with a line feed added when it ends with none,
    or the no-output marker. *)
Theorem generateContent_sections (r : MarkdownReport) :
  generateContent r
  = concat_strings
      ((fun g => nl +:+ "## " +:+ group_name g +:+ nl
                 +:+ concat_strings (writeTaskResult "" <$> group_results g))
         <$> groupByCategory r)
    +:+ writeErrorsSection r ""
  /\ forall result,
       (Status_ result = StatusFailed \/ Status_ result = StatusSkipped ->
        writeTaskResult "" result = "")
       /\ (~ (Status_ result = StatusFailed \/ Status_ result = StatusSkipped) ->
           exists body,
             writeTaskResult "" result
             = nl +:+ "### " +:+ Name result +:+ nl +:+ "```" +:+ nl +:+ "$ "
               +:+ Command result +:+ nl +:+ body +:+ "```" +:+ nl
             /\ HasSuffix body nl = true
             /\ (Output result = "" -> body = "[no output]" +:+ nl)
             /\ (Output result <> "" ->
                 body = if HasSuffix (Output result) nl then Output result
                        else Output result +:+ nl)).
Proof.
  split.
  - unfold generateContent.
    rewrite writeErrorsSection_append, foldl_writeCategory, app_empty_l.
    reflexivity.
  - intros result. unfold writeTaskResult. split.
    + intros [-> | ->]; reflexivity.
    + intros Hshown.
      rewrite (bool_decide_eq_false_2 (Status_ result = StatusFailed)) by tauto.
      rewrite (bool_decide_eq_false_2 (Status_ result = StatusSkipped)) by tauto.
      simpl. destruct (String.eqb_spec (Output result) "") as [He|He]; simpl.
      * exists ("[no output]" +:+ nl). rewrite !app_assoc_s.
        split; [reflexivity|]. split; [reflexivity|]. split; [reflexivity|contradiction].
      * destruct (HasSuffix (Output result) nl) eqn:Hs; simpl.
        -- exists (Output result). rewrite !app_assoc_s.
           split; [reflexivity|]. split; [exact Hs|]. split; [contradiction|reflexivity].
        -- exists (Output result +:+ nl). rewrite !app_assoc_s.
           split; [reflexivity|]. split; [apply HasSuffix_app|].
           split; [contradiction|reflexivity].
Qed.

End FullContent.

(** *** The Minified and the Intro report *)

Lemma shown_test (result : TaskResult) :
  bool_decide (Status_ result = StatusSuccess) && negb (String.eqb (Output result) "")
  = bool_decide (shown result).
Proof.
  unfold shown. destruct (String.eqb_spec (Output result) "") as [He|He];
    destruct (decide (Status_ result = StatusSuccess)) as [Hs|Hs].
  - rewrite (bool_decide_eq_true_2 _ Hs), bool_decide_eq_false_2 by tauto. reflexivity.
  - rewrite (bool_decide_eq_false_2 _ Hs), bool_decide_eq_false_2 by tauto. reflexivity.
  - rewrite (bool_decide_eq_true_2 _ Hs), bool_decide_eq_true_2 by tauto. reflexivity.
  - rewrite (bool_decide_eq_false_2 _ Hs), bool_decide_eq_false_2 by tauto. reflexivity.
Qed.

Lemma foldl_minifiedEntry (results : list TaskResult) (b : string) :
  foldl minifiedEntry b results
  = b +:+ concat_strings
            ((fun result => nl +:+ "## " +:+ Name result +:+ nl +:+ "```" +:+ nl
                            +:+ TrimSpace (Output result) +:+ nl +:+ "```" +:+ nl)
               <$> filter shown results).
Proof.
  revert b. induction results as [|res results IH]; intros b; simpl.
  - rewrite app_empty_r. reflexivity.
  - rewrite IH. unfold minifiedEntry. rewrite shown_test, filter_cons.
    destruct (decide (shown res)) as [Hs|Hs].
    + rewrite (bool_decide_eq_true_2 _ Hs). simpl. rewrite !app_assoc_s. reflexivity.
    + rewrite (bool_decide_eq_false_2 _ Hs). reflexivity.
Qed.

Lemma foldl_introEntry (results : list TaskResult) (b : string) :
  foldl introEntry b results
  = b +:+ concat_strings
            ((fun result => "## " +:+ Name result +:+ nl +:+ "```" +:+ nl
                            +:+ TrimSpace (Output result) +:+ nl +:+ "```" +:+ nl +:+ nl)
               <$> filter (fun result => Category result = "intro" /\ shown result)
                     results).
Proof.
  revert b. induction results as [|res results IH]; intros b; simpl.
  - rewrite app_empty_r. reflexivity.
  - rewrite IH. unfold introEntry. rewrite shown_test, filter_cons.
    destruct (String.eqb_spec (Category res) "intro") as [Hc|Hc]; simpl.
    + destruct (decide (shown res)) as [Hs|Hs].
      * rewrite (bool_decide_eq_true_2 _ Hs), decide_True by tauto.
        simpl. rewrite !app_assoc_s. reflexivity.
      * rewrite (bool_decide_eq_false_2 _ Hs), decide_False by tauto. reflexivity.
    + rewrite decide_False by tauto. reflexivity.
Qed.

(** The Minified report is its two header lines followed by one entry
    for each successful result with a non-empty output, in the order of
    the results: the name under a second-level heading and the output,
    stripped of the white space around it, between fences.  Results
    that failed, were skipped, did not run or printed nothing leave no
    trace in it, whatever their name, error or reason, and neither do
    the categories, the commands and the window manager. *)
Theorem minifiedContent_spec `{lib : GoLib} (r : MarkdownReport) :
  minifiedContent r
  = "# SysProbe Report" +:+ nl
    +:+ "Time:" +:+ Time_Format "2006-01-02T15:04" (Generated r)
    +:+ " Platform:" +:+ DistroID (Report_Platform r) +:+ nl
    +:+ concat_strings
          ((fun result => nl +:+ "## " +:+ Name result +:+ nl +:+ "```" +:+ nl
                          +:+ TrimSpace (Output result) +:+ nl +:+ "```" +:+ nl)
             <$> filter shown (Results r)).
Proof.
  unfold minifiedContent. rewrite foldl_minifiedEntry, !app_assoc_s. reflexivity.
Qed.

(** The Intro report is its two fixed paragraphs followed by one entry
    for each successful result with a non-empty output whose category
    is exactly [intro], in the order of the results; it depends neither
    on the platform nor on the time, and a result of another category,
    [Intro] included, leaves no trace in it. *)
Theorem introContent_spec (r : MarkdownReport) :
  introContent r
  = "# System Context" +:+ nl +:+ nl
    +:+ "Use this information to understand my environment when helping me."
    +:+ nl +:+ nl
    +:+ concat_strings
          ((fun result => "## " +:+ Name result +:+ nl +:+ "```" +:+ nl
                          +:+ TrimSpace (Output result) +:+ nl +:+ "```" +:+ nl +:+ nl)
             <$> filter (fun result => Category result = "intro" /\ shown result)
                   (Results r)).
Proof.
  unfold introContent. rewrite foldl_introEntry, !app_assoc_s. reflexivity.
Qed.

(** ** The lines the scheduler prints *)

Lemma running_insert (ws : list Worker) (w : nat) (old new : Worker) :
  ws !! w = Some old ->
  running (<[w := new]> ws)
  = running (take w ws) ++ running [new] ++ running (drop (S w) ws)
  /\ running ws = running (take w ws) ++ running [old] ++ running (drop (S w) ws).
Proof.
  intros Hw. unfold running. split.
  - rewrite insert_take_drop by (eapply lookup_lt_Some; eassumption).
    change (new :: drop (S w) ws) with ([new] ++ drop (S w) ws).
    rewrite !omap_app. reflexivity.
  - rewrite <- (take_drop_middle ws w old Hw) at 1.
    change (old :: drop (S w) ws) with ([old] ++ drop (S w) ws).
    rewrite !omap_app. reflexivity.
Qed.

Section Progress.
Context `{lib : GoLib} `{host : Host}.
Variable plat : Platform.
Variable tasks : list Task.
Variable workerCount : Z.

Lemma Run_spawned (task : Task) (tr : list Event) :
  spawned (Run (NewRunner plat) task tr).2 = spawned tr ++ started plat task.
Proof.
  unfold started.
  pose proof (CanRun_spawns_nothing (NewRunner plat) task tr) as Hs.
  pose proof (CanRun_result (NewRunner plat) task tr []) as Hr.
  unfold Run, bind.
  destruct (CanRun (NewRunner plat) task tr) as [[c reason] tr1].
  destruct (CanRun (NewRunner plat) task []) as [[c' reason'] tr2].
  simpl in *. injection Hr as -> ->.
  destruct c'; simpl.
  - unfold spawn, ret.
    destruct (out_deadline _); [|destruct (out_err _)]; simpl;
      rewrite spawned_app, Hs; reflexivity.
  - unfold ret. simpl. rewrite Hs, app_nil_r. reflexivity.
Qed.

Lemma stdout_inv_step (s s' : Sched) (done : list nat) :
  sched_step plat tasks s s' -> stdout_inv plat tasks s done ->
  exists done', stdout_inv plat tasks s' done'.
Proof.
  intros Hstep (Hout & Hperm & Hidle & Hsp).
  destruct Hstep as [s i Hpc Hi Hlen|s i Hpc Hi|s w idx rest Hw Hchan
                    |s w idx task result calls Hw Htask Hrun|s w Hw Hchan Hcl|s Hpc Hall];
    unfold stdout_inv, fed in *; simpl.
  - exists done. rewrite Hpc in Hperm. split; [exact Hout|].
    split; [|split; [exact Hidle|exact Hsp]].
    rewrite <- Hperm.
    replace (length tasks - i) with (S (length tasks - S i)) by lia.
    cbn [seq]. rewrite <- !(assoc_L (++)). cbn [app].
    rewrite <- !Permutation_middle. reflexivity.
  - exists done. rewrite Hpc in Hperm. split; [exact Hout|].
    split; [|split; [exact Hidle|exact Hsp]].
    rewrite <- Hperm.
    replace (length tasks - i) with 0 by lia.
    replace (length tasks - length tasks) with 0 by lia. reflexivity.
  - exists done. split; [exact Hout|]. split; [|split; [|exact Hsp]].
    + rewrite <- Hperm, Hchan.
      destruct (running_insert (workers s) w WReceiving (WRunning idx) Hw) as [-> ->].
      simpl. rewrite <- !(assoc_L (++)). cbn [app].
      rewrite <- !Permutation_middle. reflexivity.
    + intros Hn. apply Hidle. eapply insert_nil_inv. exact Hn.
  - exists (done ++ [idx]). split; [|split; [|split]].
    + rewrite Hout. simpl. rewrite omap_app. simpl. rewrite Htask. simpl.
      rewrite (Run_expected plat task _ _ _ Hrun). reflexivity.
    + rewrite <- Hperm.
      destruct (running_insert (workers s) w (WRunning idx) WReceiving Hw) as [-> ->].
      simpl. rewrite <- !(assoc_L (++)). cbn [app].
      rewrite <- !Permutation_middle. reflexivity.
    + intros Hn. apply insert_nil_inv in Hn. rewrite Hn in Hw. discriminate.
    + pose proof (Run_spawned task (host_calls s)) as Hrs. rewrite Hrun in Hrs.
      simpl in Hrs. rewrite Hrs, Hsp, omap_app. simpl. rewrite Htask. simpl.
      rewrite join_app. simpl. rewrite app_nil_r. reflexivity.
  - exists done. split; [exact Hout|]. split; [|split; [|exact Hsp]].
    + rewrite <- Hperm.
      destruct (running_insert (workers s) w WReceiving WDone Hw) as [-> ->].
      reflexivity.
    + intros Hn. apply Hidle. eapply insert_nil_inv. exact Hn.
  - exists done. rewrite Hpc in Hperm. split; [exact Hout|].
    split; [exact Hperm|split; [exact Hidle|exact Hsp]].
Qed.

Lemma stdout_inv_reachable (s : Sched) :
  sched_reachable plat tasks workerCount s -> exists done, stdout_inv plat tasks s done.
Proof.
  induction 1 as [|s s' _ [done IH] Hstep].
  - exists []. unfold stdout_inv, fed. simpl. split; [reflexivity|].
    split; [|split; reflexivity].
    replace (running (replicate (Z.to_nat workerCount) WReceiving)) with (@nil nat).
    + simpl. rewrite Nat.sub_0_r. reflexivity.
    + induction (Z.to_nat workerCount) as [|n IHn]; [reflexivity|exact IHn].
  - eapply stdout_inv_step; eassumption.
Qed.

Lemma running_done (ws : list Worker) :
  Forall (fun w => w = WDone) ws -> running ws = [].
Proof. induction 1 as [|w ws -> _ IH]; [reflexivity|exact IH]. Qed.

Lemma omap_lookup_perm {A} (f : Task -> A) (done : list nat) :
  done ≡ₚ seq 0 (length tasks) ->
  omap (fun idx => f <$> tasks !! idx) done ≡ₚ f <$> tasks.
Proof.
  intros Hperm.
  rewrite (omap_Permutation _ _ _ Hperm).
  assert (Hseq : forall (l : list Task) (k : nat),
             (forall i, i < length l -> tasks !! (k + i) = l !! i) ->
             omap (fun idx => f <$> tasks !! idx) (seq k (length l)) = f <$> l).
  { induction l as [|x l IH]; intros k Hl; [reflexivity|].
    cbn [length seq omap list_omap]. pose proof (Hl 0 ltac:(simpl; lia)) as H0.
    rewrite Nat.add_0_r in H0. rewrite H0. simpl. f_equal.
    apply IH. intros i Hi. replace (S k + i) with (k + S i) by lia.
    rewrite (Hl (S i)) by (simpl; lia). reflexivity. }
  rewrite (Hseq tasks 0); [reflexivity|]. intros i _. reflexivity.
Qed.

(** When [runWithoutUI] returns it has printed its first line, which
    gives the number of tasks, followed with at least one worker by
    exactly one progress line for each task, the line of the result of
    [runner.Run] on it, in the order in which the tasks completed (any
    permutation of the input order), and with no worker by nothing. *)
Theorem runWithoutUI_progress_lines (s : Sched) :
  sched_reachable plat tasks workerCount s ->
  main_pc s = Returned ->
  exists lines,
    stdout s = runningLine tasks :: lines
    /\ ((0 < workerCount)%Z -> lines ≡ₚ progressLine ∘ expected plat <$> tasks)
    /\ ((workerCount <= 0)%Z -> lines = []).
Proof.
  intros Hreach Hpc.
  destruct (stdout_inv_reachable s Hreach) as (done & Hout & Hperm & Hidle & _).
  destruct (sched_inv_reachable plat tasks workerCount s Hreach)
    as [Hrl Hwl Hfed Hcl Hcr Hrr Hdone Hret Hidx Hidl].
  eexists. split; [exact Hout|]. split.
  - intros Hwc. apply omap_lookup_perm.
    specialize (Hret Hpc). rewrite <- Hperm.
    rewrite (running_done _ Hret). unfold fed. rewrite Hpc.
    assert (Hw0 : is_Some (workers s !! 0)) by (apply lookup_lt_is_Some_2; lia).
    destruct Hw0 as [w0 Hw0]. rewrite Forall_lookup in Hret.
    pose proof (Hret 0 w0 Hw0) as ->.
    destruct (Hdone 0 Hw0) as [-> _].
    rewrite Nat.sub_diag. simpl. rewrite app_nil_r. reflexivity.
  - intros Hwc. rewrite Hidle; [reflexivity|].
    apply nil_length_inv. lia.
Qed.

Lemma started_runnable (l : list Task) :
  mjoin (started plat <$> l)
  = Task_Command <$> filter (fun t => (CanRun (NewRunner plat) t []).1.1 = true) l.
Proof.
  induction l as [|t l IH]; [reflexivity|].
  rewrite filter_cons.
  change (mjoin (started plat <$> t :: l))
    with (started plat t ++ mjoin (started plat <$> l)).
  rewrite IH. unfold started.
  destruct (decide ((CanRun (NewRunner plat) t []).1.1 = true)) as [Hc|Hc].
  - rewrite Hc. reflexivity.
  - apply not_true_is_false in Hc. rewrite Hc. reflexivity.
Qed.

(** What [runWithoutUI] has returned, printed and started when it
    returns. *)
Lemma sched_returned_output (s : Sched) :
  sched_reachable plat tasks workerCount s -> main_pc s = Returned ->
  exists lines commands,
    stdout s = runningLine tasks :: lines
    /\ spawned (host_calls s) = commands
    /\ (if bool_decide (0 < workerCount)%Z
        then sched_results s = expected plat <$> tasks
             /\ lines ≡ₚ progressLine ∘ expected plat <$> tasks
             /\ commands
                ≡ₚ Task_Command
                   <$> filter (fun t => (CanRun (NewRunner plat) t []).1.1 = true) tasks
        else sched_results s = replicate (length tasks) TaskResult_zero
             /\ lines = [] /\ commands = []).
Proof.
  intros Hreach Hpc.
  destruct (stdout_inv_reachable s Hreach) as (done & Hout & Hperm & Hidle & Hsp).
  destruct (sched_inv_reachable plat tasks workerCount s Hreach)
    as [Hrl Hwl Hfed Hcl Hcr Hrr Hdone Hret Hidx Hidl].
  eexists _, _. split; [exact Hout|]. split; [reflexivity|].
  destruct (decide (0 < workerCount)%Z) as [Hwc|Hwc].
  - rewrite bool_decide_eq_true_2 by exact Hwc.
    assert (Hall : done ≡ₚ seq 0 (length tasks)).
    { specialize (Hret Hpc). rewrite <- Hperm.
      rewrite (running_done _ Hret). unfold fed. rewrite Hpc.
      assert (Hw0 : is_Some (workers s !! 0)) by (apply lookup_lt_is_Some_2; lia).
      destruct Hw0 as [w0 Hw0]. rewrite Forall_lookup in Hret.
      pose proof (Hret 0 w0 Hw0) as ->.
      destruct (Hdone 0 Hw0) as [-> _].
      rewrite Nat.sub_diag. simpl. rewrite app_nil_r. reflexivity. }
    split; [|split].
    + apply (runWithoutUI_with_workers plat tasks workerCount); [exact Hwc|].
      exists s. auto.
    + apply omap_lookup_perm. exact Hall.
    + rewrite Hsp, <- started_runnable.
      rewrite (omap_lookup_perm (started plat) done Hall). reflexivity.
  - rewrite bool_decide_eq_false_2 by exact Hwc.
    assert (Hnil : workers s = []) by (apply nil_length_inv; lia).
    split; [exact (Hidl Hnil)|].
    rewrite Hsp, (Hidle Hnil). split; reflexivity.
Qed.

End Progress.

Lemma runWithoutUI_progress_lines_witness :
  let task := plain_Task "kernel" "uname -a" "system" in
  exists lines,
    stdout returned_Sched = runningLine [task] :: lines
    /\ ((0 < 1)%Z ->
        lines ≡ₚ progressLine
                 ∘ expected (H := ascii_GoLib) (H0 := quick_Host) user_Platform
                 <$> [task])
    /\ ((1 <= 0)%Z -> lines = []).
Proof.
  intros task.
  apply (@runWithoutUI_progress_lines ascii_GoLib quick_Host user_Platform [task] 1
           returned_Sched); [|reflexivity].
  pose proof (reach_init (H := ascii_GoLib) (H0 := quick_Host) user_Platform [task] 1)
    as R.
  match type of R with sched_reachable _ _ _ ?s =>
    pose proof (@reach_step ascii_GoLib quick_Host user_Platform [task] 1 s _ R
                  (@step_send ascii_GoLib quick_Host user_Platform [task] s 0 eq_refl (Nat.lt_0_succ 0) (Nat.lt_0_succ 0))) as R1
  end.
  match type of R1 with sched_reachable _ _ _ ?s =>
    pose proof (@reach_step ascii_GoLib quick_Host user_Platform [task] 1 s _ R1 (@step_close ascii_GoLib quick_Host user_Platform [task] s 1 eq_refl (le_n 1))) as R2
  end.
  match type of R2 with sched_reachable _ _ _ ?s =>
    pose proof (@reach_step ascii_GoLib quick_Host user_Platform [task] 1 s _ R2 (@step_receive ascii_GoLib quick_Host user_Platform [task] s 0 0 [] eq_refl eq_refl))
      as R3
  end.
  match type of R3 with sched_reachable _ _ _ ?s =>
    pose proof (@reach_step ascii_GoLib quick_Host user_Platform [task] 1 s _ R3
                  (@step_run ascii_GoLib quick_Host user_Platform [task] s 0 0 task _ _ eq_refl eq_refl (surjective_pairing _)))
      as R4
  end.
  match type of R4 with sched_reachable _ _ _ ?s =>
    pose proof (@reach_step ascii_GoLib quick_Host user_Platform [task] 1 s _ R4 (@step_exit ascii_GoLib quick_Host user_Platform [task] s 0 eq_refl eq_refl eq_refl))
      as R5
  end.
  match type of R5 with sched_reachable _ _ _ ?s =>
    exact (@reach_step ascii_GoLib quick_Host user_Platform [task] 1 s _ R5
             (@step_return ascii_GoLib quick_Host user_Platform [task] s eq_refl (Forall_cons_2 _ _ _ eq_refl (Forall_nil_2 _))))
  end.
Defined.

(** ** The command *)

Section Command.
Context `{lib : GoLib} `{host : Host} `{env : Env} `{world : World}.

Lemma generateFor_no_error (mode : ReportMode) (rep : MarkdownReport) :
  (generateFor mode rep).2 = None.
Proof.
  destruct mode; unfold generateFor, Generate, GenerateMinified, GenerateIntro;
    destruct NewTokenCounter; reflexivity.
Qed.

(** What [main] does after [runWithoutUI] has returned. *)
Lemma main_no_ui_ends (ProbeFS : list WalkEntry) (f : flag.Flags)
    (tasks : list Task) (o : Outcome) :
  flag.showVersion f = false ->
  flag.noUI f = true ->
  GetAllTasks (NewLoader ProbeFS Detect) = Ok tasks ->
  let mode := if flag.intro f then ReportIntro
              else if flag.minified f then ReportMinified else ReportFull in
  let selected := if flag.intro f
                  then filter (fun t => Task_Category t = "intro") tasks
                  else tasks in
  let path := if flag.intro f && String.eqb (flag.outputFile f) "sysprobe-report.md"
              then "sysprobe-intro.md" else flag.outputFile f in
  main ProbeFS f o
  <-> match selected with
      | [] => o = Exit 1 "" ("No tasks found for this platform" +:+ nl)
      | _ :: _ =>
          exists s,
            sched_run Detect selected (flag.workers f) s
            /\ main_pc s = Returned
            /\ WriteFile_returns path
            /\ let g := generateFor mode (NewMarkdownReport Detect (sched_results s)) in
               o = Ended
                     match WriteFile path g.1.1 with
                     | Some err =>
                         {| Ending_code := 1;
                            Ending_stdout := concat_strings (stdout s);
                            Ending_stderr := "Error writing report: " +:+ err +:+ nl;
                            Ending_writes := [(path, g.1.1)];
                            Ending_spawned := spawned (host_calls s) |}
                     | None =>
                         {| Ending_code := 0;
                            Ending_stdout :=
                              concat_strings (stdout s) +:+ savedLine path g.1.2;
                            Ending_stderr := "";
                            Ending_writes := [(path, g.1.1)];
                            Ending_spawned := spawned (host_calls s) |}
                     end
      end.
Proof.
  intros Hv Hn Hload mode selected path.
  unfold main. rewrite Hv, Hload, Hn.
  subst mode selected path. destruct (flag.intro f); simpl.
  - destruct (filter _ tasks) as [|t ts]; simpl; [reflexivity|].
    apply exist_proper. intros s.
    pose proof (generateFor_no_error ReportIntro
                  (NewMarkdownReport Detect (sched_results s))) as Herr.
    simpl in Herr.
    destruct (GenerateIntro _) as [[content count] err]. simpl in *. subst err.
    destruct (WriteFile _ content); reflexivity.
  - destruct (flag.minified f); simpl.
    + destruct tasks as [|t ts]; simpl; [reflexivity|].
      apply exist_proper. intros s.
      pose proof (generateFor_no_error ReportMinified
                    (NewMarkdownReport Detect (sched_results s))) as Herr.
      simpl in Herr.
      destruct (GenerateMinified _) as [[content count] err]. simpl in *. subst err.
      destruct (WriteFile _ content); reflexivity.
    + destruct tasks as [|t ts]; simpl; [reflexivity|].
      apply exist_proper. intros s.
      pose proof (generateFor_no_error ReportFull
                    (NewMarkdownReport Detect (sched_results s))) as Herr.
      simpl in Herr.
      destruct (Generate _) as [[content count] err]. simpl in *. subst err.
      destruct (WriteFile _ content); reflexivity.
Qed.

(** Without the UI, and when the profiles load.  With no task
    selected [main] exits with status 1 before anything is printed on
    the standard output, written or started.  Otherwise every run of
    [main] that ends has printed the first line of [runWithoutUI] and,
    with at least one worker, one progress line for each selected task
    in some order, has started with [sh -c] the commands of the
    selected tasks that can run, each once and in some order, and has
    called [os.WriteFile] once, with the output path and the report
    rendered in the format of the flags from the results of
    [runner.Run] on the selected tasks in their order; it exits with
    status 1 and the error when the write fails, and with status 0
    after the line that gives the path and the token count otherwise.
    With a worker count that is not positive no task is run and the
    report is rendered from as many zero-valued results.  [main] ends
    on every interleaving of the goroutines when [cmd.Run] returns for
    every selected task that can run (or there is no worker) and
    [os.WriteFile] returns for the output path; it does not end when
    there is a worker and the command of some selected task does not
    return, nor when [os.WriteFile] does not return.  The tasks
    selected are all the tasks loaded, or with [-intro] those of
    category [intro]. *)
Theorem main_no_ui_outcome (ProbeFS : list WalkEntry) (f : flag.Flags)
    (tasks : list Task) :
  flag.showVersion f = false ->
  flag.noUI f = true ->
  GetAllTasks (NewLoader ProbeFS Detect) = Ok tasks ->
  let mode := if flag.intro f then ReportIntro
              else if flag.minified f then ReportMinified else ReportFull in
  let selected := if flag.intro f
                  then filter (fun t => Task_Category t = "intro") tasks
                  else tasks in
  let path := if flag.intro f && String.eqb (flag.outputFile f) "sysprobe-report.md"
              then "sysprobe-intro.md" else flag.outputFile f in
  let workerCount := flag.workers f in
  let results := if bool_decide (0 < workerCount)%Z
                 then expected Detect <$> selected
                 else replicate (length selected) TaskResult_zero in
  let generated := generateFor mode (NewMarkdownReport Detect results) in
  let content := generated.1.1 in
  let ending := fun (lines commands : list string) =>
    let printed := runningLine selected +:+ concat_strings lines in
    match WriteFile path content with
    | Some err =>
        {| Ending_code := 1; Ending_stdout := printed;
           Ending_stderr := "Error writing report: " +:+ err +:+ nl;
           Ending_writes := [(path, content)]; Ending_spawned := commands |}
    | None =>
        {| Ending_code := 0;
           Ending_stdout := printed +:+ savedLine path generated.1.2;
           Ending_stderr := "";
           Ending_writes := [(path, content)]; Ending_spawned := commands |}
    end in
  (selected = [] ->
     forall o, main ProbeFS f o
               <-> o = Exit 1 "" ("No tasks found for this platform" +:+ nl))
  /\ (selected <> [] ->
      (forall o, main ProbeFS f o ->
         exists lines commands,
           o = Ended (ending lines commands)
           /\ if bool_decide (0 < workerCount)%Z
              then lines ≡ₚ progressLine ∘ expected Detect <$> selected
                   /\ commands
                      ≡ₚ Task_Command
                         <$> filter (fun t => (CanRun (NewRunner Detect) t []).1.1 = true)
                               selected
              else lines = [] /\ commands = [])
      /\ (((0 < workerCount)%Z -> Forall (returns Detect) selected) ->
          WriteFile_returns path ->
            sched_ends Detect selected (sched_init selected workerCount)
            /\ exists o, main ProbeFS f o)
      /\ ((0 < workerCount)%Z ->
          Exists (fun t => ~ returns Detect t) selected ->
          forall o, ~ main ProbeFS f o)
      /\ (~ WriteFile_returns path -> forall o, ~ main ProbeFS f o)).
Proof.
  intros Hv Hn Hload mode selected path workerCount results generated content ending.
  pose proof (fun o => main_no_ui_ends ProbeFS f tasks o Hv Hn Hload) as Hmain.
  cbv zeta in Hmain. fold mode selected path workerCount in Hmain.
  split.
  - intros Hsel o. rewrite Hmain, Hsel. reflexivity.
  - intros Hsel.
    assert (Hmain' : forall o,
               main ProbeFS f o
               <-> exists s,
                     sched_run Detect selected workerCount s
                     /\ main_pc s = Returned
                     /\ WriteFile_returns path
                     /\ let g := generateFor mode
                                   (NewMarkdownReport Detect (sched_results s)) in
                        o = Ended
                              match WriteFile path g.1.1 with
                              | Some err =>
                                  {| Ending_code := 1;
                                     Ending_stdout := concat_strings (stdout s);
                                     Ending_stderr :=
                                       "Error writing report: " +:+ err +:+ nl;
                                     Ending_writes := [(path, g.1.1)];
                                     Ending_spawned := spawned (host_calls s) |}
                              | None =>
                                  {| Ending_code := 0;
                                     Ending_stdout :=
                                       concat_strings (stdout s)
                                       +:+ savedLine path g.1.2;
                                     Ending_stderr := "";
                                     Ending_writes := [(path, g.1.1)];
                                     Ending_spawned := spawned (host_calls s) |}
                              end).
    { intros o. rewrite Hmain. destruct selected; [congruence|reflexivity]. }
    clear Hmain. split; [|split; [|split]].
    + intros o Ho. apply Hmain' in Ho as (s & Hrun & Hpc & _ & Ho).
      destruct (sched_returned_output Detect selected workerCount s
                  (sched_run_reachable Detect selected workerCount s Hrun) Hpc)
        as (lines & commands & Hout & Hsp & Hres).
      exists lines, commands. split.
      * cbv zeta in Ho. subst o ending content generated results. f_equal.
        rewrite Hout, Hsp.
        destruct (bool_decide (0 < workerCount)%Z); destruct Hres as (-> & _);
          reflexivity.
      * destruct (bool_decide (0 < workerCount)%Z); destruct Hres as (_ & Hres);
          exact Hres.
    + intros Hall Hwf.
      pose proof (sched_ends_init Detect selected workerCount Hall) as Hends.
      split; [exact Hends|].
      destruct (sched_ends_run Detect selected workerCount _ Hends
                  (run_init Detect selected workerCount)) as (s & Hrun & Hpc).
      eexists. apply Hmain'. exists s. split; [exact Hrun|]. split; [exact Hpc|].
      split; [exact Hwf|reflexivity].
    + intros Hwc Hex o Ho. apply Hmain' in Ho as (s & Hrun & Hpc & _).
      exact (sched_run_hangs Detect selected workerCount s Hwc Hex Hrun Hpc).
    + intros Hwf o Ho. apply Hmain' in Ho as (s & _ & _ & Hret & _). exact (Hwf Hret).
Qed.

End Command.

Lemma main_no_ui_outcome_witness :
  let f := {| flag.outputFile := "sysprobe-report.md"; flag.noUI := true;
              flag.minified := false; flag.intro := true;
              flag.showVersion := false; flag.workers := 4 |} in
  let main := main (H := ascii_GoLib) (H0 := quick_Host) (H1 := freebsd_Env)
                (H2 := writable_World) [generic_Entry] f in
  let plat := Detect (H := ascii_GoLib) (H0 := freebsd_Env) in
  let task := plain_Task "host" "uname -n" "intro" in
  let generated :=
    generateFor (H := ascii_GoLib) (H0 := quick_Host) ReportIntro
      (NewMarkdownReport (H := writable_World) plat
         [expected (H := ascii_GoLib) (H0 := quick_Host) plat task]) in
  (exists o, main o)
  /\ forall o, main o ->
       o = Ended {| Ending_code := 0;
                    Ending_stdout :=
                      runningLine [task]
                      +:+ progressLine
                            (expected (H := ascii_GoLib) (H0 := quick_Host) plat task)
                      +:+ savedLine "sysprobe-intro.md" generated.1.2;
                    Ending_stderr := "";
                    Ending_writes := [("sysprobe-intro.md", generated.1.1)];
                    Ending_spawned := ["uname -n"] |}.
Proof.
  intros f main plat task generated.
  destruct (@main_no_ui_outcome ascii_GoLib quick_Host freebsd_Env writable_World
              [generic_Entry] f
              [plain_Task "kernel" "uname -a" "generic"; task]
              eq_refl eq_refl eq_refl) as [_ Hsel].
  destruct (Hsel ltac:(discriminate)) as (Hsafe & Hlive & _).
  split.
  - apply Hlive; [intros _; repeat constructor|exact I].
  - intros o Ho. destruct (Hsafe o Ho) as (lines & commands & -> & Hlines & Hcmds).
    apply Permutation_singleton_r in Hlines, Hcmds. subst lines commands.
    reflexivity.
Defined.

Lemma Run_identity `{lib : GoLib} `{host : Host} (r : Runner) (task : Task)
    (tr : list Event) :
  Name (Run r task tr).1 = Task_Name task
  /\ Command (Run r task tr).1 = Task_Command task
  /\ Category (Run r task tr).1 = Task_Category task.
Proof.
  unfold Run, bind. destruct (CanRun r task tr) as [[c reason] tr1].
  destruct c; simpl; [|auto].
  unfold spawn, ret. simpl.
  destruct (out_deadline _); [auto|]. destruct (out_err _); auto.
Qed.

Section CommandModes.
Context `{lib : GoLib} `{host : Host} `{env : Env} `{world : World}.


(** A profile file that cannot be read or parsed stops the command:
    when the entries before it load, [main] exits with status 1 and the
    loading error, whatever the flags other than [-version], whatever
    platform the profile was written for and whatever comes after it;
    no task is run and nothing is written. *)
Theorem main_broken_profile (ProbeFS good rest : list WalkEntry) (bad : WalkEntry)
    (msg : string) (f : flag.Flags) (o : Outcome) :
  flag.showVersion f = false ->
  ProbeFS = good ++ bad :: rest ->
  Forall (fun e => we_err e = None
                   /\ (isProfileFile e = true -> exists p, we_parsed e = Ok p)) good ->
  we_err bad = None -> isProfileFile bad = true -> we_parsed bad = Err msg ->
  main ProbeFS f o
  <-> o = Exit 1 "" ("Error loading probes: loading " +:+ we_path bad +:+ ": "
                     +:+ msg +:+ nl).
Proof.
  intros Hv Hfs Hgood Herr Hfile Hparsed.
  destruct (LoadAll_failure (NewLoader ProbeFS Detect) good rest bad
              ("loading " +:+ we_path bad +:+ ": " +:+ msg) Hfs Hgood)
    as (kept & _ & Hall).
  { right. exists msg. auto. }
  unfold main. rewrite Hv. unfold GetAllTasks. rewrite Hall.
  rewrite !app_assoc_s. reflexivity.
Qed.

End CommandModes.


Lemma main_broken_profile_witness :
  let broken :=
    {| we_path := "probes/debian.yaml"; we_err := None; we_isDir := false;
       we_parsed := Err "yaml: line 3: mapping values are not allowed" |} in
  let o := Exit 1 ""
             ("Error loading probes: loading probes/debian.yaml: "
              +:+ "yaml: line 3: mapping values are not allowed" +:+ nl) in
  main (H := ascii_GoLib) (H0 := quick_Host) (H1 := freebsd_Env) (H2 := writable_World)
    [generic_Entry; broken; inner_Entry] flag.defaults o
  <-> o = o.
Proof.
  intros broken o.
  apply (@main_broken_profile ascii_GoLib quick_Host freebsd_Env writable_World
           [generic_Entry; broken; inner_Entry] [generic_Entry] [inner_Entry] broken
           "yaml: line 3: mapping values are not allowed" flag.defaults o);
    try reflexivity.
  repeat constructor. intros _. eexists. reflexivity.
Defined.

(** ** The terminal UI *)

Lemma indexNames_spec (taskNames : list string) (k : nat) (acc : gmap string nat)
    (name : string) :
  ((name ∉ taskNames) /\ ui.indexNames k taskNames acc !! name = acc !! name)
  \/ (exists j, taskNames !! j = Some name
                /\ (forall j', j < j' -> taskNames !! j' <> Some name)
                /\ ui.indexNames k taskNames acc !! name = Some (k + j)).
Proof.
  revert k acc. induction taskNames as [|n rest IH]; intros k acc; simpl.
  - left. split; [apply not_elem_of_nil|reflexivity].
  - destruct (IH (S k) (<[n := k]> acc)) as [[Hnot Hl]|(j & Hj & Hlast & Hl)].
    + destruct (decide (n = name)) as [->|Hne].
      * right. exists 0. split; [reflexivity|]. split.
        -- intros [|j'] Hlt; [lia|]. simpl. intros Hj'.
           apply Hnot. eapply list_elem_of_lookup_2. exact Hj'.
        -- rewrite Hl, lookup_insert_eq. f_equal. lia.
      * left. split.
        -- rewrite not_elem_of_cons. split; [congruence|exact Hnot].
        -- rewrite Hl. apply lookup_insert_ne. exact Hne.
    + right. exists (S j). split; [exact Hj|]. split.
      * intros [|j'] Hlt; [lia|]. simpl. apply Hlast. lia.
      * rewrite Hl. f_equal. lia.
Qed.

Section Rows.
Variable taskNames : list string.

Let idx0 : gmap string nat := ui.indexNames 0 taskNames ∅.

Lemma idx0_Some (name : string) (i : nat) :
  idx0 !! name = Some i <->
  taskNames !! i = Some name /\ forall j, i < j -> taskNames !! j <> Some name.
Proof.
  unfold idx0.
  destruct (indexNames_spec taskNames 0 ∅ name) as [[Hnot Hl]|(j & Hj & Hlast & Hl)];
    rewrite Hl.
  - rewrite lookup_empty. split; [discriminate|]. intros [Hi _].
    exfalso. apply Hnot. eapply list_elem_of_lookup_2. exact Hi.
  - simpl. split.
    + intros [= <-]. auto.
    + intros [Hi Hlast']. f_equal.
      destruct (Nat.lt_trichotomy i j) as [Hlt|[->|Hlt]]; [|reflexivity|].
      * exfalso. exact (Hlast' j Hlt Hj).
      * exfalso. exact (Hlast i Hlt Hi).
Qed.

(** What a row holds after [result] has been stored at the index of
    its name. *)
Lemma storeRow_indexed (rows : list TaskResult) (result : TaskResult) (idx : nat) :
  Name <$> rows = taskNames ->
  idx0 !! Name result = Some idx ->
  ui.storeRow rows idx result = Some (<[idx := result]> rows)
  /\ Name <$> <[idx := result]> rows = taskNames
  /\ forall i name row,
       taskNames !! i = Some name -> rows !! i = Some row ->
       (<[idx := result]> rows) !! i
       = Some (if decide (idx0 !! name = Some i) then rowStore name row result
               else row).
Proof.
  intros Hnames Hidx. pose proof Hidx as Hidx'.
  apply idx0_Some in Hidx' as [Hat Hlast].
  assert (Hlt : idx < length rows).
  { rewrite <- (length_fmap Name), Hnames. eapply lookup_lt_Some. exact Hat. }
  split; [|split].
  - unfold ui.storeRow. rewrite bool_decide_eq_true_2 by exact Hlt. reflexivity.
  - rewrite list_fmap_insert, Hnames. apply list_insert_id. exact Hat.
  - intros i name row Hi Hrow. unfold rowStore.
    destruct (String.eqb_spec (Name result) name) as [He|He].
    + subst name. rewrite Hidx.
      destruct (decide (Some idx = Some i)) as [[= ->]|Hne].
      * apply list_lookup_insert_eq. exact Hlt.
      * rewrite list_lookup_insert_ne by congruence. exact Hrow.
    + rewrite list_lookup_insert_ne by congruence.
      rewrite Hrow. destruct (decide _); reflexivity.
Qed.

Lemma storeAll_indexed (results rows : list TaskResult) :
  Name <$> rows = taskNames ->
  exists rows',
    ui.storeAll idx0 rows results = Some rows'
    /\ Name <$> rows' = taskNames
    /\ forall i name row,
         taskNames !! i = Some name -> rows !! i = Some row ->
         rows' !! i
         = Some (if decide (idx0 !! name = Some i)
                 then foldl (rowStore name) row results else row).
Proof.
  revert rows. induction results as [|result results IH]; intros rows Hnames; simpl.
  - exists rows. split; [reflexivity|]. split; [exact Hnames|].
    intros i name row _ ->. destruct (decide _); reflexivity.
  - destruct (idx0 !! Name result) as [idx|] eqn:Hidx.
    + destruct (storeRow_indexed rows result idx Hnames Hidx) as (-> & Hn' & Hrow').
      destruct (IH _ Hn') as (rows' & -> & Hn'' & Hrows').
      exists rows'. split; [reflexivity|]. split; [exact Hn''|].
      intros i name row Hi Hrow.
      rewrite (Hrows' i name _ Hi (Hrow' i name row Hi Hrow)).
      destruct (decide _); reflexivity.
    + destruct (IH _ Hnames) as (rows' & -> & Hn'' & Hrows').
      exists rows'. split; [reflexivity|]. split; [exact Hn''|].
      intros i name row Hi Hrow. rewrite (Hrows' i name row Hi Hrow).
      destruct (decide (idx0 !! name = Some i)) as [Hd|Hd]; [|reflexivity].
      replace (rowStore name row result) with row; [reflexivity|].
      unfold rowStore.
      destruct (String.eqb_spec (Name result) name) as [He|He]; [|reflexivity].
      congruence.
Qed.

Lemma Update_indexed (m : ui.Model) (msg : ui.Msg) :
  ui.taskIndex m = idx0 -> Name <$> ui.tasks m = taskNames ->
  exists m' cmd,
    ui.Update m msg = Some (m', cmd)
    /\ ui.taskIndex m' = idx0
    /\ Name <$> ui.tasks m' = taskNames
    /\ forall i name row,
         taskNames !! i = Some name -> ui.tasks m !! i = Some row ->
         ui.tasks m' !! i
         = Some (if decide (idx0 !! name = Some i) then rowUpdate name row msg
                 else row).
Proof.
  intros Hindex Hnames.
  assert (Hsame : forall i name row,
             taskNames !! i = Some name -> ui.tasks m !! i = Some row ->
             ui.tasks m !! i
             = Some (if decide (idx0 !! name = Some i) then row else row)).
  { intros i name row _ ->. destruct (decide _); reflexivity. }
  destruct msg as [key|w h|t|n|result|results|path count|]; simpl.
  - destruct (String.eqb key "ctrl+c" || String.eqb key "q");
      [|destruct (String.eqb key "enter" || String.eqb key " ");
        [destruct (ui.waitingInput m)|]];
      eexists _, _; (split; [reflexivity|]); simpl; auto.
  - eexists _, _. split; [reflexivity|]. simpl. auto.
  - destruct (negb (ui.done m)); eexists _, _; (split; [reflexivity|]); simpl; auto.
  - rewrite Hindex. destruct (idx0 !! n) as [idx|] eqn:Hidx.
    + pose proof Hidx as Hidx'. apply idx0_Some in Hidx' as [Hat Hlast].
      assert (Hlt : idx < length (ui.tasks m)).
      { rewrite <- (length_fmap Name), Hnames. eapply lookup_lt_Some. exact Hat. }
      destruct (lookup_lt_is_Some_2 _ _ Hlt) as [row0 Hrow0].
      assert (Hname0 : Name row0 = n).
      { assert (H1 : (Name <$> ui.tasks m) !! idx = Some (Name row0))
          by (rewrite list_lookup_fmap, Hrow0; reflexivity).
        rewrite Hnames, Hat in H1. congruence. }
      unfold ui.startRow. rewrite Hrow0.
      eexists _, _. split; [reflexivity|]. simpl. split; [exact Hindex|]. split.
      * rewrite list_fmap_insert, Hnames. simpl. apply list_insert_id.
        rewrite Hname0. exact Hat.
      * intros i name row Hi Hrow.
        destruct (String.eqb_spec n name) as [He|He].
        -- subst name. rewrite Hidx.
           destruct (decide (Some idx = Some i)) as [[= ->]|Hne].
           ++ rewrite list_lookup_insert_eq by exact Hlt.
              rewrite Hrow in Hrow0. injection Hrow0 as ->. reflexivity.
           ++ rewrite list_lookup_insert_ne by congruence. exact Hrow.
        -- rewrite list_lookup_insert_ne by congruence.
           rewrite Hrow. destruct (decide _); reflexivity.
    + eexists _, _. split; [reflexivity|]. split; [exact Hindex|]. split; [exact Hnames|].
      intros i name row Hi Hrow. rewrite Hrow.
      destruct (decide (idx0 !! name = Some i)) as [Hd|Hd]; [|reflexivity].
      destruct (String.eqb_spec n name) as [He|He]; [congruence|reflexivity].
  - rewrite Hindex. destruct (idx0 !! Name result) as [idx|] eqn:Hidx.
    + destruct (storeRow_indexed _ result idx Hnames Hidx) as (-> & Hn' & Hrow').
      eexists _, _. split; [reflexivity|]. simpl. auto.
    + eexists _, _. split; [reflexivity|]. split; [exact Hindex|]. split; [exact Hnames|].
      intros i name row Hi Hrow. rewrite Hrow.
      destruct (decide (idx0 !! name = Some i)) as [Hd|Hd]; [|reflexivity].
      unfold rowStore.
      destruct (String.eqb_spec (Name result) name) as [He|He]; [congruence|reflexivity].
  - rewrite Hindex.
    destruct (storeAll_indexed results _ Hnames) as (rows' & -> & Hn' & Hrows').
    eexists _, _. split; [reflexivity|]. simpl. auto.
  - eexists _, _. split; [reflexivity|]. simpl. auto.
  - eexists _, _. split; [reflexivity|]. auto.
Qed.

Lemma Updates_indexed (msgs : list ui.Msg) (m : ui.Model) :
  ui.taskIndex m = idx0 -> Name <$> ui.tasks m = taskNames ->
  exists m',
    ui.Updates m msgs = Some m'
    /\ ui.taskIndex m' = idx0
    /\ Name <$> ui.tasks m' = taskNames
    /\ forall i name row,
         taskNames !! i = Some name -> ui.tasks m !! i = Some row ->
         ui.tasks m' !! i
         = Some (if decide (idx0 !! name = Some i)
                 then foldl (rowUpdate name) row msgs else row).
Proof.
  revert m. induction msgs as [|msg msgs IH]; intros m Hindex Hnames; simpl.
  - exists m. split; [reflexivity|]. split; [exact Hindex|]. split; [exact Hnames|].
    intros i name row _ ->. destruct (decide _); reflexivity.
  - destruct (Update_indexed m msg Hindex Hnames) as (m1 & cmd & -> & Hi1 & Hn1 & Hrow1).
    destruct (IH m1 Hi1 Hn1) as (m' & -> & Hi' & Hn' & Hrow').
    exists m'. split; [reflexivity|]. split; [exact Hi'|]. split; [exact Hn'|].
    intros i name row Hi Hrow.
    rewrite (Hrow' i name _ Hi (Hrow1 i name row Hi Hrow)).
    destruct (decide _); reflexivity.
Qed.

(** [Update] never indexes the rows out of range: from the model of
    [NewModel], every sequence of messages is handled without a panic,
    and the table keeps one row for each task name, in the order of
    the names.  The row of a name shows what the messages that carry
    this name made of it, independently of the other messages: a start
    marks it running, a result replaces it, and the final list
    replaces it with the last result of that name in it.  When a name
    occurs more than once, this holds of the last row of that name
    only: the rows before it stay pending, whatever is reported. *)
Theorem Updates_rows `{world : World} (msgs : list ui.Msg) :
  exists m,
    ui.Updates (ui.NewModel taskNames) msgs = Some m
    /\ Name <$> ui.tasks m = taskNames
    /\ forall i name,
         taskNames !! i = Some name ->
         ((forall j, i < j -> taskNames !! j <> Some name) ->
          ui.tasks m !! i
          = Some (foldl (rowUpdate name) (ui.pendingRow name) msgs))
         /\ (forall j, i < j -> taskNames !! j = Some name ->
             ui.tasks m !! i = Some (ui.pendingRow name)).
Proof.
  assert (Hn0 : Name <$> ui.tasks (ui.NewModel taskNames) = taskNames).
  { simpl. rewrite <- list_fmap_compose. apply list_fmap_id. }
  destruct (Updates_indexed msgs (ui.NewModel taskNames) eq_refl Hn0)
    as (m & Hm & _ & Hnames & Hrows).
  exists m. split; [exact Hm|]. split; [exact Hnames|].
  intros i name Hi.
  assert (Hrow : ui.tasks (ui.NewModel taskNames) !! i = Some (ui.pendingRow name)).
  { simpl. rewrite list_lookup_fmap, Hi. reflexivity. }
  specialize (Hrows i name _ Hi Hrow). split.
  - intros Hlast. rewrite Hrows, decide_True; [reflexivity|].
    apply idx0_Some. auto.
  - intros j Hlt Hj. rewrite Hrows, decide_False; [reflexivity|].
    intros Hd. apply idx0_Some in Hd as [_ Hlast]. exact (Hlast j Hlt Hj).
Qed.

End Rows.

Lemma Update_counters (m m' : ui.Model) (msg : ui.Msg) (cmd : ui.Cmd) :
  ui.Update m msg = Some (m', cmd) ->
  ui.total m' = ui.total m
  /\ ui.taskIndex m' = ui.taskIndex m
  /\ ui.done m' = ui.done m || isAllDone msg
  /\ ui.waitingInput m' = ui.waitingInput m || isReportDone msg
  /\ ui.completed m'
     = (ui.completed m
        + match doneName msg with
          | Some name => if bool_decide (is_Some (ui.taskIndex m !! name)) then 1 else 0
          | None => 0
          end)%Z
  /\ ui.spinnerIdx m'
     = (if isTick msg then Z.rem (ui.spinnerIdx m + 1) 10 else ui.spinnerIdx m)
  /\ cmd = cmdOf (ui.waitingInput m) (ui.done m) msg.
Proof.
  assert (Hno : forall b : bool, b || false = b) by (intros []; reflexivity).
  assert (Hyes : forall b : bool, b || true = true) by (intros []; reflexivity).
  destruct msg as [key|w h|t|n|result|results|path count|]; simpl;
    rewrite ?Hno, ?Hyes, ?Z.add_0_r.
  - destruct (String.eqb key "ctrl+c" || String.eqb key "q");
      [|destruct (String.eqb key "enter" || String.eqb key " ");
        [destruct (ui.waitingInput m) eqn:Ew|]];
      intros [= <- <-]; simpl; rewrite ?Ew; split_and!; reflexivity.
  - intros [= <- <-]. split_and!; reflexivity.
  - destruct (ui.done m) eqn:Ed; simpl; intros [= <- <-]; simpl;
      split_and!; auto.
  - destruct (ui.taskIndex m !! n) as [idx|]; [destruct (ui.startRow _ idx)|];
      intros [= <- <-]; split_and!; reflexivity.
  - destruct (ui.taskIndex m !! Name result) as [idx|] eqn:Hidx;
      [destruct (ui.storeRow _ idx result)|]; intros [= <- <-]; simpl.
    + split_and!; reflexivity.
    + rewrite Z.add_0_r. split_and!; reflexivity.
  - destruct (ui.storeAll _ _ results); intros [= <- <-]. split_and!; reflexivity.
  - intros [= <- <-]. split_and!; reflexivity.
  - intros [= <- <-]. split_and!; reflexivity.
Qed.

Lemma Updates_counters_from (msgs : list ui.Msg) (m m' : ui.Model) :
  ui.Updates m msgs = Some m' ->
  (0 <= ui.spinnerIdx m < 10)%Z ->
  ui.total m' = ui.total m
  /\ ui.taskIndex m' = ui.taskIndex m
  /\ ui.done m' = ui.done m || existsb isAllDone msgs
  /\ ui.waitingInput m' = ui.waitingInput m || existsb isReportDone msgs
  /\ ui.completed m'
     = (ui.completed m
        + Z.of_nat (length (filter (fun name => is_Some (ui.taskIndex m !! name))
                              (omap doneName msgs))))%Z
  /\ ui.spinnerIdx m'
     = ((ui.spinnerIdx m + Z.of_nat (length (filter isTick msgs))) mod 10)%Z.
Proof.
  revert m. induction msgs as [|msg msgs IH]; intros m; simpl.
  - intros [= <-] Hs. rewrite !orb_false_r, !Z.add_0_r.
    rewrite Z.mod_small by exact Hs. split_and!; reflexivity.
  - destruct (ui.Update m msg) as [[m1 cmd]|] eqn:Hup; [|discriminate].
    intros Hrest Hs.
    destruct (Update_counters m m1 msg cmd Hup)
      as (Ht & Hi & Hd & Hw & Hc & Hsp & _).
    assert (Hs1 : (0 <= ui.spinnerIdx m1 < 10)%Z).
    { rewrite Hsp. destruct (isTick msg); [|exact Hs].
      rewrite Z.rem_mod_nonneg by lia. apply Z.mod_pos_bound. lia. }
    destruct (IH m1 Hrest Hs1) as (Ht' & Hi' & Hd' & Hw' & Hc' & Hsp').
    rewrite Ht', Hi', Hd', Hw', Hc', Hsp', Ht, Hi, Hd, Hw, Hc, Hsp.
    rewrite !orb_assoc. split_and!; try reflexivity.
    + change (omap doneName msgs) with (list_omap _ _ doneName msgs).
      destruct (doneName msg) as [name|]; [|lia].
      rewrite filter_cons.
      destruct (decide (is_Some (ui.taskIndex m !! name))) as [Hk|Hk].
      * rewrite bool_decide_eq_true_2 by exact Hk. rewrite length_cons. lia.
      * rewrite bool_decide_eq_false_2 by exact Hk. lia.
    + rewrite filter_cons. destruct (isTick msg) eqn:Etick.
      * rewrite decide_True by exact I. rewrite length_cons.
        rewrite Z.rem_mod_nonneg by lia.
        rewrite Zplus_mod_idemp_l. f_equal. lia.
      * rewrite decide_False by (intros []). reflexivity.
Qed.

Lemma indexNames_known (taskNames : list string) (name : string) :
  is_Some (ui.indexNames 0 taskNames ∅ !! name) <-> name ∈ taskNames.
Proof.
  destruct (indexNames_spec taskNames 0 ∅ name) as [[Hnot Hl]|(j & Hj & _ & Hl)];
    rewrite Hl.
  - rewrite lookup_empty. split; [intros [? [=]]|contradiction].
  - split; [intros _; eapply list_elem_of_lookup_2; exact Hj|eauto].
Qed.

Section Counters.
Context `{world : World}.
Variable taskNames : list string.

(** From the model of [NewModel], after any sequence of messages: the
    total is the number of task names; the completed count is the
    number of [TaskDoneMsg] delivered whose result carries one of the
    task names, so that a result reported twice is counted twice; the
    spinner index is the number of ticks modulo the number of frames,
    hence always the index of a frame; the scan is marked done exactly
    when an [AllDoneMsg] has been delivered, and the model waits for a
    key exactly when a [ReportDoneMsg] has been. *)
Theorem Updates_counters (msgs : list ui.Msg) :
  exists m,
    ui.Updates (ui.NewModel taskNames) msgs = Some m
    /\ ui.total m = Z.of_nat (length taskNames)
    /\ ui.completed m
       = Z.of_nat (length (filter (fun name => name ∈ taskNames) (omap doneName msgs)))
    /\ ui.spinnerIdx m = (Z.of_nat (length (filter isTick msgs)) mod 10)%Z
    /\ (0 <= ui.spinnerIdx m < ui.SpinnerFrames_len)%Z
    /\ ui.done m = existsb isAllDone msgs
    /\ ui.waitingInput m = existsb isReportDone msgs.
Proof.
  assert (Hn0 : Name <$> ui.tasks (ui.NewModel taskNames) = taskNames).
  { simpl. rewrite <- list_fmap_compose. apply list_fmap_id. }
  destruct (Updates_indexed taskNames msgs (ui.NewModel taskNames) eq_refl Hn0)
    as (m & Hm & _).
  exists m. split; [exact Hm|].
  destruct (Updates_counters_from msgs _ m Hm) as (Ht & _ & Hd & Hw & Hc & Hs);
    [simpl; lia|].
  rewrite Ht, Hd, Hw, Hc, Hs. simpl.
  split_and!; try reflexivity.
  - rewrite Z.add_0_l. f_equal. f_equal.
    apply list_filter_iff. intros name. apply indexNames_known.
  - apply Z.mod_pos_bound. reflexivity.
  - apply Z.mod_pos_bound. reflexivity.
Qed.

(** From the model of [NewModel], after any sequence of messages, every
    message is handled, and the command returned for it is: to quit,
    exactly for the keys [q] and [ctrl+c], and for [enter] and the
    space key once a [ReportDoneMsg] has been delivered, so that these
    two keys do nothing before the report is written; the next tick,
    exactly for a tick as long as no [AllDoneMsg] has been delivered;
    and nothing otherwise. *)
Theorem Update_commands (msgs : list ui.Msg) (msg : ui.Msg) :
  exists m m' cmd,
    ui.Updates (ui.NewModel taskNames) msgs = Some m
    /\ ui.Update m msg = Some (m', cmd)
    /\ (cmd = ui.Quit <->
        exists key, msg = ui.KeyMsg key
                    /\ (key = "ctrl+c" \/ key = "q"
                        \/ (existsb isReportDone msgs = true
                            /\ (key = "enter" \/ key = " "))))
    /\ (cmd = ui.tickCmd <-> isTick msg = true /\ existsb isAllDone msgs = false)
    /\ (cmd = ui.Quit \/ cmd = ui.tickCmd \/ cmd = ui.Nil).
Proof.
  assert (Hn0 : Name <$> ui.tasks (ui.NewModel taskNames) = taskNames).
  { simpl. rewrite <- list_fmap_compose. apply list_fmap_id. }
  destruct (Updates_indexed taskNames msgs (ui.NewModel taskNames) eq_refl Hn0)
    as (m & Hm & Hi & Hn & _).
  destruct (Update_indexed taskNames m msg Hi Hn) as (m' & cmd & Hup & _).
  exists m, m', cmd. split; [exact Hm|]. split; [exact Hup|].
  destruct (Updates_counters_from msgs _ m Hm) as (_ & _ & Hd & Hw & _);
    [simpl; lia|].
  destruct (Update_counters m m' msg cmd Hup) as (_ & _ & _ & _ & _ & _ & ->).
  rewrite Hd, Hw. simpl.
  set (w := existsb isReportDone msgs). set (d := existsb isAllDone msgs).
  split; [|split].
  - destruct msg as [key|? ?|?|?|?|?|? ?|]; simpl;
      try (split; [discriminate|intros (key & [=] & _)]).
    + destruct (String.eqb_spec key "ctrl+c") as [E1|E1]; simpl.
      { split; [intros _; exists key; split; [reflexivity|tauto]|reflexivity]. }
      destruct (String.eqb_spec key "q") as [E2|E2]; simpl.
      { split; [intros _; exists key; split; [reflexivity|tauto]|reflexivity]. }
      destruct (String.eqb_spec key "enter") as [E3|E3]; simpl.
      { destruct w; simpl.
        - split; [intros _; exists key; split; [reflexivity|tauto]|reflexivity].
        - split; [discriminate|]. intros (key' & [= <-] & [?|[?|[[=] _]]]); congruence. }
      destruct (String.eqb_spec key " ") as [E4|E4]; simpl.
      { destruct w; simpl.
        - split; [intros _; exists key; split; [reflexivity|tauto]|reflexivity].
        - split; [discriminate|]. intros (key' & [= <-] & [?|[?|[[=] _]]]); congruence. }
      split; [discriminate|].
      intros (key' & [= <-] & [?|[?|[_ [?|?]]]]); congruence.
    + destruct d; split; try discriminate; intros (key & [=] & _).
  - destruct msg as [key|? ?|?|?|?|?|? ?|]; simpl;
      try (split; [discriminate|intros [[=] _]]).
    + destruct (String.eqb key "ctrl+c" || String.eqb key "q");
        [|destruct ((String.eqb key "enter" || String.eqb key " ") && w)];
        (split; [discriminate|intros [[=] _]]).
    + destruct d; [split; [discriminate|intros [_ [=]]]|tauto].
  - destruct msg as [key|? ?|?|?|?|?|? ?|]; simpl; auto.
    + destruct (String.eqb key "ctrl+c" || String.eqb key "q");
        [|destruct ((String.eqb key "enter" || String.eqb key " ") && w)]; auto.
    + destruct d; auto.
Qed.

End Counters.





(** The table shows the last rows only: at most 15, and with more
    tasks the first ones are above it, counted in its last line, and
    not shown, whatever happens to them.  A name of at most 38 bytes is
    shown whole; a longer one is shown as its first 35 bytes followed by
    three dots, which makes 38 bytes. *)
Theorem visibleRows_spec (m : ui.Model) :
  let '(rows, above) := ui.visibleRows m in
  ui.tasks m = take above (ui.tasks m) ++ rows
  /\ length rows = Nat.min 15 (length (ui.tasks m))
  /\ above = length (ui.tasks m) - 15
  /\ Forall (fun task =>
               ((len (Name task) <= 38)%Z -> ui.rowName task = Name task)
               /\ ((38 < len (Name task))%Z ->
                   ui.rowName task = slice_to 35 (Name task) +:+ "..."
                   /\ len (slice_to 35 (Name task)) = 35%Z
                   /\ Name task
                      = slice_to 35 (Name task) +:+ slice_from 35 (Name task)
                   /\ len (ui.rowName task) = 38%Z)
               /\ (len (ui.rowName task) <= 38)%Z) rows.
Proof.
  unfold ui.visibleRows.
  set (above := if bool_decide (15 < length (ui.tasks m))
                then length (ui.tasks m) - 15 else 0).
  assert (Habove : above = length (ui.tasks m) - 15).
  { subst above. destruct (decide (15 < length (ui.tasks m))) as [Hd|Hd].
    - rewrite bool_decide_eq_true_2 by exact Hd. reflexivity.
    - rewrite bool_decide_eq_false_2 by exact Hd. lia. }
  split; [symmetry; apply take_drop|]. split; [rewrite length_drop; lia|].
  split; [exact Habove|].
  apply Forall_forall. intros task _. unfold ui.rowName.
  destruct (Z.gtb_spec (len (Name task)) 38) as [Hlong|Hshort].
  - assert (Hlen : String.length (slice_to 35 (Name task)) = 35).
    { apply slice_to_length. unfold len in Hlong. lia. }
    assert (Hrow : len (slice_to 35 (Name task) +:+ "...") = 38%Z).
    { rewrite len_app. unfold len. rewrite Hlen. reflexivity. }
    split; [lia|]. split; [|lia].
    intros _. split; [reflexivity|]. split; [unfold len; lia|].
    split; [symmetry; apply slice_to_from|exact Hrow].
  - split; [reflexivity|]. split; [lia|exact Hshort].
Qed.

(** ** The scheduler with the terminal UI *)

Lemma omap_insert_split {A B} (f : A -> option B) (l : list A) (i : nat)
    (old new : A) :
  l !! i = Some old ->
  omap f (<[i := new]> l) = omap f (take i l) ++ omap f [new] ++ omap f (drop (S i) l)
  /\ omap f l = omap f (take i l) ++ omap f [old] ++ omap f (drop (S i) l).
Proof.
  intros Hi. split.
  - rewrite insert_take_drop by (eapply lookup_lt_Some; eassumption).
    change (new :: drop (S i) l) with ([new] ++ drop (S i) l).
    rewrite !omap_app. reflexivity.
  - rewrite <- (take_drop_middle l i old Hi) at 1.
    change (old :: drop (S i) l) with ([old] ++ drop (S i) l).
    rewrite !omap_app. reflexivity.
Qed.

Lemma app_snoc_prefix {A} (l pre post : list A) (x : A) :
  l ++ [x] = pre ++ post ->
  (pre = l ++ [x] /\ post = []) \/ exists post', l = pre ++ post'.
Proof.
  intros Heq. destruct post as [|y post _] using rev_ind.
  - left. rewrite app_nil_r in Heq. auto.
  - right. rewrite (assoc_L (++)) in Heq. apply app_inj_tail in Heq as [-> _]. eauto.
Qed.

Lemma forallb_snoc {A} (f : A -> bool) (l : list A) (x : A) :
  forallb f (l ++ [x]) = forallb f l && f x.
Proof. rewrite forallb_app. simpl. rewrite andb_true_r. reflexivity. Qed.

Ltac perm_norm :=
  repeat progress
    (rewrite ?fmap_app, ?omap_app, <- ?(assoc_L (++));
     cbn [fmap list_fmap omap list_omap w_task w_running w_produced w_unnotified
          startName doneResult app]);
  rewrite <- ?Permutation_middle, ?app_nil_r.

Section WithUI.
Context `{lib : GoLib} `{host : Host} `{world : World}.
Variable plat : Platform.
Variable tasks : list Task.
Variable workerCount : Z.
Variable outputFile : string.
Variable mode : ReportMode.

Lemma uisched_inv_init :
  uisched_inv plat tasks workerCount outputFile mode (uisched_init workerCount).
Proof.
  assert (Hidle : forall {B} (f : UIWorker -> option B),
             f UReceiving = None ->
             omap f (replicate (Z.to_nat workerCount) UReceiving) = []).
  { intros B f Hf. induction (Z.to_nat workerCount) as [|n IH]; [reflexivity|].
    simpl. rewrite Hf. exact IH. }
  constructor; unfold ui_fed; simpl; rewrite ?Hidle by reflexivity.
  - apply length_replicate.
  - lia.
  - simpl. rewrite !app_nil_r. reflexivity.
  - reflexivity.
  - reflexivity.
  - intros w Hw. apply lookup_replicate in Hw as [[=] _].
  - discriminate.
  - contradiction.
  - auto.
  - split; reflexivity.
  - intros [|? ?] post Hs; [apply submseteq_nil_l|discriminate].
Qed.

Lemma uisched_inv_step (s s' : UISched) :
  uisched_step plat tasks outputFile mode s s' ->
  uisched_inv plat tasks workerCount outputFile mode s ->
  uisched_inv plat tasks workerCount outputFile mode s'.
Proof.
  intros Hstep [Hwl Hfed Hcons Hnot Hsta Hdone Hclosed Hcoll Hidle Hrep Hpre].
  assert (Hactive : forall w x, ui_workers s !! w = Some x -> x <> UDone ->
                                ui_resultsClosed s = false
                                /\ ui_collector s = Collecting).
  { intros w x Hw Hx.
    assert (Hopen : ui_resultsClosed s = false).
    { destruct (ui_resultsClosed s) eqn:Hc; [|reflexivity].
      specialize (Hclosed eq_refl). rewrite Forall_lookup in Hclosed.
      specialize (Hclosed w _ Hw). contradiction. }
    split; [exact Hopen|].
    destruct (decide (ui_collector s = Collecting)) as [Hc|Hc]; [exact Hc|].
    destruct (Hcoll Hc) as [Hcl _]. congruence. }
  assert (Hdones : omap doneResult (ui_sent s) ⊆+ ui_resultsChan s ++ ui_results s).
  { rewrite <- Hnot. apply submseteq_inserts_r. reflexivity. }
  destruct Hstep as [s i task Hpc Htask Hlen|s i Hpc Hi|s w task rest Hw Hchan
                    |s w task Hw|s w task result calls Hw Hrun|s w result Hw Hlen Hopen
                    |s w result Hw|s w Hw Hchan Hfeeder|s Hopen Hall
                    |s result rest Hpc Hchan|s Hpc Hchan Hcl|s Hpc|s tokenCount Hpc
                      |s tokenCount Hpc].
  - (* the feeder sends a task *)
    constructor; unfold ui_fed, reported in *; simpl; rewrite ?Hpc in *;
      try assumption.
    + apply lookup_lt_Some in Htask. lia.
    + rewrite <- Hcons. rewrite (drop_S _ _ _ Htask). perm_norm. reflexivity.
    + intros w Hw. destruct (Hdone w Hw) as [_ [=]].
  - (* the feeder closes the channel *)
    constructor; unfold ui_fed, reported in *; simpl; rewrite ?Hpc in *;
      try assumption.
    + lia.
    + rewrite <- Hcons. rewrite !drop_ge by lia. reflexivity.
    + intros w Hw. destruct (Hdone w Hw) as [_ [=]].
  - (* a worker receives a task *)
    destruct (omap_insert_split w_task _ _ _ (UStarting task) Hw) as [Et Et'].
    destruct (omap_insert_split w_running _ _ _ (UStarting task) Hw) as [Er Er'].
    destruct (omap_insert_split w_produced _ _ _ (UStarting task) Hw) as [Ep Ep'].
    destruct (omap_insert_split w_unnotified _ _ _ (UStarting task) Hw) as [Eu Eu'].
    constructor; unfold ui_fed, reported in *; simpl; try assumption.
    + rewrite length_insert. exact Hwl.
    + rewrite <- Hcons. rewrite Et, Et', Ep, Ep', Hchan. perm_norm. reflexivity.
    + rewrite Hchan in *. revert Hnot. rewrite Eu, Eu'. perm_norm. auto.
    + revert Hsta. rewrite Er, Er', Ep, Ep'. perm_norm. auto.
    + intros w' Hw'. destruct (decide (w' = w)) as [->|Hne].
      * rewrite list_lookup_insert_eq in Hw' by (eapply lookup_lt_Some; eassumption).
        discriminate.
      * rewrite list_lookup_insert_ne in Hw' by congruence.
        destruct (Hdone w' Hw') as [Hc _]. rewrite Hc in Hchan. discriminate.
    + intros Hc. specialize (Hclosed Hc). rewrite Forall_lookup in Hclosed.
      specialize (Hclosed w _ Hw). discriminate.
    + intros Hn. apply insert_nil_inv in Hn. rewrite Hn in Hw. discriminate.
  - (* a worker tells that the task starts *)
    destruct (omap_insert_split w_task _ _ _ (URunning task) Hw) as [Et Et'].
    destruct (omap_insert_split w_running _ _ _ (URunning task) Hw) as [Er Er'].
    destruct (omap_insert_split w_produced _ _ _ (URunning task) Hw) as [Ep Ep'].
    destruct (omap_insert_split w_unnotified _ _ _ (URunning task) Hw) as [Eu Eu'].
    assert (Hsta' : omap startName (ui_sent s ++ [ui.TaskStartMsg (Task_Name task)])
                    ≡ₚ (Task_Name <$> omap w_running
                                        (<[w := URunning task]> (ui_workers s)))
                       ++ (Name <$> omap w_produced
                                      (<[w := URunning task]> (ui_workers s))
                                    ++ ui_resultsChan s ++ ui_results s)).
    { revert Hsta. rewrite Er, Er', Ep, Ep'. perm_norm. intros ->.
      perm_norm. rewrite ?app_nil_r. reflexivity. }
    assert (Hnot' : omap doneResult (ui_sent s ++ [ui.TaskStartMsg (Task_Name task)])
                    ++ omap w_unnotified (<[w := URunning task]> (ui_workers s))
                    ≡ₚ ui_resultsChan s ++ ui_results s).
    { revert Hnot. rewrite Eu, Eu'. perm_norm. auto. }
    constructor; unfold ui_fed, reported in *; simpl; try assumption.
    + rewrite length_insert. exact Hwl.
    + rewrite <- Hcons. rewrite Et, Et', Ep, Ep'. perm_norm. reflexivity.
    + intros w' Hw'. destruct (decide (w' = w)) as [->|Hne].
      * rewrite list_lookup_insert_eq in Hw' by (eapply lookup_lt_Some; eassumption).
        discriminate.
      * rewrite list_lookup_insert_ne in Hw' by congruence. exact (Hdone w' Hw').
    + intros Hc. specialize (Hclosed Hc). rewrite Forall_lookup in Hclosed.
      specialize (Hclosed w _ Hw). discriminate.
    + intros Hn. apply insert_nil_inv in Hn. rewrite Hn in Hw. discriminate.
    + destruct (Hactive w _ Hw ltac:(discriminate)) as [_ Ec]. rewrite Ec in *.
      destruct Hrep as [Hall Hfile]. split; [|exact Hfile].
      rewrite forallb_snoc, Hall. reflexivity.
    + intros pre post Hsplit. apply app_snoc_prefix in Hsplit as [[-> _]|[post' Hs]].
      * rewrite Hsta'. rewrite omap_app. cbn [omap list_omap doneResult].
        rewrite app_nil_r.
        rewrite Hdones. rewrite !fmap_app.
        apply submseteq_inserts_l, submseteq_inserts_l. reflexivity.
      * eapply Hpre. exact Hs.
  - (* a worker runs the task *)
    pose proof (Run_expected plat task _ _ _ Hrun) as Hres.
    assert (Hname : Name result = Task_Name task).
    { rewrite Hres. unfold expected. apply Run_identity. }
    destruct (omap_insert_split w_task _ _ _ (USending result) Hw) as [Et Et'].
    destruct (omap_insert_split w_running _ _ _ (USending result) Hw) as [Er Er'].
    destruct (omap_insert_split w_produced _ _ _ (USending result) Hw) as [Ep Ep'].
    destruct (omap_insert_split w_unnotified _ _ _ (USending result) Hw) as [Eu Eu'].
    constructor; unfold ui_fed, reported in *; simpl; try assumption.
    + rewrite length_insert. exact Hwl.
    + rewrite <- Hcons. rewrite Et, Et', Ep, Ep'. perm_norm. rewrite Hres. reflexivity.
    + revert Hnot. rewrite Eu, Eu'. perm_norm. auto.
    + revert Hsta. rewrite Er, Er', Ep, Ep'. perm_norm. rewrite Hname. auto.
    + intros w' Hw'. destruct (decide (w' = w)) as [->|Hne].
      * rewrite list_lookup_insert_eq in Hw' by (eapply lookup_lt_Some; eassumption).
        discriminate.
      * rewrite list_lookup_insert_ne in Hw' by congruence. exact (Hdone w' Hw').
    + intros Hc. destruct (Hactive w _ Hw ltac:(discriminate)) as [Ho _]. congruence.
    + intros Hn. apply insert_nil_inv in Hn. rewrite Hn in Hw. discriminate.
  - (* a worker sends the result *)
    destruct (omap_insert_split w_task _ _ _ (UNotifying result) Hw) as [Et Et'].
    destruct (omap_insert_split w_running _ _ _ (UNotifying result) Hw) as [Er Er'].
    destruct (omap_insert_split w_produced _ _ _ (UNotifying result) Hw) as [Ep Ep'].
    destruct (omap_insert_split w_unnotified _ _ _ (UNotifying result) Hw) as [Eu Eu'].
    constructor; unfold ui_fed, reported in *; simpl; try assumption.
    + rewrite length_insert. exact Hwl.
    + rewrite <- Hcons. rewrite Et, Et', Ep, Ep'. perm_norm. reflexivity.
    + revert Hnot. rewrite Eu, Eu'. perm_norm. intros ->. reflexivity.
    + revert Hsta. rewrite Er, Er', Ep, Ep'. perm_norm. auto.
    + intros w' Hw'. destruct (decide (w' = w)) as [->|Hne].
      * rewrite list_lookup_insert_eq in Hw' by (eapply lookup_lt_Some; eassumption).
        discriminate.
      * rewrite list_lookup_insert_ne in Hw' by congruence. exact (Hdone w' Hw').
    + intros Hc. congruence.
    + intros Hc. destruct (Hactive w _ Hw ltac:(discriminate)) as [_ Ec]. contradiction.
    + intros Hn. apply insert_nil_inv in Hn. rewrite Hn in Hw. discriminate.
  - (* a worker tells that the task is done *)
    destruct (omap_insert_split w_task _ _ _ UReceiving Hw) as [Et Et'].
    destruct (omap_insert_split w_running _ _ _ UReceiving Hw) as [Er Er'].
    destruct (omap_insert_split w_produced _ _ _ UReceiving Hw) as [Ep Ep'].
    destruct (omap_insert_split w_unnotified _ _ _ UReceiving Hw) as [Eu Eu'].
    assert (Hnot' : omap doneResult (ui_sent s ++ [ui.TaskDoneMsg result])
                    ++ omap w_unnotified (<[w := UReceiving]> (ui_workers s))
                    ≡ₚ ui_resultsChan s ++ ui_results s).
    { revert Hnot. rewrite Eu, Eu'. perm_norm. rewrite ?app_nil_r. auto. }
    assert (Hsta' : omap startName (ui_sent s ++ [ui.TaskDoneMsg result])
                    ≡ₚ (Task_Name <$> omap w_running
                                        (<[w := UReceiving]> (ui_workers s)))
                       ++ (Name <$> omap w_produced
                                      (<[w := UReceiving]> (ui_workers s))
                                    ++ ui_resultsChan s ++ ui_results s)).
    { revert Hsta. rewrite Er, Er', Ep, Ep'. perm_norm. rewrite ?app_nil_r. auto. }
    constructor; unfold ui_fed, reported in *; simpl; try assumption.
    + rewrite length_insert. exact Hwl.
    + rewrite <- Hcons. rewrite Et, Et', Ep, Ep'. perm_norm. reflexivity.
    + intros w' Hw'. destruct (decide (w' = w)) as [->|Hne].
      * rewrite list_lookup_insert_eq in Hw' by (eapply lookup_lt_Some; eassumption).
        discriminate.
      * rewrite list_lookup_insert_ne in Hw' by congruence. exact (Hdone w' Hw').
    + intros Hc. destruct (Hactive w _ Hw ltac:(discriminate)) as [Ho _]. congruence.
    + intros Hn. apply insert_nil_inv in Hn. rewrite Hn in Hw. discriminate.
    + destruct (Hactive w _ Hw ltac:(discriminate)) as [_ Ec]. rewrite Ec in *.
      destruct Hrep as [Hall Hfile]. split; [|exact Hfile].
      rewrite forallb_snoc, Hall. reflexivity.
    + intros pre post Hsplit. apply app_snoc_prefix in Hsplit as [[-> _]|[post' Hs]].
      * rewrite Hsta'.
        assert (Hsub : omap doneResult (ui_sent s ++ [ui.TaskDoneMsg result])
                       ⊆+ ui_resultsChan s ++ ui_results s).
        { rewrite <- Hnot'. apply submseteq_inserts_r. reflexivity. }
        rewrite Hsub. rewrite !fmap_app.
        apply submseteq_inserts_l, submseteq_inserts_l. reflexivity.
      * eapply Hpre. exact Hs.
  - (* a worker finds the channel closed *)
    destruct (omap_insert_split w_task _ _ _ UDone Hw) as [Et Et'].
    destruct (omap_insert_split w_running _ _ _ UDone Hw) as [Er Er'].
    destruct (omap_insert_split w_produced _ _ _ UDone Hw) as [Ep Ep'].
    destruct (omap_insert_split w_unnotified _ _ _ UDone Hw) as [Eu Eu'].
    constructor; unfold ui_fed, reported in *; simpl; try assumption.
    + rewrite length_insert. exact Hwl.
    + rewrite <- Hcons. rewrite Et, Et', Ep, Ep'. perm_norm. reflexivity.
    + revert Hnot. rewrite Eu, Eu'. perm_norm. auto.
    + revert Hsta. rewrite Er, Er', Ep, Ep'. perm_norm. auto.
    + auto.
    + intros Hc. destruct (Hactive w _ Hw ltac:(discriminate)) as [Ho _]. congruence.
    + intros Hn. apply insert_nil_inv in Hn. rewrite Hn in Hw. discriminate.
  - (* the workers have returned: the results channel is closed *)
    constructor; unfold ui_fed, reported in *; simpl; try assumption.
    + auto.
    + intros Hc. destruct (Hcoll Hc) as [Hcl _]. congruence.
  - (* the collector receives a result *)
    constructor; unfold ui_fed, reported in *; simpl; try assumption.
    + rewrite <- Hcons. rewrite Hchan. perm_norm. reflexivity.
    + rewrite Hchan in Hnot. rewrite Hnot. perm_norm. reflexivity.
    + rewrite Hchan in Hsta. rewrite Hsta. perm_norm. reflexivity.
    + intros Hc. contradiction.
    + intros Hn. destruct (Hidle Hn) as [Hc _]. rewrite Hc in Hchan. discriminate.
    + rewrite Hpc in *. exact Hrep.
  - (* the collector tells that all is done *)
    constructor; unfold ui_fed, reported in *; simpl; try assumption.
    + rewrite omap_app. cbn [omap list_omap doneResult]. rewrite app_nil_r. exact Hnot.
    + rewrite omap_app. cbn [omap list_omap startName]. rewrite app_nil_r. exact Hsta.
    + auto.
    + rewrite Hpc in Hrep. destruct Hrep as [Hall Hfile]. exists (ui_sent s). auto.
    + intros pre post Hsplit. apply app_snoc_prefix in Hsplit as [[-> _]|[post' Hs]].
      * rewrite !omap_app. cbn [omap list_omap startName doneResult].
        rewrite !app_nil_r. apply (Hpre (ui_sent s) []). rewrite app_nil_r. reflexivity.
      * eapply Hpre. exact Hs.
  - (* the collector renders the report and writes it *)
    pose proof (generateFor_no_error mode (NewMarkdownReport plat (ui_results s)))
      as Herr.
    unfold reported in Hrep. rewrite Hpc in Hrep.
    destruct Hrep as (pre & Hall & Hsent & Hfile).
    destruct (Hcoll ltac:(congruence)) as [Hcl Hch]. cbv zeta.
    destruct (generateFor mode (NewMarkdownReport plat (ui_results s)))
      as [[content tokenCount] err] eqn:Hgen.
    simpl in Herr. subst err. unfold writeReport.
    constructor; unfold ui_fed, reported in *; simpl;
      try assumption; try (intros _; auto; fail).
    rewrite Hgen. simpl. rewrite Hfile. exists pre. auto.
  - (* [os.WriteFile] returns *)
    unfold reported in Hrep. rewrite Hpc in Hrep.
    destruct (Hcoll ltac:(congruence)) as [Hcl Hch].
    constructor; unfold ui_fed, reported in *; simpl;
      try assumption; try (intros _; auto; fail).
  - (* the collector tells that the report is done *)
    unfold reported in Hrep. rewrite Hpc in Hrep.
    destruct Hrep as (pre & Hall & Hsent & Hfile & Htc).
    destruct (Hcoll ltac:(congruence)) as [Hcl Hch].
    constructor; unfold ui_fed, reported in *; simpl; try assumption.
    + rewrite omap_app. cbn [omap list_omap doneResult]. rewrite app_nil_r. exact Hnot.
    + rewrite omap_app. cbn [omap list_omap startName]. rewrite app_nil_r. exact Hsta.
    + auto.
    + exists pre. split; [exact Hall|]. split; [|exact Hfile].
      rewrite Hsent, Htc, <- (assoc_L (++)). reflexivity.
    + intros pre' post Hsplit. apply app_snoc_prefix in Hsplit as [[-> _]|[post' Hs]].
      * rewrite !omap_app. cbn [omap list_omap startName doneResult].
        rewrite !app_nil_r. apply (Hpre (ui_sent s) []). rewrite app_nil_r. reflexivity.
      * eapply Hpre. exact Hs.
Qed.

Lemma uisched_inv_reachable (s : UISched) :
  uisched_reachable plat tasks workerCount outputFile mode s ->
  uisched_inv plat tasks workerCount outputFile mode s.
Proof.
  induction 1 as [|s s' _ IH Hstep]; [apply uisched_inv_init|].
  eapply uisched_inv_step; eassumption.
Qed.

Lemma sum_uiweight_insert (l : list UIWorker) (w : nat) (old new : UIWorker) :
  l !! w = Some old ->
  sum_list_with uiworker_weight (<[w:=new]> l) + uiworker_weight old
  = sum_list_with uiworker_weight l + uiworker_weight new.
Proof.
  revert w. induction l as [|x l IH]; intros [|w] Hw; simpl in *; try discriminate.
  - injection Hw as ->. lia.
  - specialize (IH w Hw). lia.
Qed.

(** Every step brings the end nearer: the goroutines do not run for
    ever. *)
Lemma uisched_step_measure (s s' : UISched) :
  uisched_step plat tasks outputFile mode s s' ->
  uisched_measure tasks s' < uisched_measure tasks s.
Proof.
  intros Hstep.
  destruct Hstep as [s i task Hpc Htask Hlen|s i Hpc Hi|s w task rest Hw Hchan
                    |s w task Hw|s w task result calls Hw Hrun|s w result Hw Hlen Hopen
                    |s w result Hw|s w Hw Hchan Hfeeder|s Hopen Hall
                    |s result rest Hpc Hchan|s Hpc Hchan Hcl|s Hpc|s tokenCount Hpc
                      |s tokenCount Hpc];
    unfold uisched_measure; simpl.
  - rewrite Hpc, length_app. simpl. apply lookup_lt_Some in Htask. lia.
  - rewrite Hpc. lia.
  - rewrite Hchan. simpl.
    pose proof (sum_uiweight_insert _ _ _ (UStarting task) Hw) as Hs. simpl in Hs. lia.
  - pose proof (sum_uiweight_insert _ _ _ (URunning task) Hw) as Hs. simpl in Hs. lia.
  - pose proof (sum_uiweight_insert _ _ _ (USending result) Hw) as Hs. simpl in Hs. lia.
  - rewrite length_app. simpl.
    pose proof (sum_uiweight_insert _ _ _ (UNotifying result) Hw) as Hs.
    simpl in Hs. lia.
  - pose proof (sum_uiweight_insert _ _ _ UReceiving Hw) as Hs. simpl in Hs. lia.
  - pose proof (sum_uiweight_insert _ _ _ UDone Hw) as Hs. simpl in Hs. lia.
  - rewrite Hopen. lia.
  - rewrite Hchan. simpl. lia.
  - rewrite Hpc. lia.
  - rewrite Hpc.
    destruct (generateFor mode (NewMarkdownReport plat (ui_results s)))
      as [[content tokenCount] [err|]]; simpl; lia.
  - rewrite Hpc. lia.
  - rewrite Hpc. lia.
Qed.

Lemma workers_done_or_active (ws : list UIWorker) :
  Forall (fun w => w = UDone) ws
  \/ exists w x, ws !! w = Some x /\ x <> UDone.
Proof.
  induction ws as [|x ws [IH|(w & y & Hw & Hy)]].
  - left. constructor.
  - destruct x; try (right; exists 0; eexists; split; [reflexivity|discriminate]).
    left. constructor; [reflexivity|exact IH].
  - right. exists (S w), y. auto.
Qed.

(** As long as the collector has not finished, some goroutine can take
    a step: no channel operation blocks for ever and no send finds its
    channel closed, with any number of workers. *)
Lemma uisched_progress (s : UISched) :
  uisched_inv plat tasks workerCount outputFile mode s ->
  ui_collector s <> Finished ->
  exists s', uisched_step plat tasks outputFile mode s s'.
Proof.
  intros [Hwl Hfed Hcons Hnot Hsta Hdone Hclosed Hcoll Hidle Hrep Hpre] Hpc.
  pose proof (Permutation_length Hcons) as Hlen.
  rewrite !length_app, !length_fmap, !length_app, length_drop in Hlen.
  destruct (ui_collector s) as [| |tokenCount|tokenCount|] eqn:Ec; [| | | |contradiction].
  2: { eexists. apply ustep_write. exact Ec. }
  2: { eexists. eapply ustep_written. exact Ec. }
  2: { eexists. eapply ustep_report. exact Ec. }
  destruct (ui_resultsChan s) as [|result rest] eqn:Echan.
  2: { eexists. eapply ustep_collect; eassumption. }
  destruct (ui_resultsClosed s) eqn:Ecl.
  { eexists. apply ustep_announce; assumption. }
  destruct (workers_done_or_active (ui_workers s)) as [Hall|(w & x & Hw & Hx)].
  { eexists. apply ustep_wait; assumption. }
  destruct x as [|task|task|result|result|]; [| | | | |contradiction].
  - destruct (ui_taskChan s) as [|task rest] eqn:Etc.
    + destruct (ui_feeder s) as [i|] eqn:Ef.
      * unfold ui_fed in *. rewrite Ef in *.
        destruct (decide (i < length tasks)) as [Hi|Hi].
        -- destruct (lookup_lt_is_Some_2 _ _ Hi) as [task Htask].
           eexists. eapply ustep_feed; [eassumption|eassumption|].
           rewrite Etc. simpl. lia.
        -- eexists. eapply ustep_close; [eassumption|lia].
      * eexists. eapply ustep_exit; eassumption.
    + eexists. eapply ustep_receive; eassumption.
  - eexists. eapply ustep_start. exact Hw.
  - destruct (Run (NewRunner plat) task (ui_host_calls s)) as [result calls] eqn:Hrun.
    eexists. eapply ustep_run; eassumption.
  - eexists. eapply ustep_send; [exact Hw| |exact Ecl].
    destruct (omap_insert_split w_produced _ _ _ UDone Hw) as [_ Ep].
    rewrite Ep in Hlen. rewrite !length_app in Hlen. simpl in Hlen.
    rewrite Echan. simpl. lia.
  - eexists. eapply ustep_notify. exact Hw.
Qed.

Lemma uisched_run_reachable (s : UISched) :
  uisched_run plat tasks workerCount outputFile mode s ->
  uisched_reachable plat tasks workerCount outputFile mode s.
Proof.
  induction 1 as [|s s' _ IH [Hstep _]]; [constructor|].
  eapply ureach_step; eassumption.
Qed.

(** The tasks in [taskChan] and with the workers are tasks of the
    list. *)
Lemma uisched_held (s : UISched) :
  uisched_reachable plat tasks workerCount outputFile mode s ->
  Forall (fun task => task ∈ tasks) (ui_taskChan s)
  /\ forall w x task, ui_workers s !! w = Some x -> w_task x = Some task ->
                      task ∈ tasks.
Proof.
  assert (Hins : forall (ws : list UIWorker) (w : nat) (new : UIWorker),
             (forall w' x task, ws !! w' = Some x -> w_task x = Some task ->
                                task ∈ tasks) ->
             (forall task, w_task new = Some task -> task ∈ tasks) ->
             forall w' x task, <[w := new]> ws !! w' = Some x ->
                               w_task x = Some task -> task ∈ tasks).
  { intros ws w new Hold Hnew w' x task Hx Ht.
    destruct (decide (w' = w)) as [->|Hne].
    - apply list_lookup_insert_Some in Hx as [(_ & <- & _)|[? _]]; [|congruence].
      apply Hnew. exact Ht.
    - rewrite list_lookup_insert_ne in Hx by congruence. eapply Hold; eassumption. }
  induction 1 as [|s s' _ [Hc Hw] Hstep].
  - split; [constructor|]. intros w x task Hx Ht. simpl in Hx.
    apply lookup_replicate in Hx as [-> _]. discriminate.
  - destruct Hstep as [s i task Hpc Htask Hlen|s i Hpc Hi|s w task rest Hw' Hchan
                      |s w task Hw'|s w task result calls Hw' Hrun
                      |s w result Hw' Hlen Hopen
                      |s w result Hw'|s w Hw' Hchan Hfeeder|s Hopen Hall
                      |s result rest Hpc Hchan|s Hpc Hchan Hcl|s Hpc|s tokenCount Hpc
                      |s tokenCount Hpc];
      simpl; try (split; assumption).
    + split; [|exact Hw]. apply Forall_app. split; [exact Hc|].
      constructor; [|constructor]. eapply list_elem_of_lookup_2. exact Htask.
    + rewrite Hchan in Hc. apply Forall_cons in Hc as [Ht Hrest].
      split; [exact Hrest|]. apply Hins; [exact Hw|].
      intros task' Heq. injection Heq as <-. exact Ht.
    + split; [exact Hc|]. apply Hins; [exact Hw|].
      intros task' Heq. injection Heq as <-. eapply Hw; [exact Hw'|reflexivity].
    + split; [exact Hc|]. apply Hins; [exact Hw|]. discriminate.
    + split; [exact Hc|]. apply Hins; [exact Hw|]. discriminate.
    + split; [exact Hc|]. apply Hins; [exact Hw|]. discriminate.
    + split; [exact Hc|]. apply Hins; [exact Hw|]. discriminate.
    + cbv zeta.
      destruct (generateFor mode (NewMarkdownReport plat (ui_results s)))
        as [[content tokenCount] [err|]]; simpl; split; assumption.
Qed.

(** When the commands of the tasks and [os.WriteFile] return, every
    step of the goroutines is one in which the call returns. *)
Lemma uisched_step_returns (s s' : UISched) :
  ((0 < workerCount)%Z -> Forall (returns plat) tasks) ->
  WriteFile_returns outputFile ->
  uisched_reachable plat tasks workerCount outputFile mode s ->
  uisched_step plat tasks outputFile mode s s' ->
  uisched_step_returning plat tasks outputFile mode s s'.
Proof.
  intros Hall Hwf Hreach Hstep. split; [exact Hstep|]. split; [|intros; exact Hwf].
  intros w task result Hw _.
  destruct (uisched_held s Hreach) as [_ Hheld].
  pose proof (Hheld w _ task Hw eq_refl) as Hin.
  apply lookup_lt_Some in Hw.
  rewrite (uinv_workers_len _ _ _ _ _ _ (uisched_inv_reachable s Hreach)) in Hw.
  assert (Hwc : (0 < workerCount)%Z) by lia.
  specialize (Hall Hwc). rewrite Forall_forall in Hall. apply Hall. exact Hin.
Qed.

Lemma uisched_ends_from (n : nat) (s : UISched) :
  ((0 < workerCount)%Z -> Forall (returns plat) tasks) ->
  WriteFile_returns outputFile ->
  uisched_reachable plat tasks workerCount outputFile mode s ->
  uisched_measure tasks s < n ->
  uisched_ends plat tasks outputFile mode s.
Proof.
  intros Hall Hwf. revert s. induction n as [|n IH]; intros s Hreach Hn; [lia|].
  destruct (decide (ui_collector s = Finished)) as [Hpc|Hpc];
    [apply uends_finished; exact Hpc|].
  apply uends_step.
  - destruct (uisched_progress s (uisched_inv_reachable s Hreach) Hpc) as [s' Hstep].
    exists s'. apply uisched_step_returns; assumption.
  - intros s' [Hstep _]. apply IH; [eapply ureach_step; eassumption|].
    pose proof (uisched_step_measure s s' Hstep). lia.
Qed.

Lemma uisched_ends_init :
  ((0 < workerCount)%Z -> Forall (returns plat) tasks) ->
  WriteFile_returns outputFile ->
  uisched_ends plat tasks outputFile mode (uisched_init workerCount).
Proof.
  intros Hall Hwf.
  apply (uisched_ends_from (S (uisched_measure tasks (uisched_init workerCount))));
    [exact Hall|exact Hwf|constructor|lia].
Qed.

(** As long as [os.WriteFile] has not returned, the collector is in its
    loop, about to render the report, or in the call. *)
Lemma uisched_run_unwritten (s : UISched) :
  ~ WriteFile_returns outputFile ->
  uisched_run plat tasks workerCount outputFile mode s ->
  ui_collector s = Collecting \/ ui_collector s = Reporting
  \/ exists tokenCount, ui_collector s = Writing tokenCount.
Proof.
  intros Hwf. induction 1 as [|s s' _ IH (Hstep & _ & Hguard)]; [left; reflexivity|].
  destruct Hstep as [s i task Hpc Htask Hlen|s i Hpc Hi|s w task rest Hw Hchan
                    |s w task Hw|s w task result calls Hw Hrun|s w result Hw Hlen Hopen
                    |s w result Hw|s w Hw Hchan Hfeeder|s Hopen Hall
                    |s result rest Hpc Hchan|s Hpc Hchan Hcl|s Hpc|s tokenCount Hpc
                    |s tokenCount Hpc];
    simpl in *; try exact IH.
  - right. left. reflexivity.
  - pose proof (generateFor_no_error mode (NewMarkdownReport plat (ui_results s)))
      as Herr.
    destruct (generateFor mode (NewMarkdownReport plat (ui_results s)))
      as [[content tokenCount] err].
    simpl in Herr. subst err. simpl. right. right. eauto.
  - exfalso. apply Hwf. apply (Hguard tokenCount Hpc). reflexivity.
  - rewrite Hpc in IH. destruct IH as [?|[?|[? ?]]]; discriminate.
Qed.

(** A task whose command does not return stays where it is once a
    worker has started it. *)
Lemma uisched_run_holds (idx : nat) (task : Task) (s : UISched) :
  tasks !! idx = Some task -> ~ returns plat task ->
  uisched_run plat tasks workerCount outputFile mode s ->
  ui_fed tasks s <= idx \/ task ∈ ui_taskChan s
  \/ exists w x, ui_workers s !! w = Some x /\ w_task x = Some task.
Proof.
  intros Htask Hstuck.
  assert (Hins : forall (ws : list UIWorker) (w : nat) (old new : UIWorker),
             ws !! w = Some old -> w_task old <> Some task ->
             (exists w' x, ws !! w' = Some x /\ w_task x = Some task) ->
             exists w' x, <[w := new]> ws !! w' = Some x /\ w_task x = Some task).
  { intros ws w old new Hold Hne (w' & x & Hx & Ht). exists w', x.
    split; [|exact Ht]. rewrite list_lookup_insert_ne; [exact Hx|].
    intros ->. rewrite Hold in Hx. injection Hx as ->. contradiction. }
  induction 1 as [|s s' _ IH (Hstep & Hguard & _)].
  - left. unfold ui_fed. simpl. lia.
  - pose proof (lookup_lt_Some _ _ _ Htask) as Hidx.
    destruct Hstep as [s i task' Hpc Htask' Hlen|s i Hpc Hi|s w task' rest Hw Hchan
                      |s w task' Hw|s w task' result calls Hw Hrun
                      |s w result Hw Hlen Hopen
                      |s w result Hw|s w Hw Hchan Hfeeder|s Hopen Hall
                      |s result rest Hpc Hchan|s Hpc Hchan Hcl|s Hpc|s tokenCount Hpc
                      |s tokenCount Hpc];
      unfold ui_fed in *; simpl in *; try exact IH.
    + rewrite Hpc in IH. destruct IH as [Hle|[Hin|Hheld]].
      * destruct (decide (i = idx)) as [->|Hne].
        -- right. left. rewrite Htask in Htask'. injection Htask' as <-.
           apply elem_of_app. right. constructor.
        -- left. lia.
      * right. left. apply elem_of_app. left. exact Hin.
      * right. right. exact Hheld.
    + rewrite Hpc in IH. destruct IH as [Hle|[Hin|Hheld]]; [lia|auto..].
    + destruct IH as [Hle|[Hin|Hheld]]; [auto| |].
      * rewrite Hchan in Hin. apply elem_of_cons in Hin as [->|Hin]; [|auto].
        right. right. exists w, (UStarting task'). split; [|reflexivity].
        apply list_lookup_insert_eq. eapply lookup_lt_Some. exact Hw.
      * right. right. eapply Hins; [exact Hw|discriminate|exact Hheld].
    + destruct IH as [Hle|[Hin|(w' & x & Hx & Ht)]]; [auto..|].
      right. right. destruct (decide (w' = w)) as [->|Hne].
      * rewrite Hw in Hx. injection Hx as <-. simpl in Ht. injection Ht as ->.
        exists w, (URunning task). split; [|reflexivity].
        apply list_lookup_insert_eq. eapply lookup_lt_Some. exact Hw.
      * exists w', x. split; [|exact Ht]. rewrite list_lookup_insert_ne; congruence.
    + destruct IH as [Hle|[Hin|(w' & x & Hx & Ht)]]; [auto..|].
      right. right. destruct (decide (w' = w)) as [->|Hne].
      * rewrite Hw in Hx. injection Hx as <-. simpl in Ht. injection Ht as ->.
        exfalso. apply Hstuck. apply (Hguard w task result Hw).
        apply list_lookup_insert_eq. eapply lookup_lt_Some. exact Hw.
      * exists w', x. split; [|exact Ht]. rewrite list_lookup_insert_ne; congruence.
    + destruct IH as [Hle|[Hin|Hheld]]; [auto..|].
      right. right. eapply Hins; [exact Hw|discriminate|exact Hheld].
    + destruct IH as [Hle|[Hin|Hheld]]; [auto..|].
      right. right. eapply Hins; [exact Hw|discriminate|exact Hheld].
    + destruct IH as [Hle|[Hin|Hheld]]; [auto..|].
      right. right. eapply Hins; [exact Hw|discriminate|exact Hheld].
    + cbv zeta.
      destruct (generateFor mode (NewMarkdownReport plat (ui_results s)))
        as [[content tokenCount] [err|]]; simpl; exact IH.
Qed.

(** With a worker and a task whose command does not return, the
    channel of the results is never closed and the collector stays in
    its loop: nothing is written, and the program is told neither that
    all is done nor that the report is. *)
Lemma uisched_run_hangs (s : UISched) :
  (0 < workerCount)%Z -> Exists (fun task => ~ returns plat task) tasks ->
  uisched_run plat tasks workerCount outputFile mode s ->
  ui_resultsClosed s = false /\ ui_collector s = Collecting
  /\ ui_writes s = [] /\ forallb isTaskMsg (ui_sent s) = true.
Proof.
  intros Hwc Hex Hrun.
  apply Exists_exists in Hex as (task & Hin & Hstuck).
  apply list_elem_of_lookup_1 in Hin as [idx Htask].
  pose proof (uisched_run_holds idx task s Htask Hstuck Hrun) as Hheld.
  destruct (uisched_inv_reachable s (uisched_run_reachable s Hrun))
    as [Hwl Hfed Hcons Hnot Hsta Hdone Hclosed Hcoll Hidle Hrep Hpre].
  assert (Hopen : ui_resultsClosed s = false).
  { destruct (ui_resultsClosed s) eqn:Ecl; [exfalso|reflexivity].
    specialize (Hclosed eq_refl). rewrite Forall_lookup in Hclosed.
    assert (Hw0 : is_Some (ui_workers s !! 0)) by (apply lookup_lt_is_Some_2; lia).
    destruct Hw0 as [w0 Hw0]. pose proof (Hclosed 0 w0 Hw0) as ->.
    destruct (Hdone 0 Hw0) as [Hchan Hf].
    destruct Hheld as [Hle|[Hin|(w & x & Hx & Ht)]].
    - unfold ui_fed in Hle. rewrite Hf in Hle. apply lookup_lt_Some in Htask. lia.
    - rewrite Hchan in Hin. inversion Hin.
    - rewrite (Hclosed w x Hx) in Ht. discriminate. }
  assert (Hpc : ui_collector s = Collecting).
  { destruct (decide (ui_collector s = Collecting)) as [Hc|Hc]; [exact Hc|].
    destruct (Hcoll Hc) as [Hcl _]. congruence. }
  split; [exact Hopen|]. split; [exact Hpc|].
  unfold reported in Hrep. rewrite Hpc in Hrep. destruct Hrep as [Hall Hwr]. auto.
Qed.

Lemma omap_workers_done {B} (f : UIWorker -> option B) (ws : list UIWorker) :
  f UDone = None -> Forall (fun w => w = UDone) ws -> omap f ws = [].
Proof.
  intros Hf. induction 1 as [|w ws -> _ IH]; [reflexivity|].
  simpl. rewrite Hf. exact IH.
Qed.

Lemma running_submseteq (ws : list UIWorker) :
  omap w_running ws ⊆+ omap w_task ws.
Proof.
  induction ws as [|w ws IH]; [reflexivity|].
  destruct w; simpl; try exact IH.
  - apply submseteq_cons. exact IH.
  - apply submseteq_skip. exact IH.
Qed.

Lemma expected_Name (task : Task) : Name (expected plat task) = Task_Name task.
Proof. unfold expected. apply Run_identity. Qed.

Lemma expected_names (l : list Task) : Name <$> (expected plat <$> l) = Task_Name <$> l.
Proof.
  rewrite <- list_fmap_compose. apply list_fmap_ext. intros i task _.
  apply expected_Name.
Qed.

(** Once the collector has left its loop, every result is collected,
    and the program has been told of the start and of the end of every
    task. *)
Lemma uisched_collected (s : UISched) :
  uisched_inv plat tasks workerCount outputFile mode s ->
  ui_collector s <> Collecting ->
  ui_results s ≡ₚ (if bool_decide (0 < workerCount)%Z
                   then expected plat <$> tasks else [])
  /\ omap doneResult (ui_sent s) ≡ₚ ui_results s
  /\ omap startName (ui_sent s) ≡ₚ Name <$> ui_results s.
Proof.
  intros [Hwl Hfed Hcons Hnot Hsta Hdone Hclosed Hcoll Hidle Hrep Hpre] Hpc.
  destruct (Hcoll Hpc) as [Hcl Hch]. specialize (Hclosed Hcl).
  rewrite (omap_workers_done w_task _ eq_refl Hclosed) in Hcons.
  rewrite (omap_workers_done w_produced _ eq_refl Hclosed) in Hcons, Hsta.
  rewrite (omap_workers_done w_unnotified _ eq_refl Hclosed) in Hnot.
  rewrite (omap_workers_done w_running _ eq_refl Hclosed) in Hsta.
  rewrite Hch in *. simpl in Hcons, Hnot, Hsta. rewrite app_nil_r in Hnot.
  split; [|split; assumption].
  destruct (decide (0 < workerCount)%Z) as [Hw|Hw].
  - rewrite bool_decide_eq_true_2 by exact Hw.
    assert (Hw0 : is_Some (ui_workers s !! 0)) by (apply lookup_lt_is_Some_2; lia).
    destruct Hw0 as [w0 Hw0]. rewrite Forall_lookup in Hclosed.
    pose proof (Hclosed 0 w0 Hw0) as ->.
    destruct (Hdone 0 Hw0) as [Htc Hf].
    unfold ui_fed in Hcons. rewrite Htc, Hf, drop_all in Hcons. exact Hcons.
  - rewrite bool_decide_eq_false_2 by exact Hw.
    destruct Hidle as [_ ->]; [|reflexivity]. apply nil_length_inv. lia.
Qed.

(** The messages of the workers, in any state: each result the program
    has been told of is the result of [runner.Run] on a task of its
    own, and each start is the start of a task of its own. *)
Lemma uisched_told (s : UISched) :
  uisched_inv plat tasks workerCount outputFile mode s ->
  omap doneResult (ui_sent s) ⊆+ expected plat <$> tasks
  /\ omap startName (ui_sent s) ⊆+ Task_Name <$> tasks.
Proof.
  intros [Hwl Hfed Hcons Hnot Hsta Hdone Hclosed Hcoll Hidle Hrep Hpre].
  split.
  - rewrite <- Hcons.
    transitivity (ui_resultsChan s ++ ui_results s).
    + rewrite <- Hnot. apply submseteq_inserts_r. reflexivity.
    + apply submseteq_inserts_l, submseteq_inserts_l. reflexivity.
  - rewrite <- expected_names, <- Hcons, Hsta.
    rewrite !fmap_app, !expected_names, <- !(assoc_L (++)).
    apply submseteq_app; [apply fmap_submseteq, running_submseteq|].
    apply submseteq_inserts_l, submseteq_inserts_l. reflexivity.
Qed.

(** [os.WriteFile] is called at most once, after the message that all
    is done, with the output path and the report of the results
    collected; the message that the report is done follows the
    call. *)
Lemma uisched_writes (s : UISched) :
  uisched_inv plat tasks workerCount outputFile mode s ->
  let generated := generateFor mode (NewMarkdownReport plat (ui_results s)) in
  (ui_writes s = []
   /\ forall tokenCount, ui.ReportDoneMsg outputFile tokenCount ∉ ui_sent s)
  \/ (ui_writes s = [(outputFile, generated.1.1)]
      /\ ui_collector s <> Collecting
      /\ exists pre post,
           forallb isTaskMsg pre = true
           /\ ui_sent s = pre ++ ui.AllDoneMsg (ui_results s) :: post
           /\ (post = []
               \/ post = [ui.ReportDoneMsg outputFile generated.1.2]
                  /\ ui_collector s = Finished)).
Proof.
  intros Hinv generated. pose proof (uinv_reported _ _ _ _ _ _ Hinv) as Hrep.
  unfold reported in Hrep. fold generated in Hrep.
  assert (Hnone : forall pre tokenCount, forallb isTaskMsg pre = true ->
                    ui.ReportDoneMsg outputFile tokenCount ∉ pre).
  { intros pre tokenCount Hall Hin. rewrite forallb_forall in Hall.
    apply list_elem_of_In, Hall in Hin. discriminate. }
  destruct (ui_collector s) as [| |tokenCount|tokenCount|].
  - destruct Hrep as [Hall Hw]. left. split; [exact Hw|].
    intros tokenCount. apply Hnone. exact Hall.
  - destruct Hrep as (pre & Hall & Hsent & Hw). left. split; [exact Hw|].
    intros tokenCount Hin. rewrite Hsent in Hin.
    apply elem_of_app in Hin as [Hin|Hin]; [exact (Hnone _ _ Hall Hin)|].
    apply list_elem_of_singleton in Hin. discriminate.
  - destruct Hrep as (pre & Hall & Hsent & Hw & _). right.
    split; [exact Hw|]. split; [discriminate|]. exists pre, []. auto.
  - destruct Hrep as (pre & Hall & Hsent & Hw & _). right.
    split; [exact Hw|]. split; [discriminate|]. exists pre, []. auto.
  - destruct Hrep as (pre & Hall & Hsent & Hw). right.
    split; [exact Hw|]. split; [discriminate|].
    exists pre, [ui.ReportDoneMsg outputFile generated.1.2]. auto.
Qed.

(** With the UI.  When [cmd.Run] returns for the command of every task
    that can run (or there is no worker) and [os.WriteFile] returns for
    the output path, the goroutines of [runWithUI] get to the end on
    every interleaving: as long as the collector has not finished some
    goroutine can take a step, no channel operation blocking for ever
    and no send finding its channel closed, and every step brings the
    end nearer.  When there is a worker and the command of some task
    does not return, the collector never leaves its loop:
    [os.WriteFile] is not called and the program is told neither that
    all is done nor that the report is; when [os.WriteFile] does not
    return, the program is never told that the report is done.  At the
    end the results collected are the results of [runner.Run] on the
    tasks, each once, in the order in which the tasks completed (with
    no worker: no result at all, no task having run); [os.WriteFile]
    has been called once, with the output path and the report rendered
    in the format of the flags from the results in this order; and the
    last two messages to the program are the results and the path of
    the report with the token count, whatever the call has returned.
    At any moment, the process ending when the user quits:
    [os.WriteFile] has been called at most once, with the output path
    and the report of all the results, and after the message that all
    is done; and the program is told that the report is done only
    after the call has returned.  What the file holds is not said: the
    call can be under way, or have failed. *)
Theorem runWithUI_report :
  let all := if bool_decide (0 < workerCount)%Z then expected plat <$> tasks else [] in
  (((0 < workerCount)%Z -> Forall (returns plat) tasks) ->
   WriteFile_returns outputFile ->
     uisched_ends plat tasks outputFile mode (uisched_init workerCount)
     /\ forall s, uisched_run plat tasks workerCount outputFile mode s ->
          ui_collector s <> Finished ->
          exists s', uisched_step_returning plat tasks outputFile mode s s')
  /\ ((0 < workerCount)%Z -> Exists (fun task => ~ returns plat task) tasks ->
      forall s, uisched_run plat tasks workerCount outputFile mode s ->
        ui_collector s = Collecting /\ ui_writes s = []
        /\ forallb isTaskMsg (ui_sent s) = true)
  /\ (~ WriteFile_returns outputFile ->
      forall s, uisched_run plat tasks workerCount outputFile mode s ->
        ui_collector s <> Finished
        /\ forall tokenCount, ui.ReportDoneMsg outputFile tokenCount ∉ ui_sent s)
  /\ (forall s s', uisched_step_returning plat tasks outputFile mode s s' ->
                   uisched_measure tasks s' < uisched_measure tasks s)
  /\ forall s,
       uisched_reachable plat tasks workerCount outputFile mode s ->
       let generated := generateFor mode (NewMarkdownReport plat (ui_results s)) in
       (ui_collector s = Finished ->
        ui_results s ≡ₚ all
        /\ (exists pre,
              forallb isTaskMsg pre = true
              /\ ui_sent s = pre ++ [ui.AllDoneMsg (ui_results s);
                                     ui.ReportDoneMsg outputFile generated.1.2])
        /\ ui_writes s = [(outputFile, generated.1.1)])
       /\ ((ui_writes s = []
            /\ forall tokenCount, ui.ReportDoneMsg outputFile tokenCount ∉ ui_sent s)
           \/ (ui_writes s = [(outputFile, generated.1.1)]
               /\ ui_results s ≡ₚ all
               /\ exists pre post,
                    forallb isTaskMsg pre = true
                    /\ ui_sent s = pre ++ ui.AllDoneMsg (ui_results s) :: post
                    /\ (post = []
                        \/ post = [ui.ReportDoneMsg outputFile generated.1.2]
                           /\ ui_collector s = Finished))).
Proof.
  intros all. split; [|split; [|split; [|split]]].
  - intros Hall Hwf. split; [apply uisched_ends_init; assumption|].
    intros s Hrun Hpc.
    pose proof (uisched_run_reachable s Hrun) as Hreach.
    destruct (uisched_progress s (uisched_inv_reachable s Hreach) Hpc) as [s' Hstep].
    exists s'. apply uisched_step_returns; assumption.
  - intros Hwc Hex s Hrun.
    destruct (uisched_run_hangs s Hwc Hex Hrun) as (_ & Hpc & Hw & Hsent). auto.
  - intros Hwf s Hrun.
    pose proof (uisched_run_unwritten s Hwf Hrun) as Hpc.
    pose proof (uisched_inv_reachable s (uisched_run_reachable s Hrun)) as Hinv.
    split; [destruct Hpc as [Hpc|[Hpc|[tokenCount Hpc]]]; congruence|].
    destruct (uisched_writes s Hinv)
      as [[_ Hnone]|(_ & _ & pre & post & Hall & Hsent & Hpost)]; [exact Hnone|].
    destruct Hpost as [->|[_ Hfin]];
      [|destruct Hpc as [Hpc|[Hpc|[tokenCount Hpc]]]; congruence].
    intros tokenCount Hin. rewrite Hsent in Hin.
    apply elem_of_app in Hin as [Hin|Hin].
    + rewrite forallb_forall in Hall. apply list_elem_of_In, Hall in Hin. discriminate.
    + apply list_elem_of_singleton in Hin. discriminate.
  - intros s s' [Hstep _]. apply uisched_step_measure. exact Hstep.
  - intros s Hreach generated.
    pose proof (uisched_inv_reachable s Hreach) as Hinv.
    split.
    + intros Hpc.
      destruct (uisched_collected s Hinv) as (Hres & _); [congruence|].
      split; [exact Hres|].
      pose proof (uinv_reported _ _ _ _ _ _ Hinv) as Hrep.
      unfold reported in Hrep. rewrite Hpc in Hrep.
      destruct Hrep as (pre & Hall & Hsent & Hfile). eauto.
    + destruct (uisched_writes s Hinv) as [Hnone|(Hw & Hpc & Hsent)].
      * left. exact Hnone.
      * right. split; [exact Hw|].
        destruct (uisched_collected s Hinv Hpc) as (Hres & _). auto.
Qed.

Lemma first_other_msg (pre pre' post post' : list ui.Msg) (x y : ui.Msg) :
  pre ++ x :: post = pre' ++ y :: post' ->
  forallb isTaskMsg pre' = true ->
  isTaskMsg x = false ->
  isAllDone x = true -> forallb (fun msg => negb (isAllDone msg)) post' = true ->
  pre = pre' /\ x = y /\ post = post'.
Proof.
  revert pre'. induction pre as [|a pre IH]; intros [|b pre'] Heq Hpre' Hx Ha Hpost';
    simpl in *.
  - injection Heq as -> ->. auto.
  - injection Heq as -> _. apply andb_true_iff in Hpre' as [Hb _]. congruence.
  - injection Heq as -> Heq. exfalso.
    assert (Hin : x ∈ post').
    { rewrite <- Heq. apply elem_of_app. right. constructor. }
    rewrite forallb_forall in Hpost'.
    apply list_elem_of_In, Hpost' in Hin. rewrite Ha in Hin. discriminate.
  - injection Heq as -> Heq. apply andb_true_iff in Hpre' as [_ Hpre'].
    destruct (IH pre' Heq Hpre' Hx Ha Hpost') as (-> & -> & ->). auto.
Qed.

(** The messages [runWithUI] sends to the program, in any state.  The
    program is told of the end of a task only after it has been told
    of its start; the results it is told of are results of
    [runner.Run] on tasks of the list, each task at most once.  The
    message that all is done comes after all the messages of the
    workers: when it is sent, the program has been told of the start
    and of the end of every task, once each, it carries the results
    told, and only the message that the report is done can follow it. *)
Theorem runWithUI_messages (s : UISched) :
  uisched_reachable plat tasks workerCount outputFile mode s ->
  omap doneResult (ui_sent s) ⊆+ expected plat <$> tasks
  /\ omap startName (ui_sent s) ⊆+ Task_Name <$> tasks
  /\ (forall pre post, ui_sent s = pre ++ post ->
        Name <$> omap doneResult pre ⊆+ omap startName pre)
  /\ (forall pre results post,
        ui_sent s = pre ++ ui.AllDoneMsg results :: post ->
        forallb isTaskMsg pre = true
        /\ omap doneResult pre ≡ₚ results
        /\ omap startName pre ≡ₚ Name <$> results
        /\ results ≡ₚ (if bool_decide (0 < workerCount)%Z
                       then expected plat <$> tasks else [])
        /\ (post = [] \/ exists tokenCount,
                           post = [ui.ReportDoneMsg outputFile tokenCount])).
Proof.
  intros Hreach. pose proof (uisched_inv_reachable s Hreach) as Hinv.
  destruct (uisched_told s Hinv) as [Hd Hs].
  split; [exact Hd|]. split; [exact Hs|].
  split; [exact (uinv_prefix _ _ _ _ _ _ Hinv)|].
  intros pre results post Hsent.
  pose proof (uinv_reported _ _ _ _ _ _ Hinv) as Hrep. unfold reported in Hrep.
  assert (Hshape : exists pre' post',
             forallb isTaskMsg pre' = true
             /\ ui_sent s = pre' ++ ui.AllDoneMsg (ui_results s) :: post'
             /\ (post' = [] \/ exists tokenCount,
                                 post' = [ui.ReportDoneMsg outputFile tokenCount])
             /\ ui_collector s <> Collecting).
  { destruct (ui_collector s) as [| |tokenCount|tokenCount|] eqn:Ec.
    - destruct Hrep as [Hall _]. rewrite Hsent, forallb_app in Hall.
      simpl in Hall. rewrite andb_false_r in Hall. discriminate.
    - destruct Hrep as (pre' & Hall & Hs' & _). exists pre', []. auto.
    - destruct Hrep as (pre' & Hall & Hs' & _). exists pre', []. auto.
    - destruct Hrep as (pre' & Hall & Hs' & _). exists pre', []. auto.
    - destruct Hrep as (pre' & Hall & Hs' & _). exists pre'. eexists.
      split; [exact Hall|]. split; [exact Hs'|]. split; [eauto|discriminate]. }
  destruct Hshape as (pre' & post' & Hall & Hs' & Hpost' & Hpc).
  rewrite Hsent in Hs'.
  destruct (first_other_msg _ _ _ _ _ _ Hs' Hall eq_refl eq_refl) as (-> & [= ->] & ->).
  { destruct Hpost' as [->|[tokenCount ->]]; reflexivity. }
  destruct (uisched_collected s Hinv Hpc) as (Hres & Hdone & Hstart).
  assert (Hdrop : forall {B} (f : ui.Msg -> option B),
             f (ui.AllDoneMsg (ui_results s)) = None ->
             (forall tokenCount, f (ui.ReportDoneMsg outputFile tokenCount) = None) ->
             omap f (ui_sent s) = omap f pre').
  { intros B f Hf1 Hf2. rewrite Hsent, omap_app. simpl. rewrite Hf1.
    destruct Hpost' as [->|[tokenCount ->]]; simpl; rewrite ?Hf2, app_nil_r;
      reflexivity. }
  rewrite (Hdrop _ doneResult) in Hdone by reflexivity.
  rewrite (Hdrop _ startName) in Hstart by reflexivity.
  auto.
Qed.

End WithUI.

Lemma finished_UISched_reachable :
  uisched_reachable (H := ascii_GoLib) (H0 := quick_Host) (H1 := writable_World)
    user_Platform [plain_Task "kernel" "uname -a" "system"] 1 "out.md" ReportMinified
    finished_UISched.
Proof.
  set (task := plain_Task "kernel" "uname -a" "system").
  pose proof (ureach_init (H := ascii_GoLib) (H0 := quick_Host) (H1 := writable_World)
                user_Platform [task] 1 "out.md" ReportMinified) as R0.
  match type of R0 with uisched_reachable _ _ _ _ _ ?s =>
    pose proof (ureach_step _ _ _ _ _ s _ R0
                  (ustep_feed _ [task] _ _ s 0 task eq_refl eq_refl (Nat.lt_0_succ 0)))
      as R1
  end.
  match type of R1 with uisched_reachable _ _ _ _ _ ?s =>
    pose proof (ureach_step _ _ _ _ _ s _ R1
                  (ustep_close _ [task] _ _ s 1 eq_refl (le_n 1))) as R2
  end.
  match type of R2 with uisched_reachable _ _ _ _ _ ?s =>
    pose proof (ureach_step _ _ _ _ _ s _ R2
                  (ustep_receive _ [task] _ _ s 0 task [] eq_refl eq_refl)) as R3
  end.
  match type of R3 with uisched_reachable _ _ _ _ _ ?s =>
    pose proof (ureach_step _ _ _ _ _ s _ R3
                  (ustep_start _ [task] _ _ s 0 task eq_refl)) as R4
  end.
  match type of R4 with uisched_reachable _ _ _ _ _ ?s =>
    pose proof (ureach_step _ _ _ _ _ s _ R4
                  (ustep_run _ [task] _ _ s 0 task _ _ eq_refl (surjective_pairing _)))
      as R5
  end.
  match type of R5 with uisched_reachable _ _ _ _ _ ?s =>
    pose proof (ureach_step _ _ _ _ _ s _ R5
                  (ustep_send _ [task] _ _ s 0 _ eq_refl (Nat.lt_0_succ 0) eq_refl))
      as R6
  end.
  match type of R6 with uisched_reachable _ _ _ _ _ ?s =>
    pose proof (ureach_step _ _ _ _ _ s _ R6
                  (ustep_notify _ [task] _ _ s 0 _ eq_refl)) as R7
  end.
  match type of R7 with uisched_reachable _ _ _ _ _ ?s =>
    pose proof (ureach_step _ _ _ _ _ s _ R7
                  (ustep_exit _ [task] _ _ s 0 eq_refl eq_refl eq_refl)) as R8
  end.
  match type of R8 with uisched_reachable _ _ _ _ _ ?s =>
    pose proof (ureach_step _ _ _ _ _ s _ R8
                  (ustep_wait _ [task] _ _ s eq_refl
                     (Forall_cons_2 _ _ _ eq_refl (Forall_nil_2 _)))) as R9
  end.
  match type of R9 with uisched_reachable _ _ _ _ _ ?s =>
    pose proof (ureach_step _ _ _ _ _ s _ R9
                  (ustep_collect _ [task] _ _ s _ [] eq_refl eq_refl)) as R10
  end.
  match type of R10 with uisched_reachable _ _ _ _ _ ?s =>
    pose proof (ureach_step _ _ _ _ _ s _ R10
                  (ustep_announce _ [task] _ _ s eq_refl eq_refl eq_refl)) as R11
  end.
  match type of R11 with uisched_reachable _ _ _ _ _ ?s =>
    pose proof (ureach_step _ _ _ _ _ s _ R11
                  (ustep_write _ [task] "out.md" ReportMinified s eq_refl)) as R12
  end.
  match type of R12 with uisched_reachable _ _ _ _ _ ?s =>
    pose proof (ureach_step _ _ _ _ _ s _ R12
                  (ustep_written _ [task] "out.md" ReportMinified s _ eq_refl)) as R13
  end.
  match type of R13 with uisched_reachable _ _ _ _ _ ?s =>
    exact (ureach_step _ _ _ _ _ s _ R13
             (ustep_report _ [task] "out.md" ReportMinified s _ eq_refl))
  end.
Qed.

Lemma runWithUI_messages_witness :
  let task := plain_Task "kernel" "uname -a" "system" in
  let sent := ui_sent finished_UISched in
  let expect := expected (H := ascii_GoLib) (H0 := quick_Host) user_Platform in
  omap doneResult sent ⊆+ expect <$> [task]
  /\ omap startName sent ⊆+ Task_Name <$> [task]
  /\ (forall pre post, sent = pre ++ post ->
        Name <$> omap doneResult pre ⊆+ omap startName pre)
  /\ (forall pre results post,
        sent = pre ++ ui.AllDoneMsg results :: post ->
        forallb isTaskMsg pre = true
        /\ omap doneResult pre ≡ₚ results
        /\ omap startName pre ≡ₚ Name <$> results
        /\ results ≡ₚ (if bool_decide (0 < 1)%Z then expect <$> [task] else [])
        /\ (post = [] \/ exists tokenCount,
                           post = [ui.ReportDoneMsg "out.md" tokenCount])).
Proof.
  intros task sent expect.
  apply (@runWithUI_messages ascii_GoLib quick_Host writable_World user_Platform
           [task] 1 "out.md" ReportMinified finished_UISched).
  apply finished_UISched_reachable.
Defined.

(** ** The UI at the end of a run *)

Lemma foldl_fromRun {A} (g : A -> ui.Msg -> A) (acc : A) (msgs : list ui.Msg) :
  (forall a msg, fromRun msg = false -> g a msg = a) ->
  foldl g acc msgs = foldl g acc (filter fromRun msgs).
Proof.
  intros Hg. revert acc. induction msgs as [|msg msgs IH]; intros acc; [reflexivity|].
  rewrite filter_cons. simpl. destruct (fromRun msg) eqn:Hf.
  - rewrite decide_True by exact I. simpl. apply IH.
  - rewrite decide_False by (intros []). rewrite Hg by exact Hf. apply IH.
Qed.

Lemma omap_fromRun {B} (f : ui.Msg -> option B) (msgs : list ui.Msg) :
  (forall msg, fromRun msg = false -> f msg = None) ->
  omap f msgs = omap f (filter fromRun msgs).
Proof.
  intros Hf. induction msgs as [|msg msgs IH]; [reflexivity|].
  rewrite filter_cons.
  change (omap f (msg :: msgs))
    with (match f msg with Some y => y :: omap f msgs | None => omap f msgs end).
  destruct (fromRun msg) eqn:Hr.
  - rewrite decide_True by exact I.
    change (omap f (msg :: filter fromRun msgs))
      with (match f msg with
            | Some y => y :: omap f (filter fromRun msgs)
            | None => omap f (filter fromRun msgs)
            end).
    rewrite IH. reflexivity.
  - rewrite decide_False by (intros []). rewrite Hf by exact Hr. exact IH.
Qed.

Lemma existsb_fromRun (p : ui.Msg -> bool) (msgs : list ui.Msg) :
  (forall msg, fromRun msg = false -> p msg = false) ->
  existsb p msgs = existsb p (filter fromRun msgs).
Proof.
  intros Hp. induction msgs as [|msg msgs IH]; [reflexivity|].
  rewrite filter_cons. simpl. destruct (fromRun msg) eqn:Hr.
  - rewrite decide_True by exact I. simpl. rewrite IH. reflexivity.
  - rewrite decide_False by (intros []). rewrite Hp by exact Hr. exact IH.
Qed.

Lemma Updates_reportOf (msgs : list ui.Msg) (m m' : ui.Model) :
  ui.Updates m msgs = Some m' ->
  (ui.reportPath m', ui.tokenCount m')
  = foldl reportOf (ui.reportPath m, ui.tokenCount m) msgs.
Proof.
  revert m. induction msgs as [|msg msgs IH]; intros m; simpl.
  - intros [= <-]. reflexivity.
  - destruct (ui.Update m msg) as [[m1 cmd]|] eqn:Hup; [|discriminate].
    intros Hrest. rewrite (IH m1 Hrest). f_equal.
    destruct msg as [key|? ?|?|n|result|results|path count|]; simpl in Hup.
    + destruct (String.eqb key "ctrl+c" || String.eqb key "q");
        [|destruct (String.eqb key "enter" || String.eqb key " ");
          [destruct (ui.waitingInput m)|]];
        injection Hup as <- _; reflexivity.
    + injection Hup as <- _. reflexivity.
    + destruct (negb (ui.done m)); injection Hup as <- _; reflexivity.
    + destruct (ui.taskIndex m !! n) as [idx|]; [destruct (ui.startRow _ idx)|];
        try discriminate; injection Hup as <- _; reflexivity.
    + destruct (ui.taskIndex m !! Name result) as [idx|];
        [destruct (ui.storeRow _ idx result)|];
        try discriminate; injection Hup as <- _; reflexivity.
    + destruct (ui.storeAll _ _ results); try discriminate.
      injection Hup as <- _. reflexivity.
    + injection Hup as <- _. reflexivity.
    + injection Hup as <- _. reflexivity.
Qed.

Lemma rowStore_absent (results : list TaskResult) (name : string) (row : TaskResult) :
  name ∉ Name <$> results -> foldl (rowStore name) row results = row.
Proof.
  revert row. induction results as [|y results IH]; intros row Hx; [reflexivity|].
  rewrite fmap_cons, not_elem_of_cons in Hx. destruct Hx as [Hne Hx].
  simpl. rewrite IH by exact Hx. unfold rowStore.
  destruct (String.eqb_spec (Name y) name) as [He|_]; [congruence|reflexivity].
Qed.

Lemma rowStore_last (results : list TaskResult) (r row : TaskResult) :
  NoDup (Name <$> results) -> r ∈ results ->
  foldl (rowStore (Name r)) row results = r.
Proof.
  revert row. induction results as [|x results IH]; intros row Hnd Hin.
  - apply elem_of_nil in Hin. contradiction.
  - rewrite fmap_cons in Hnd. apply NoDup_cons in Hnd as [Hx Hnd].
    apply elem_of_cons in Hin as [->|Hin]; simpl.
    + rewrite rowStore_absent by exact Hx.
      unfold rowStore. rewrite String.eqb_refl. reflexivity.
    + replace (rowStore (Name r) row x) with row; [apply IH; assumption|].
      unfold rowStore.
      destruct (String.eqb_spec (Name x) (Name r)) as [He|_]; [|reflexivity].
      exfalso. apply Hx. rewrite He. apply list_elem_of_fmap_2. exact Hin.
Qed.

Lemma filter_all {A} (P : A -> Prop) `{forall x, Decision (P x)} (l : list A) :
  Forall P l -> filter P l = l.
Proof.
  induction 1 as [|x l Hx _ IH]; [reflexivity|].
  rewrite filter_cons, decide_True by exact Hx. rewrite IH. reflexivity.
Qed.

Lemma doneName_doneResult (msgs : list ui.Msg) :
  omap doneName msgs = Name <$> omap doneResult msgs.
Proof.
  induction msgs as [|msg msgs IH]; [reflexivity|].
  change (omap doneName (msg :: msgs))
    with (match doneName msg with
          | Some y => y :: omap doneName msgs
          | None => omap doneName msgs
          end).
  change (omap doneResult (msg :: msgs))
    with (match doneResult msg with
          | Some y => y :: omap doneResult msgs
          | None => omap doneResult msgs
          end).
  rewrite IH. destruct msg; reflexivity.
Qed.

Section FinalModel.
Context `{lib : GoLib} `{host : Host} `{world : World}.
Variable plat : Platform.
Variable tasks : list Task.
Variable workerCount : Z.
Variable outputFile : string.
Variable mode : ReportMode.

(** The UI at the end of [runWithUI].  When the goroutines have
    finished and the program has delivered their messages in the order
    in which they were sent, together with any keys, ticks and window
    sizes in between, the model is marked done and waits for a key; it
    shows the path of the report and its token count; with at least
    one worker every task counts as completed, and when the names of
    the tasks are distinct the table holds, row by row in the order of
    the tasks, the results of [runner.Run] on them, that is the results
    the report was rendered from, which the report holds in the order
    of completion.  With no worker the UI ends the same way with every
    row still pending and nothing completed. *)
Theorem runWithUI_final_model (s : UISched) (msgs : list ui.Msg) :
  uisched_reachable plat tasks workerCount outputFile mode s ->
  ui_collector s = Finished ->
  filter fromRun msgs = ui_sent s ->
  exists m,
    ui.Updates (ui.NewModel (Task_Name <$> tasks)) msgs = Some m
    /\ ui.done m = true /\ ui.waitingInput m = true
    /\ ui.total m = Z.of_nat (length tasks)
    /\ ui.completed m
       = (if bool_decide (0 < workerCount)%Z then Z.of_nat (length tasks) else 0%Z)
    /\ ui.reportPath m = outputFile
    /\ ui.tokenCount m
       = (generateFor mode (NewMarkdownReport plat (ui_results s))).1.2
    /\ ((0 < workerCount)%Z -> NoDup (Task_Name <$> tasks) ->
        ui.tasks m = expected plat <$> tasks)
    /\ ((workerCount <= 0)%Z -> ui.tasks m = ui.pendingRow <$> (Task_Name <$> tasks)).
Proof.
  intros Hreach Hpc Hmsgs.
  pose proof (uisched_inv_reachable plat tasks workerCount outputFile mode s Hreach)
    as Hinv.
  destruct (uisched_collected plat tasks workerCount outputFile mode s Hinv)
    as (Hres & Hdone & Hstart); [congruence|].
  pose proof (uinv_reported _ _ _ _ _ _ Hinv) as Hrep. unfold reported in Hrep.
  rewrite Hpc in Hrep. destruct Hrep as (pre & Hall & Hsent & _).
  set (names := Task_Name <$> tasks).
  assert (Hn0 : Name <$> ui.tasks (ui.NewModel names) = names).
  { simpl. rewrite <- list_fmap_compose. apply list_fmap_id. }
  destruct (Updates_indexed names msgs (ui.NewModel names) eq_refl Hn0)
    as (m & Hm & _ & Hnames & Hrows).
  exists m. split; [exact Hm|].
  destruct (Updates_counters_from msgs _ m Hm) as (Ht & _ & Hd & Hw & Hc & _);
    [simpl; lia|].
  pose proof (Updates_reportOf msgs _ m Hm) as Hshown.
  rewrite (foldl_fromRun reportOf) in Hshown by (intros a [] Hf; try discriminate; reflexivity).
  rewrite (existsb_fromRun isAllDone) in Hd by (intros [] Hf; try discriminate; reflexivity).
  rewrite (existsb_fromRun isReportDone) in Hw
    by (intros [] Hf; try discriminate; reflexivity).
  rewrite (omap_fromRun doneName) in Hc by (intros [] Hf; try discriminate; reflexivity).
  rewrite Hmsgs in Hshown, Hd, Hw, Hc.
  assert (Hrows' : forall i name row,
             names !! i = Some name ->
             ui.tasks (ui.NewModel names) !! i = Some row ->
             ui.tasks m !! i
             = Some (if decide (ui.indexNames 0 names ∅ !! name = Some i)
                     then foldl (rowUpdate name) row (ui_sent s) else row)).
  { intros i name row Hi Hrow. rewrite (Hrows i name row Hi Hrow).
    rewrite (foldl_fromRun (rowUpdate name))
      by (intros a [] Hf; try discriminate; reflexivity).
    rewrite Hmsgs. reflexivity. }
  clear Hrows. rewrite Hsent in Hshown, Hd, Hw.
  rewrite !existsb_app in Hd, Hw. simpl in Hd, Hw.
  rewrite foldl_app in Hshown. simpl in Hshown.
  rewrite orb_true_r in Hd, Hw. injection Hshown as Hpath Hcount.
  split; [exact Hd|]. split; [exact Hw|].
  split; [rewrite Ht; simpl; unfold names; rewrite length_fmap; reflexivity|].
  pose proof (doneName_doneResult (ui_sent s)) as Hdn.
  split; [|split; [exact Hpath|split; [exact Hcount|split]]].
  - rewrite Hc, Hdn. simpl.
    assert (Hknown : Forall (fun name => is_Some (ui.indexNames 0 names ∅ !! name))
                       (Name <$> omap doneResult (ui_sent s))).
    { apply Forall_forall. intros name Hin. apply indexNames_known.
      destruct (uisched_told plat tasks workerCount outputFile mode s Hinv) as [Hsub _].
      apply (fmap_submseteq Name) in Hsub.
      rewrite (expected_names plat) in Hsub.
      eapply elem_of_submseteq; eassumption. }
    rewrite filter_all by exact Hknown.
    rewrite length_fmap, Hdone, Hres.
    destruct (bool_decide (0 < workerCount)%Z); [rewrite length_fmap|]; reflexivity.
  - intros Hwc Hnd. rewrite bool_decide_eq_true_2 in Hres by exact Hwc.
    apply list_eq. intros i. rewrite list_lookup_fmap.
    destruct (tasks !! i) as [task|] eqn:Htask; simpl.
    + assert (Hi : names !! i = Some (Task_Name task)).
      { unfold names. rewrite list_lookup_fmap, Htask. reflexivity. }
      rewrite (Hrows' i _ (ui.pendingRow (Task_Name task)) Hi)
        by (simpl; rewrite list_lookup_fmap, Hi; reflexivity).
      rewrite decide_True.
      2: { apply idx0_Some. split; [exact Hi|]. intros j Hlt Hj.
           pose proof (NoDup_lookup _ _ _ _ Hnd Hi Hj). lia. }
      f_equal. rewrite Hsent, foldl_app. simpl.
      rewrite <- (expected_Name plat task).
      apply rowStore_last.
      * rewrite Hres, (expected_names plat). exact Hnd.
      * rewrite Hres. apply list_elem_of_fmap_2.
        eapply list_elem_of_lookup_2. exact Htask.
    + apply lookup_ge_None. apply lookup_ge_None in Htask.
      rewrite <- (length_fmap Name), Hnames. unfold names. rewrite length_fmap.
      exact Htask.
  - intros Hwc. rewrite bool_decide_eq_false_2 in Hres by lia.
    apply Permutation_nil_r in Hres.
    assert (Hpre : pre = []).
    { rewrite Hsent in Hdone. rewrite Hres in Hdone.
      rewrite omap_app in Hdone. simpl in Hdone. rewrite app_nil_r in Hdone.
      apply Permutation_nil_r in Hdone.
      rewrite Hsent, Hres in Hstart. rewrite omap_app in Hstart. simpl in Hstart.
      rewrite app_nil_r in Hstart. apply Permutation_nil_r in Hstart.
      destruct pre as [|msg pre]; [reflexivity|].
      simpl in Hall. apply andb_true_iff in Hall as [Hmsg _].
      destruct msg; simpl in *; discriminate. }
    apply list_eq. intros i. fold names.
    destruct (names !! i) as [name|] eqn:Hi.
    + rewrite (Hrows' i name (ui.pendingRow name) Hi)
        by (simpl; rewrite list_lookup_fmap, Hi; reflexivity).
      rewrite list_lookup_fmap, Hi. simpl. f_equal.
      rewrite Hsent, Hpre, Hres. simpl. destruct (decide _); reflexivity.
    + rewrite list_lookup_fmap, Hi. simpl. apply lookup_ge_None.
      apply lookup_ge_None in Hi. rewrite <- (length_fmap Name), Hnames. exact Hi.
Qed.

End FinalModel.

Lemma runWithUI_final_model_witness :
  let task := plain_Task "kernel" "uname -a" "system" in
  let result := expected (H := ascii_GoLib) (H0 := quick_Host) user_Platform task in
  let generated :=
    generateFor (H := ascii_GoLib) (H0 := quick_Host) ReportMinified
      (NewMarkdownReport (H := writable_World) user_Platform
         (ui_results finished_UISched)) in
  let msgs := [ui.TickMsg 0; ui.TaskStartMsg "kernel"; ui.KeyMsg "enter";
               ui.TaskDoneMsg result; ui.AllDoneMsg [result];
               ui.WindowSizeMsg 120 40;
               ui.ReportDoneMsg "out.md" generated.1.2] in
  exists m,
    ui.Updates (ui.NewModel (H := writable_World) (Task_Name <$> [task])) msgs = Some m
    /\ ui.done m = true /\ ui.waitingInput m = true
    /\ ui.total m = Z.of_nat (length [task])
    /\ ui.completed m
       = (if bool_decide (0 < 1)%Z then Z.of_nat (length [task]) else 0%Z)
    /\ ui.reportPath m = "out.md"
    /\ ui.tokenCount m = generated.1.2
    /\ ((0 < 1)%Z -> NoDup (Task_Name <$> [task]) ->
        ui.tasks m
        = expected (H := ascii_GoLib) (H0 := quick_Host) user_Platform <$> [task])
    /\ ((1 <= 0)%Z -> ui.tasks m = ui.pendingRow <$> (Task_Name <$> [task])).
Proof.
  intros task result generated msgs.
  apply (@runWithUI_final_model ascii_GoLib quick_Host writable_World user_Platform
           [task] 1 "out.md" ReportMinified finished_UISched msgs).
  - apply finished_UISched_reachable.
  - reflexivity.
  - reflexivity.
Defined.

(** ** What the reports leave out *)

Lemma reportView_Status (result : TaskResult) :
  Status_ (reportView result) = Status_ result.
Proof. unfold reportView. destruct (Status_ result) eqn:E; simpl; congruence. Qed.

Lemma foldl_reportView {B} (g : B -> TaskResult -> B) (b : B) (rs : list TaskResult) :
  (forall b result, g b (reportView result) = g b result) ->
  foldl g b (reportView <$> rs) = foldl g b rs.
Proof.
  intros Hg. revert b. induction rs as [|res rs IH]; intros b; [reflexivity|].
  simpl. rewrite Hg. apply IH.
Qed.

Lemma filter_reportView (status : Status) (rs : list TaskResult) :
  filter (fun res => Status_ res = status) (reportView <$> rs)
  = reportView <$> filter (fun res => Status_ res = status) rs.
Proof.
  induction rs as [|res rs IH]; [reflexivity|].
  rewrite fmap_cons, !filter_cons, reportView_Status.
  destruct (decide (Status_ res = status)); rewrite IH; reflexivity.
Qed.

Lemma lines_reportView (f : TaskResult -> string) (status : Status)
    (rs : list TaskResult) :
  (forall res, Status_ res = status -> f (reportView res) = f res) ->
  f <$> (reportView <$> filter (fun res => Status_ res = status) rs)
  = f <$> filter (fun res => Status_ res = status) rs.
Proof.
  intros Hf. induction rs as [|res rs IH]; [reflexivity|].
  rewrite filter_cons. destruct (decide (Status_ res = status)) as [Hs|Hs]; [|exact IH].
  rewrite !fmap_cons, IH, Hf by exact Hs. reflexivity.
Qed.

Lemma writeTaskResult_reportView (b : string) (result : TaskResult) :
  writeTaskResult b (reportView result) = writeTaskResult b result.
Proof.
  unfold writeTaskResult, reportView.
  destruct (Status_ result) eqn:E; simpl; reflexivity.
Qed.

Lemma minifiedEntry_reportView (b : string) (result : TaskResult) :
  minifiedEntry b (reportView result) = minifiedEntry b result.
Proof.
  unfold minifiedEntry, reportView.
  destruct (Status_ result) eqn:E; simpl; reflexivity.
Qed.

Lemma introEntry_reportView (b : string) (result : TaskResult) :
  introEntry b (reportView result) = introEntry b result.
Proof.
  unfold introEntry, reportView.
  destruct (Status_ result) eqn:E; simpl; reflexivity.
Qed.

Lemma writeErrorsSection_reportView (r : MarkdownReport) (b : string) :
  writeErrorsSection (withResults r (reportView <$> Results r)) b
  = writeErrorsSection r b.
Proof.
  unfold writeErrorsSection, withResults. simpl.
  rewrite !collectErrors_fold. simpl. rewrite !filter_reportView, !length_fmap.
  destruct ((Z.of_nat (length _) =? 0)%Z && (Z.of_nat (length _) =? 0)%Z);
    [reflexivity|].
  rewrite !foldl_lines. rewrite !lines_reportView; [reflexivity| |].
  - intros res Hs. unfold skippedLine, reportView. rewrite Hs. reflexivity.
  - intros res Hs. unfold errorLine, reportView. rewrite Hs. reflexivity.
Qed.

Section ReportView.
Context `{lib : GoLib}.

Lemma categoryLabel_reportView (result : TaskResult) :
  categoryLabel (reportView result) = categoryLabel result.
Proof.
  unfold categoryLabel, reportView. destruct (Status_ result); reflexivity.
Qed.

Lemma groupByCategory_fold_reportView (rs : list TaskResult)
    (m : gmap string (list TaskResult)) (order : list string) :
  foldl groupByCategory_step (fmap (M := list) reportView <$> m, order) (reportView <$> rs)
  = ((fmap (M := list) reportView <$> (foldl groupByCategory_step (m, order) rs).1),
     (foldl groupByCategory_step (m, order) rs).2).
Proof.
  revert m order. induction rs as [|res rs IH]; intros m order; [reflexivity|].
  simpl. rewrite categoryLabel_reportView, lookup_fmap.
  rewrite <- IH. f_equal. f_equal.
  - rewrite fmap_insert. f_equal.
    destruct (m !! categoryLabel res); simpl; rewrite ?fmap_app; reflexivity.
  - destruct (m !! categoryLabel res); reflexivity.
Qed.

Lemma generateContent_reportView (r : MarkdownReport) :
  generateContent (withResults r (reportView <$> Results r)) = generateContent r.
Proof.
  unfold generateContent. rewrite writeErrorsSection_reportView. f_equal.
  unfold groupByCategory, withResults. simpl.
  pose proof (groupByCategory_fold_reportView (Results r) ∅ []) as Hfold.
  rewrite fmap_empty in Hfold. rewrite Hfold.
  destruct (foldl groupByCategory_step (∅, []) (Results r)) as [m order]. simpl.
  generalize (sort_Strings order) as names. generalize ""%string as b.
  intros b names. revert b. induction names as [|name names IH]; intros b;
    [reflexivity|].
  simpl. rewrite <- IH. f_equal. unfold writeCategory. simpl.
  rewrite lookup_fmap. destruct (m !! name) as [l|]; simpl; [|reflexivity].
  apply foldl_reportView. apply writeTaskResult_reportView.
Qed.

(** No report shows more of a result than its view: the text and the
    token count of each of the three reports are those of the report
    of the views.  So the standard error of a command that succeeded,
    the output of a command that failed, the part of the output
    captured before the deadline included, the command of a failed or
    skipped task and the duration of any task are in no report. *)
Theorem reports_show_reportView `{host : Host} (mode : ReportMode)
    (r : MarkdownReport) :
  generateFor mode (withResults r (reportView <$> Results r)) = generateFor mode r.
Proof.
  destruct mode; unfold generateFor.
  - unfold Generate, generateWithTokenCount. rewrite generateContent_reportView.
    reflexivity.
  - unfold GenerateMinified, minifiedContent, withResults. simpl.
    rewrite (foldl_reportView minifiedEntry) by apply minifiedEntry_reportView.
    reflexivity.
  - unfold GenerateIntro, introContent, withResults. simpl.
    rewrite (foldl_reportView introEntry) by apply introEntry_reportView.
    reflexivity.
Qed.

End ReportView.

(** ** The status of a result and the fallbacks of the report *)

(** The status [Run] gives.  A task is skipped exactly when [CanRun]
    refuses it.  For a task that could run, the status is decided by
    what [Run] reads once [cmd.Run] has returned: it is [Success]
    exactly when [ctx.Err()] is not [context.DeadlineExceeded] by then
    and [cmd.Run] gave no error, and [Failed] exactly when the deadline
    has passed by then or [cmd.Run] gave an error.  The deadline is
    looked at first: when it has passed, the result is [Failed] with
    the time-out message also when [cmd.Run] gave no error, as for a
    command that ended in time while [cmd.Run] returned late.  The
    result carries the name, the command and the category of the task.
    The error of a failed result is empty only when [cmd.Run] gave an
    error with an empty message and the command left nothing on its
    standard error, and the reason of a skipped result is never empty:
    in a report of results of [Run] the texts [Unknown error] and
    [Unknown reason] stand for nothing else. *)
Theorem Run_classification `{lib : GoLib} `{host : Host} (r : Runner) (task : Task)
    (tr : list Event) :
  let res := (Run r task tr).1 in
  let canRun := (CanRun r task tr).1.1 in
  let o := sh (Task_Command task) (Timeout r) in
  let stderr := truncateOutput (out_stderr o) (Task_MaxLines task) (Task_MaxBytes task) in
  (Name res = Task_Name task /\ Command res = Task_Command task
   /\ Category res = Task_Category task)
  /\ (Status_ res = StatusSkipped <-> canRun = false)
  /\ (Status_ res = StatusSuccess
      <-> canRun = true /\ out_deadline o = false /\ out_err o = None)
  /\ (Status_ res = StatusFailed
      <-> canRun = true /\ (out_deadline o = true \/ out_err o <> None))
  /\ (Status_ res = StatusSkipped ->
      SkipReason res <> ""
      /\ skippedLine res
         = "- **" +:+ Task_Name task +:+ "**: Skipped (" +:+ SkipReason res +:+ ")" +:+ nl)
  /\ (Status_ res = StatusFailed -> Error res = "" ->
      out_deadline o = false /\ out_err o = Some "" /\ stderr = "")
  /\ (Status_ res = StatusFailed -> Error res <> "" ->
      errorLine res
      = "- **" +:+ Task_Name task +:+ "**: Failed (" +:+ Error res +:+ ")" +:+ nl)
  /\ (canRun = true -> out_deadline o = true ->
      Status_ res = StatusFailed
      /\ Error res = "Command timed out after " +:+ Duration_String (Timeout r)).
Proof.
  intros res canRun o stderr. subst res canRun.
  split; [apply Run_identity|].
  pose proof (proj1 (Run_identity r task tr)) as Hname.
  assert (Hline : Error (Run r task tr).1 <> "" ->
            errorLine (Run r task tr).1
            = "- **" +:+ Task_Name task +:+ "**: Failed ("
              +:+ Error (Run r task tr).1 +:+ ")" +:+ nl).
  { intros He. unfold errorLine. rewrite Hname.
    destruct (String.eqb_spec (Error (Run r task tr).1) ""); [contradiction|].
    reflexivity. }
  assert (Hskip : SkipReason (Run r task tr).1 <> "" ->
            skippedLine (Run r task tr).1
            = "- **" +:+ Task_Name task +:+ "**: Skipped ("
              +:+ SkipReason (Run r task tr).1 +:+ ")" +:+ nl).
  { intros He. unfold skippedLine. rewrite Hname.
    destruct (String.eqb_spec (SkipReason (Run r task tr).1) ""); [contradiction|].
    reflexivity. }
  revert Hline Hskip. unfold Run, bind.
  destruct (CanRun r task tr) as [[c reason] tr1] eqn:Hcan. simpl.
  destruct c; simpl.
  - unfold spawn, ret. fold o. fold stderr.
    destruct (out_deadline o) eqn:Ed; [|destruct (out_err o) as [msg|] eqn:Ee]; simpl;
      intros Hline Hskip; split_and!;
      first [ solve [split; intros; try discriminate; intuition congruence]
            | solve [intros [=]]
            | solve [intros _; exact Hline]
            | solve [intros _ He; rewrite app_String in He; discriminate]
            | solve [intros _; destruct (String.eqb_spec stderr "") as [Hs|Hs];
                     intros He; [subst msg; auto|contradiction]]
            | solve [intros Hc Hd;
                     first [discriminate Hc|discriminate Hd|split; reflexivity]] ].
  - apply CanRun_reason in Hcan. unfold ret. simpl. intros Hline Hskip.
    split_and!;
      first [ solve [split; intros; try discriminate; intuition congruence]
            | solve [intros [=]]
            | solve [intros _; split; [exact Hcan|apply Hskip; exact Hcan]]
            | solve [intros Hc; discriminate Hc] ].
Qed.
